(** * TelegramMABot: moving-average crossover monitors driven by Telegram commands

    A shallow embedding of [src/main.py].

    Conventions of the embedding.
    - Python [int] is [Z]; a close price (a Python [float]) is an exact
      rational [Q], so rounding of the float mean is not modelled; the [nan]
      that [np.mean] returns on an empty slice is [None]. What is stated of
      [check_crossover] does not depend on rounding: the length test, the
      empty slices, which closes are read, the order of the two tests, and
      averages that are exact in binary floating point.
    - Text is an ASCII [string]; [upper], [lower], [strip] and [split] act on
      ASCII letters and ASCII white space.
    - The module globals ([symbols], [monitors], the Telegram outbox, the
      writes to [config.json], [events.log]) are the fields of [State];
      every [Monitor] object lives in [heap] and is named by its index, so
      that a worker deleted from [monitors] can still be told from a live one.
    - The webhook body is a well-typed Telegram update: [message], [chat],
      [id] and [text] may be absent, but [text], when present, is a string. *)

From Stdlib Require Import ZArith QArith String Ascii Bool Lia List.
From Stdlib Require Import DecimalString DecimalZ.
Import ListNotations.

Open Scope Z_scope.

(** ** Python lists: slices and [np.mean] *)

Module Py.

(** [l[start:stop]] with step 1: a negative bound counts from the end, and
    both bounds are clamped to [0 .. len l]. *)
Definition clamp_index (n i : Z) : Z :=
  if i <? 0 then Z.max (i + n) 0 else Z.min i n.

Definition slice {A} (l : list A) (start stop : option Z) : list A :=
  let n := Z.of_nat (length l) in
  let lo := match start with Some i => clamp_index n i | None => 0 end in
  let hi := match stop with Some j => clamp_index n j | None => n end in
  firstn (Z.to_nat (hi - lo)) (skipn (Z.to_nat lo) l).

Definition Qsum (l : list Q) : Q := fold_right Qplus 0%Q l.

(** [np.mean]: [nan] (here [None]) on an empty sequence. *)
Definition mean (l : list Q) : option Q :=
  match l with
  | [] => None
  | _ => Some (Qsum l / inject_Z (Z.of_nat (length l)))%Q
  end.

Definition Qltb (x y : Q) : bool := negb (Qle_bool y x).

(** [a < b] on floats: false as soon as one side is [nan]. *)
Definition lt (a b : option Q) : bool :=
  match a, b with
  | Some x, Some y => Qltb x y
  | _, _ => false
  end.

End Py.

(** ** The crossover check *)

Inductive Signal := NoSignal | BullishCross | BearishCross.

Record CrossData := {
  cd_name : string;
  cd_fast_ma : Z;
  cd_slow_ma : Z;
  cd_granularity : Z;
  cd_closes : list Q
}.

(** The branch [check_crossover] takes: nothing is emitted ([NoSignal]), the
    bullish message, or the bearish message. *)
Definition check_crossover (data : CrossData) : Signal :=
  let closes := cd_closes data in
  let fast := cd_fast_ma data in
  let slow := cd_slow_ma data in
  if Z.of_nat (length closes) <? slow + 2 then NoSignal
  else
    let fast_now := Py.mean (Py.slice closes (Some (- fast)) None) in
    let slow_now := Py.mean (Py.slice closes (Some (- slow)) None) in
    let fast_prev := Py.mean (Py.slice closes (Some (- fast - 1)) (Some (-1))) in
    let slow_prev := Py.mean (Py.slice closes (Some (- slow - 1)) (Some (-1))) in
    if Py.lt fast_prev slow_prev && Py.lt slow_now fast_now then BullishCross
    else if Py.lt slow_prev fast_prev && Py.lt fast_now slow_now then BearishCross
    else NoSignal.

(** The branch depends on the closes and the two windows only; [name] and
    [granularity] go into the text of the message. *)
Definition crossover (closes : list Q) (fast slow : Z) : Signal :=
  check_crossover {| cd_name := ""; cd_fast_ma := fast; cd_slow_ma := slow;
                     cd_granularity := 60; cd_closes := closes |}.

(** ** Python text: [str.upper], [str.lower], [str.strip], [str.split],
    [int(...)] and [str(...)] *)

Module Text.

Open Scope char_scope.

Definition is_space (c : ascii) : bool :=
  let n := nat_of_ascii c in
  ((9 <=? n) && (n <=? 13) || (28 <=? n) && (n <=? 32))%nat.

Definition is_lower (c : ascii) : bool :=
  let n := nat_of_ascii c in ((97 <=? n) && (n <=? 122))%nat.

Definition is_upper (c : ascii) : bool :=
  let n := nat_of_ascii c in ((65 <=? n) && (n <=? 90))%nat.

Definition upper_char (c : ascii) : ascii :=
  if is_lower c then ascii_of_nat (nat_of_ascii c - 32) else c.

Definition lower_char (c : ascii) : ascii :=
  if is_upper c then ascii_of_nat (nat_of_ascii c + 32) else c.

Fixpoint map_chars (f : ascii -> ascii) (s : string) : string :=
  match s with
  | EmptyString => EmptyString
  | String c r => String (f c) (map_chars f r)
  end.

Definition upper : string -> string := map_chars upper_char.
Definition lower : string -> string := map_chars lower_char.

Fixpoint lstrip (s : string) : string :=
  match s with
  | String c r => if is_space c then lstrip r else s
  | EmptyString => EmptyString
  end.

(** Trailing white space is dropped from the right end inwards. *)
Fixpoint rstrip (s : string) : string :=
  match s with
  | EmptyString => EmptyString
  | String c r =>
      match rstrip r with
      | EmptyString => if is_space c then EmptyString else String c EmptyString
      | r' => String c r'
      end
  end.

Definition strip (s : string) : string := rstrip (lstrip s).

(** [s.split()]: the maximal runs of characters that are not white space.
    [cur] is the run being read, reversed. *)
Fixpoint split_aux (s : string) (cur : list ascii) : list string :=
  let flush (rest : list string) :=
    match cur with
    | [] => rest
    | _ => string_of_list_ascii (rev cur) :: rest
    end in
  match s with
  | EmptyString => flush []
  | String c r =>
      if is_space c then flush (split_aux r []) else split_aux r (c :: cur)
  end.

Definition split (s : string) : list string := split_aux s [].

Definition startswith (p s : string) : bool := String.prefix p s.

Definition is_digit (c : ascii) : bool :=
  let n := nat_of_ascii c in ((48 <=? n) && (n <=? 57))%nat.

Definition digit_val (c : ascii) : Z := Z.of_nat (nat_of_ascii c - 48).

(** The digits of an integer literal: single underscores are allowed between
    two digits only. [after_digit] tells whether the previous character was a
    digit. *)
Fixpoint digits (s : string) (acc : Z) (after_digit : bool) : option Z :=
  match s with
  | EmptyString => if after_digit then Some acc else None
  | String c r =>
      if is_digit c then digits r (10 * acc + digit_val c) true
      else if Ascii.eqb c "_" then
        if after_digit then digits r acc false else None
      else None
  end.

(** [int(s)]: [None] stands for [ValueError]. *)
Definition int (s : string) : option Z :=
  match strip s with
  | String "+" r => digits r 0 false
  | String "-" r => option_map Z.opp (digits r 0 false)
  | r => digits r 0 false
  end.

(** [str(z)] for an integer. *)
Definition str (z : Z) : string := NilZero.string_of_int (Z.to_int z).

Definition newline : string := String (ascii_of_nat 10) EmptyString.

Fixpoint join (sep : string) (l : list string) : string :=
  match l with
  | [] => EmptyString
  | [x] => x
  | x :: r => (x ++ sep ++ join sep r)%string
  end.

End Text.

(** ** Configuration document, monitors and the global state *)

Open Scope string_scope.

(** A JSON scalar as the code uses it, through [str(...)] only. *)
Inductive pyval := PyNone | PyInt (z : Z) | PyStr (s : string).

Definition py_str (v : pyval) : string :=
  match v with
  | PyNone => "None"
  | PyInt z => Text.str z
  | PyStr s => s
  end.

Record Timeframe := {
  fast_ma : Z;
  slow_ma : Z;
  granularity : Z
}.

Record SymbolConfig := {
  name : string;
  timeframes : list Timeframe
}.

(** [==] on the two kinds of dict. *)
Definition Timeframe_eqb (a b : Timeframe) : bool :=
  (fast_ma a =? fast_ma b)%Z && (slow_ma a =? slow_ma b)%Z
  && (granularity a =? granularity b)%Z.

Fixpoint list_eqb {A} (eqb : A -> A -> bool) (l1 l2 : list A) : bool :=
  match l1, l2 with
  | [], [] => true
  | x :: r1, y :: r2 => eqb x y && list_eqb eqb r1 r2
  | _, _ => false
  end.

Definition SymbolConfig_eqb (a b : SymbolConfig) : bool :=
  (name a =? name b) && list_eqb Timeframe_eqb (timeframes a) (timeframes b).

(** [l.remove(x)]: drops the first element equal to [x]. *)
Fixpoint list_remove {A} (eqb : A -> A -> bool) (x : A) (l : list A) : list A :=
  match l with
  | [] => []
  | y :: r => if eqb y x then r else y :: list_remove eqb x r
  end.

(** The document [config.json] holds; [doc_symbols] is [None] when the key
    [symbols] is absent. *)
Record ConfigDoc := {
  doc_bot_token : pyval;
  doc_chat_id : pyval;
  doc_symbols : option (list SymbolConfig)
}.

Record Monitor := {
  m_name : string;
  m_fast_ma : Z;
  m_slow_ma : Z;
  m_granularity : Z;
  m_closes : list Q;
  m_started : bool;
  m_active : bool
}.

(** [Monitor.__init__] *)
Definition Monitor_init (n : string) (f s g : Z) : Monitor :=
  {| m_name := n; m_fast_ma := f; m_slow_ma := s; m_granularity := g;
     m_closes := []; m_started := false; m_active := true |}.

(** [Monitor.start] *)
Definition Monitor_start (m : Monitor) : Monitor :=
  {| m_name := m_name m; m_fast_ma := m_fast_ma m; m_slow_ma := m_slow_ma m;
     m_granularity := m_granularity m; m_closes := m_closes m;
     m_started := true; m_active := m_active m |}.

(** [Monitor.stop] *)
Definition Monitor_stop (m : Monitor) : Monitor :=
  {| m_name := m_name m; m_fast_ma := m_fast_ma m; m_slow_ma := m_slow_ma m;
     m_granularity := m_granularity m; m_closes := m_closes m;
     m_started := m_started m; m_active := false |}.

Definition Monitor_set_closes (c : list Q) (m : Monitor) : Monitor :=
  {| m_name := m_name m; m_fast_ma := m_fast_ma m; m_slow_ma := m_slow_ma m;
     m_granularity := m_granularity m; m_closes := c;
     m_started := m_started m; m_active := m_active m |}.

(** A Python [dict] with string keys, in insertion order. *)
Module Dict.

Definition t (V : Type) := list (string * V).

Fixpoint get {V} (k : string) (d : t V) : option V :=
  match d with
  | [] => None
  | (k', v) :: r => if k' =? k then Some v else get k r
  end.

Definition mem {V} (k : string) (d : t V) : bool :=
  match get k d with Some _ => true | None => false end.

(** [d[k] = v] *)
Fixpoint set {V} (k : string) (v : V) (d : t V) : t V :=
  match d with
  | [] => [(k, v)]
  | (k', v') :: r => if k' =? k then (k', v) :: r else (k', v') :: set k v r
  end.

(** [del d[k]]: no entry of key [k] is left. *)
Definition del {V} (k : string) (d : t V) : t V :=
  filter (fun kv => negb (fst kv =? k)) d.

End Dict.

(** The module globals and the outside world the handlers write to. *)
Record State := {
  bot_token : pyval;
  chat_id : pyval;
  symbols : list SymbolConfig;
  (** whether [symbols] is the very list stored under [config["symbols"]] *)
  symbols_in_config : bool;
  (** every [Monitor] object created so far; its index is its identity *)
  heap : list Monitor;
  monitors : Dict.t nat;
  (** texts handed to [send_telegram], oldest first *)
  sent : list string;
  (** documents written to [config.json], oldest first *)
  saved : list ConfigDoc;
  (** lines appended to [events.log], without their time stamp *)
  events : list string
}.

Definition set_symbols (v : list SymbolConfig) (st : State) : State :=
  {| bot_token := bot_token st; chat_id := chat_id st; symbols := v;
     symbols_in_config := symbols_in_config st; heap := heap st;
     monitors := monitors st; sent := sent st; saved := saved st;
     events := events st |}.

Definition set_heap (v : list Monitor) (st : State) : State :=
  {| bot_token := bot_token st; chat_id := chat_id st; symbols := symbols st;
     symbols_in_config := symbols_in_config st; heap := v;
     monitors := monitors st; sent := sent st; saved := saved st;
     events := events st |}.

Definition set_monitors (v : Dict.t nat) (st : State) : State :=
  {| bot_token := bot_token st; chat_id := chat_id st; symbols := symbols st;
     symbols_in_config := symbols_in_config st; heap := heap st;
     monitors := v; sent := sent st; saved := saved st;
     events := events st |}.

Definition set_sent (v : list string) (st : State) : State :=
  {| bot_token := bot_token st; chat_id := chat_id st; symbols := symbols st;
     symbols_in_config := symbols_in_config st; heap := heap st;
     monitors := monitors st; sent := v; saved := saved st;
     events := events st |}.

Definition set_saved (v : list ConfigDoc) (st : State) : State :=
  {| bot_token := bot_token st; chat_id := chat_id st; symbols := symbols st;
     symbols_in_config := symbols_in_config st; heap := heap st;
     monitors := monitors st; sent := sent st; saved := v;
     events := events st |}.

Definition set_events (v : list string) (st : State) : State :=
  {| bot_token := bot_token st; chat_id := chat_id st; symbols := symbols st;
     symbols_in_config := symbols_in_config st; heap := heap st;
     monitors := monitors st; sent := sent st; saved := saved st;
     events := v |}.

(** The [config] dict as it stands: its [symbols] entry is the global list
    when the two are the same object, and is absent otherwise. *)
Definition config (st : State) : ConfigDoc :=
  {| doc_bot_token := bot_token st; doc_chat_id := chat_id st;
     doc_symbols := if symbols_in_config st then Some (symbols st) else None |}.

(** ** Loading and saving the configuration *)

(** What [open] and [json.load] do with [config.json]: [open] raises
    [FileNotFoundError] or another error (a [PermissionError], say);
    [json.load] raises [UnicodeDecodeError] when the bytes are no text and
    [JSONDecodeError] when the text is no JSON; otherwise it returns the
    JSON value of the file, an object or something else ([null], a list, a
    number, a string). *)
Inductive ReadOutcome :=
| FileNotFoundError
| JSONDecodeError
| UnicodeDecodeError
| OtherError
| Loaded (doc : ConfigDoc)
| LoadedNotObject.

(** The value bound to [config]: a dict, or a JSON value without [.get]. *)
Inductive Config :=
| Document (doc : ConfigDoc)
| NotADocument.

Definition default_config : ConfigDoc :=
  {| doc_bot_token := PyStr ""; doc_chat_id := PyStr ""; doc_symbols := Some [] |}.

(** [None]: the exception is not one of the two the [except] clause names;
    it propagates and the program does not start. *)
Definition load_config (file : ReadOutcome) : option Config :=
  match file with
  | Loaded doc => Some (Document doc)
  | LoadedNotObject => Some NotADocument
  | FileNotFoundError | JSONDecodeError => Some (Document default_config)
  | UnicodeDecodeError | OtherError => None
  end.

Definition save_config (st : State) : State :=
  set_saved (saved st ++ [config st]) st.

(** The module level statements after [config = load_config()]:
    [monitors = {}], nothing sent or written yet. *)
Definition init (cfg : ConfigDoc) : State :=
  {| bot_token := doc_bot_token cfg;
     chat_id := doc_chat_id cfg;
     symbols := match doc_symbols cfg with Some l => l | None => [] end;
     symbols_in_config := match doc_symbols cfg with Some _ => true | None => false end;
     heap := []; monitors := []; sent := []; saved := []; events := [] |}.

Definition send_telegram (text : string) (st : State) : State :=
  set_sent (sent st ++ [text]) st.

Definition log_event (text : string) (st : State) : State :=
  set_events (events st ++ [text]) st.

(** ** Workers *)

(** The effect of [check_crossover]: the message goes to Telegram and to the
    event log. *)
Definition crossover_message (data : CrossData) : option string :=
  let sym := cd_name data in
  let tf := (cd_granularity data / 60)%Z in
  match check_crossover data with
  | BullishCross => Some ("[" ++ sym ++ " " ++ Text.str tf ++ "m] Bullish MA crossover!")
  | BearishCross => Some ("[" ++ sym ++ " " ++ Text.str tf ++ "m] Bearish MA crossover!")
  | NoSignal => None
  end.

Definition run_check_crossover (data : CrossData) (st : State) : State :=
  match crossover_message data with
  | Some msg => log_event msg (send_telegram msg st)
  | None => st
  end.

Fixpoint heap_update (i : nat) (f : Monitor -> Monitor) (h : list Monitor) : list Monitor :=
  match h, i with
  | [], _ => []
  | m :: r, O => f m :: r
  | m :: r, S j => m :: heap_update j f r
  end.

(** [Monitor.on_message] of the worker [i], for a message that parsed:
    [candles] is the list of closes of its candle batch, if it has one. *)
Definition on_message (i : nat) (candles : option (list Q)) (st : State) : State :=
  match nth_error (heap st) i, candles with
  | Some m, Some (c :: cs) =>
      let closes := c :: cs in
      let st1 := set_heap (heap_update i (Monitor_set_closes closes) (heap st)) st in
      run_check_crossover
        {| cd_name := m_name m; cd_fast_ma := m_fast_ma m;
           cd_slow_ma := m_slow_ma m; cd_granularity := m_granularity m;
           cd_closes := closes |} st1
  | _, _ => st
  end.

(** ** The registry *)

(** [f"{name}_{granularity}"] *)
Definition monitor_key (n : string) (g : Z) : string := n ++ "_" ++ Text.str g.

(** The block both [start_all_monitors] and [/addsymbol] run:
    [[
      if key not in monitors:
          m = Monitor(name, fast_ma, slow_ma, granularity)
          monitors[key] = m
          m.start()
    ]] *)
Definition start_monitor (n : string) (f s g : Z) (st : State) : State :=
  let key := monitor_key n g in
  if negb (Dict.mem key (monitors st)) then
    let id := List.length (heap st) in
    let st1 := set_heap (heap st ++ [Monitor_init n f s g]) st in
    let st2 := set_monitors (Dict.set key id (monitors st1)) st1 in
    set_heap (heap_update id Monitor_start (heap st2)) st2
  else st.

Definition start_all_monitors (st : State) : State :=
  fold_left
    (fun st sym =>
       fold_left
         (fun st tf =>
            start_monitor (name sym) (fast_ma tf) (slow_ma tf) (granularity tf) st)
         (timeframes sym) st)
    (symbols st) st.

Definition stop_all_monitors (st : State) : State :=
  let st1 :=
    fold_left (fun st kv => set_heap (heap_update (snd kv) Monitor_stop (heap st)) st)
              (monitors st) st in
  set_monitors [] st1.

(** The program up to the point where the web server starts. On a value
    that is no dict, [config.get("bot_token")] (line 22) raises
    [AttributeError] and the program stops there. *)
Definition main (file : ReadOutcome) : option State :=
  match load_config file with
  | Some (Document cfg) => Some (start_all_monitors (init cfg))
  | Some NotADocument => None
  | None => None
  end.

(** ** The Telegram webhook *)

Record Chat := { id : option pyval }.

Record Message := {
  chat : option Chat;
  text : option string
}.

Record Update := { message : option Message }.

(** [next((s for s in symbols or [] if s["name"] == sym_name), None)] *)
Definition find_symbol (sym_name : string) (l : list SymbolConfig) : option SymbolConfig :=
  find (fun s => name s =? sym_name) l.

(** In the source [sym] is a reference to the dict found by [find_symbol];
    a change made through it is a change of the first entry of that name. *)
Fixpoint update_symbol (sym_name : string) (f : SymbolConfig -> SymbolConfig)
         (l : list SymbolConfig) : list SymbolConfig :=
  match l with
  | [] => []
  | s :: r => if name s =? sym_name then f s :: r
              else s :: update_symbol sym_name f r
  end.

Definition has_granularity (gran : Z) (tf : Timeframe) : bool :=
  (granularity tf =? gran)%Z.

Definition add_timeframe (tf : Timeframe) (s : SymbolConfig) : SymbolConfig :=
  {| name := name s; timeframes := timeframes s ++ [tf] |}.

Definition already_has_timeframe (sym_name : string) (gran : Z) : string :=
  sym_name ++ " already has timeframe " ++ Text.str gran ++ "s".

(** [/addsymbol] once its arguments are read: lines 187 to 209. *)
Definition addsymbol (sym_name : string) (fast_ma slow_ma gran : Z) (st : State) : State :=
  let st1 :=
    match find_symbol sym_name (symbols st) with
    | Some _ => st
    | None => set_symbols (symbols st ++ [{| name := sym_name; timeframes := [] |}]) st
    end in
  let sym_timeframes :=
    match find_symbol sym_name (symbols st1) with
    | Some sym => timeframes sym
    | None => []
    end in
  if existsb (has_granularity gran) sym_timeframes then
    send_telegram (already_has_timeframe sym_name gran) st1
  else
    let tf := {| fast_ma := fast_ma; slow_ma := slow_ma; granularity := gran |} in
    let st2 := set_symbols (update_symbol sym_name (add_timeframe tf) (symbols st1)) st1 in
    let st3 := save_config st2 in
    let st4 := start_monitor sym_name fast_ma slow_ma gran st3 in
    send_telegram ("Added " ++ sym_name ++ " " ++ Text.str gran ++ "s with fast MA="
                   ++ Text.str fast_ma ++ " slow MA=" ++ Text.str slow_ma) st4.

Definition cmd_addsymbol (parts : list string) (st : State) : State :=
  if negb (List.length parts =? 5)%nat then
    send_telegram "Usage: /addsymbol SYMBOL FAST_MA SLOW_MA GRANULARITY_SECONDS" st
  else
    let sym_name := Text.upper (nth 1 parts "") in
    match Text.int (nth 2 parts ""), Text.int (nth 3 parts ""), Text.int (nth 4 parts "") with
    | Some fast_ma, Some slow_ma, Some gran => addsymbol sym_name fast_ma slow_ma gran st
    | _, _, _ => send_telegram "MA periods and granularity must be integers." st
    end.

Definition no_symbol_found (sym_name : string) : string :=
  "No symbol " ++ sym_name ++ " found.".

Definition no_timeframe_found (sym_name : string) (gran : Z) : string :=
  "No timeframe " ++ Text.str gran ++ "s found for " ++ sym_name.

Definition removed_monitor (sym_name : string) (gran : Z) : string :=
  "Removed " ++ sym_name ++ " " ++ Text.str gran ++ "s monitor.".

Definition remove_timeframe (tf : Timeframe) (s : SymbolConfig) : SymbolConfig :=
  {| name := name s; timeframes := list_remove Timeframe_eqb tf (timeframes s) |}.

(** Lines 236 to 239: stop the monitor of [key] if there is one. *)
Definition stop_monitor (key : string) (st : State) : State :=
  match Dict.get key (monitors st) with
  | Some i =>
      set_monitors (Dict.del key (monitors st))
        (set_heap (heap_update i Monitor_stop (heap st)) st)
  | None => st
  end.

(** [/remsymbol] once its arguments are read: lines 222 to 247. *)
Definition remsymbol (sym_name : string) (gran : Z) (st : State) : State :=
  match find_symbol sym_name (symbols st) with
  | None => send_telegram (no_symbol_found sym_name) st
  | Some sym =>
      match find (has_granularity gran) (timeframes sym) with
      | None => send_telegram (no_timeframe_found sym_name gran) st
      | Some tf_to_remove =>
          let sym' := remove_timeframe tf_to_remove sym in
          let st1 := set_symbols (update_symbol sym_name (remove_timeframe tf_to_remove)
                                                (symbols st)) st in
          let st2 := stop_monitor (monitor_key sym_name gran) st1 in
          let st3 :=
            if (List.length (timeframes sym') =? 0)%nat then
              set_symbols (list_remove SymbolConfig_eqb sym' (symbols st2)) st2
            else st2 in
          let st4 := save_config st3 in
          send_telegram (removed_monitor sym_name gran) st4
      end
  end.

Definition cmd_remsymbol (parts : list string) (st : State) : State :=
  if negb (List.length parts =? 3)%nat then
    send_telegram "Usage: /remsymbol SYMBOL GRANULARITY_SECONDS" st
  else
    let sym_name := Text.upper (nth 1 parts "") in
    match Text.int (nth 2 parts "") with
    | None => send_telegram "Granularity must be integer seconds." st
    | Some gran => remsymbol sym_name gran st
    end.

Definition timeframe_line (tf : Timeframe) : string :=
  Text.str (granularity tf / 60) ++ "m (fast=" ++ Text.str (fast_ma tf)
  ++ " slow=" ++ Text.str (slow_ma tf) ++ ")".

Definition cmd_listsymbols (st : State) : State :=
  match symbols st with
  | [] => send_telegram "No symbols are being monitored." st
  | _ =>
      let lines :=
        map (fun sym => name sym ++ ": " ++ Text.join ", " (map timeframe_line (timeframes sym)))
            (symbols st) in
      send_telegram ("Currently monitored symbols:" ++ Text.newline
                     ++ Text.join Text.newline lines) st
  end.

(** [monitors.values()] *)
Definition registered_workers (st : State) : list Monitor :=
  flat_map (fun kv : string * nat =>
              match nth_error (heap st) (snd kv) with
              | Some mon => [mon]
              | None => []
              end)
           (monitors st).

Definition cmd_status (st : State) : State :=
  let active :=
    map (fun mon => m_name mon ++ " " ++ Text.str (m_granularity mon / 60) ++ "m")
        (registered_workers st) in
  match active with
  | [] => send_telegram "No active monitors." st
  | _ => send_telegram ("Active monitors:" ++ Text.newline ++ Text.join Text.newline active) st
  end.

Definition unknown_command : string :=
  "Unknown command. Available:" ++ Text.newline ++ "/addsymbol" ++ Text.newline
  ++ "/remsymbol" ++ Text.newline ++ "/listsymbols" ++ Text.newline ++ "/status".

(** The handler's return value is [{"ok": True}] on every path. *)
Inductive Response := Ack.

(** [message.get("text", "").strip()] *)
Definition message_text (msg : Message) : string :=
  Text.strip (match text msg with Some t => t | None => "" end).

(** [message.get("chat", {}).get("id")] *)
Definition chat_id_msg (msg : Message) : pyval :=
  match chat msg with
  | Some c => match id c with Some v => v | None => PyNone end
  | None => PyNone
  end.

(** The chain of tests on [parts[0].lower()]. *)
Definition dispatch (parts : list string) (st : State) : State :=
  let cmd := Text.lower (nth 0 parts "") in
  if cmd =? "/addsymbol" then cmd_addsymbol parts st
  else if cmd =? "/remsymbol" then cmd_remsymbol parts st
  else if cmd =? "/listsymbols" then cmd_listsymbols st
  else if cmd =? "/status" then cmd_status st
  else send_telegram unknown_command st.

Definition telegram_webhook (data : option Update) (st : State) : Response * State :=
  match data with
  | None => (Ack, st)
  | Some upd =>
      match message upd with
      | None => (Ack, st)
      | Some msg =>
          let txt := message_text msg in
          if negb (py_str (chat_id_msg msg) =? py_str (chat_id st)) then (Ack, st)
          else if Text.startswith "/" txt then (Ack, dispatch (Text.split txt) st)
          else (Ack, st)
      end
  end.

(** A run of the server: the updates are handled one after the other. *)
Definition handle (st : State) (data : option Update) : State :=
  snd (telegram_webhook data st).

Definition run (updates : list (option Update)) (st : State) : State :=
  fold_left handle updates st.

(** ** Vocabulary of the statements *)

(** The update that carries the text [t] from the chat [from]. *)
Definition text_update (from : pyval) (t : string) : option Update :=
  Some {| message := Some {| chat := Some {| id := Some from |}; text := Some t |} |}.

(** ** The detector as the specification words it *)

Module Spec.

(** The last [w] closes of a series. *)
Definition last_closes (w : Z) (closes : list Q) : list Q :=
  skipn (List.length closes - Z.to_nat w) closes.

Definition arith_mean (l : list Q) : Q :=
  (Py.Qsum l / inject_Z (Z.of_nat (List.length l)))%Q.

(** The moving average of window [w] now, and one sample earlier, that is on
    the series without its latest close. *)
Definition ma_now (w : Z) (closes : list Q) : Q :=
  arith_mean (last_closes w closes).

Definition ma_prev (w : Z) (closes : list Q) : Q :=
  arith_mean (last_closes w (removelast closes)).

End Spec.

(** ** Commands as the handler reads them *)

(** [data] is a message from the configured chat whose stripped text starts
    with a slash and splits into [parts]. *)
Definition authorized_command (st : State) (data : option Update)
           (parts : list string) : Prop :=
  exists upd msg,
    data = Some upd /\ message upd = Some msg /\
    py_str (chat_id_msg msg) = py_str (chat_id st) /\
    Text.startswith "/" (message_text msg) = true /\
    Text.split (message_text msg) = parts.

(** [data] is [/addsymbol SYMBOL FAST SLOW GRANULARITY] with three integers;
    [symbol] is the SYMBOL argument as typed. *)
Definition addsymbol_command (st : State) (data : option Update)
           (symbol : string) (fast slow gran : Z) : Prop :=
  exists c f s g,
    authorized_command st data [c; symbol; f; s; g] /\
    Text.lower c = "/addsymbol" /\
    Text.int f = Some fast /\ Text.int s = Some slow /\ Text.int g = Some gran.

(** [data] is [/remsymbol SYMBOL GRANULARITY] with an integer. *)
Definition remsymbol_command (st : State) (data : option Update)
           (symbol : string) (gran : Z) : Prop :=
  exists c g,
    authorized_command st data [c; symbol; g] /\
    Text.lower c = "/remsymbol" /\ Text.int g = Some gran.

(** ** Live workers and the consistency of the registry *)

Definition worker_key (m : Monitor) : string :=
  monitor_key (m_name m) (m_granularity m).

(** A worker is live when its thread was started and it was not stopped. *)
Definition is_live (key : string) (m : Monitor) : bool :=
  m_started m && m_active m && (worker_key m =? key).

Definition live_workers (key : string) (st : State) : list Monitor :=
  filter (is_live key) (heap st).

(** The registry and the workers agree: a registered worker is a started,
    active worker of that key, and an active worker is the one registered
    under its key. *)
Definition registry_consistent (st : State) : Prop :=
  (forall k i, Dict.get k (monitors st) = Some i ->
     exists m, nth_error (heap st) i = Some m /\ worker_key m = k /\
               m_started m = true /\ m_active m = true) /\
  (forall i m, nth_error (heap st) i = Some m -> m_active m = true ->
     Dict.get (worker_key m) (monitors st) = Some i).

(** Every configured timeframe has its monitor registered. *)
Definition config_monitored (st : State) : Prop :=
  forall sym tf, In sym (symbols st) -> In tf (timeframes sym) ->
    Dict.mem (monitor_key (name sym) (granularity tf)) (monitors st) = true.

Definition consistent (st : State) : Prop :=
  registry_consistent st /\ config_monitored st.

(** The symbol list as [/addsymbol] has it when it tests the granularity. *)
Definition with_symbol (sym_name : string) (l : list SymbolConfig) : list SymbolConfig :=
  match find_symbol sym_name l with
  | Some _ => l
  | None => (l ++ [{| name := sym_name; timeframes := [] |}])%list
  end.


(** The symbol list without its first entry of the given name. *)
Fixpoint drop_symbol (sym_name : string) (l : list SymbolConfig) : list SymbolConfig :=
  match l with
  | [] => []
  | s :: r => if name s =? sym_name then r else s :: drop_symbol sym_name r
  end.

(** The data model's uniqueness conditions. *)
Definition unique_granularities (s : SymbolConfig) : Prop :=
  NoDup (map granularity (timeframes s)).

Definition unique_names (l : list SymbolConfig) : Prop :=
  NoDup (map name l).

(** A configuration with one chat allowed and no symbol yet. *)
Definition chat7 : State :=
  start_all_monitors (init {| doc_bot_token := PyStr "token"; doc_chat_id := PyStr "7";
                              doc_symbols := Some [] |}).

(** ** Windows and names held by the system *)

(** Every configured timeframe and every active worker has windows of at
    least one. *)
Definition positive_windows (st : State) : Prop :=
  (forall sym tf, In sym (symbols st) -> In tf (timeframes sym) ->
     (1 <= fast_ma tf)%Z /\ (1 <= slow_ma tf)%Z) /\
  (forall m, In m (heap st) -> m_active m = true ->
     (1 <= m_fast_ma m)%Z /\ (1 <= m_slow_ma m)%Z).

(** If [data] is an [/addsymbol] the handler accepts, its windows are at
    least one. *)
Definition positive_command (st : State) (data : option Update) : Prop :=
  forall symbol fast slow gran,
    addsymbol_command st data symbol fast slow gran ->
    (1 <= fast)%Z /\ (1 <= slow)%Z.







(** The symbol list obeys the data model: one entry per name, one timeframe
    per granularity in an entry. *)
Definition unique_config (st : State) : Prop :=
  unique_names (symbols st) /\
  forall sym, In sym (symbols st) -> unique_granularities sym.

(** The state the invariants of the registry describe. *)
Definition well_formed (st : State) : Prop :=
  consistent st /\ unique_config st.

(** ** A missing or corrupt configuration file *)



(** ** Further vocabulary *)

(** The signal with the two directions exchanged. *)
Definition flip_signal (s : Signal) : Signal :=
  match s with
  | BullishCross => BearishCross
  | BearishCross => BullishCross
  | NoSignal => NoSignal
  end.

(** [key] is the key of a timeframe of the symbol list. *)
Definition configured (st : State) (key : string) : Prop :=
  exists sym tf, In sym (symbols st) /\ In tf (timeframes sym) /\
                 key = monitor_key (name sym) (granularity tf).

(** No worker is registered for a timeframe the configuration lacks. *)
Definition registry_within_config (st : State) : Prop :=
  forall key, Dict.mem key (monitors st) = true -> configured st key.

(** The reply to an [/addsymbol] that went through. *)
Definition added_reply (sym_name : string) (fast_ma slow_ma gran : Z) : string :=
  "Added " ++ sym_name ++ " " ++ Text.str gran ++ "s with fast MA="
  ++ Text.str fast_ma ++ " slow MA=" ++ Text.str slow_ma.

(** The symbol list with one more timeframe for [sym_name]: at the end of
    the entry of that name, or in a new entry at the end of the list. *)
Definition add_entry (sym_name : string) (tf : Timeframe) (l : list SymbolConfig)
  : list SymbolConfig :=
  match find_symbol sym_name l with
  | Some _ => update_symbol sym_name (add_timeframe tf) l
  | None => (l ++ [{| name := sym_name; timeframes := [tf] |}])%list
  end.

(** The symbol has no timeframe of that granularity yet. *)
Definition timeframe_free (sym_name : string) (gran : Z) (l : list SymbolConfig) : Prop :=
  match find_symbol sym_name l with
  | Some e => existsb (has_granularity gran) (timeframes e) = false
  | None => True
  end.

(** The line [/status] prints for a worker. *)
Definition status_line (mon : Monitor) : string :=
  m_name mon ++ " " ++ Text.str (m_granularity mon / 60) ++ "m".

(** * Properties *)

(** ** The crossover detector *)

Section Slices.

Variable A : Type.
Implicit Types l : list A.

Lemma slice_tail l (w : Z) :
  (1 <= w)%Z ->
  Py.slice l (Some (- w)%Z) None = skipn (List.length l - Z.to_nat w) l.
Proof.
  intros Hw. unfold Py.slice, Py.clamp_index.
  assert (Hneg : (- w <? 0)%Z = true) by (apply Z.ltb_lt; lia).
  rewrite Hneg.
  replace (Z.to_nat (Z.max (- w + Z.of_nat (List.length l)) 0))
    with (List.length l - Z.to_nat w)%nat by lia.
  apply firstn_all2. rewrite length_skipn. lia.
Qed.

Lemma slice_tail_prev l (w : Z) :
  (1 <= w)%Z ->
  Py.slice l (Some (- w - 1)%Z) (Some (-1)%Z)
  = skipn (List.length (removelast l) - Z.to_nat w) (removelast l).
Proof.
  intros Hw. unfold Py.slice, Py.clamp_index.
  assert (Hneg : (- w - 1 <? 0)%Z = true) by (apply Z.ltb_lt; lia).
  rewrite Hneg. change (-1 <? 0)%Z with true. cbv iota.
  rewrite removelast_firstn_len, length_firstn.
  set (n := List.length l).
  replace (Nat.min (pred n) n) with (pred n) by lia.
  remember (pred n - Z.to_nat w)%nat as a eqn:Ha.
  replace (Z.to_nat (Z.max (- w - 1 + Z.of_nat n) 0)) with a by lia.
  replace (Z.to_nat (Z.max (-1 + Z.of_nat n) 0 - Z.max (- w - 1 + Z.of_nat n) 0))
    with (pred n - a)%nat by lia.
  rewrite firstn_skipn_comm.
  replace (a + (pred n - a))%nat with (pred n) by lia.
  reflexivity.
Qed.

End Slices.

Lemma mean_nonempty (l : list Q) :
  l <> [] -> Py.mean l = Some (Spec.arith_mean l).
Proof.
  destruct l as [|x r]; [congruence | reflexivity].
Qed.

Lemma last_closes_nonempty (w : Z) (l : list Q) :
  (1 <= w)%Z -> l <> [] -> Spec.last_closes w l <> [].
Proof.
  intros Hw Hl Hnil. unfold Spec.last_closes in Hnil.
  apply (f_equal (@List.length Q)) in Hnil.
  rewrite length_skipn in Hnil.
  assert (Hpos : (0 < List.length l)%nat) by (destruct l; [congruence | simpl; lia]).
  change (List.length (@nil Q)) with 0%nat in Hnil. lia.
Qed.

Lemma lt_defined (x y : Q) : Py.lt (Some x) (Some y) = true <-> (x < y)%Q.
Proof.
  unfold Py.lt, Py.Qltb. rewrite negb_true_iff.
  split.
  - intros H. apply Qnot_le_lt. intros Hle.
    apply Qle_bool_iff in Hle. congruence.
  - intros H. destruct (Qle_bool y x) eqn:E; [|reflexivity].
    apply Qle_bool_iff in E. exfalso. exact (Qlt_not_le _ _ H E).
Qed.

(** With positive windows and enough history the four slices are the windows
    the specification names, so the check computes on the four averages. *)
Lemma crossover_unfold (closes : list Q) (fast slow : Z) :
  (1 <= fast)%Z -> (1 <= slow)%Z ->
  (slow + 2 <= Z.of_nat (List.length closes))%Z ->
  crossover closes fast slow =
    if Py.lt (Some (Spec.ma_prev fast closes)) (Some (Spec.ma_prev slow closes))
       && Py.lt (Some (Spec.ma_now slow closes)) (Some (Spec.ma_now fast closes))
    then BullishCross
    else if Py.lt (Some (Spec.ma_prev slow closes)) (Some (Spec.ma_prev fast closes))
            && Py.lt (Some (Spec.ma_now fast closes)) (Some (Spec.ma_now slow closes))
    then BearishCross
    else NoSignal.
Proof.
  intros Hf Hs Hlen. unfold crossover, check_crossover. cbn [cd_closes cd_fast_ma cd_slow_ma].
  assert (Hguard : (Z.of_nat (List.length closes) <? slow + 2)%Z = false)
    by (apply Z.ltb_ge; lia).
  rewrite Hguard.
  assert (Hne : closes <> []) by (destruct closes; [simpl in Hlen; lia | congruence]).
  assert (Hne' : removelast closes <> []).
  { intros E. apply (f_equal (@List.length Q)) in E.
    rewrite removelast_firstn_len, length_firstn in E. simpl in E. lia. }
  rewrite !slice_tail, !slice_tail_prev by assumption.
  fold (Spec.last_closes fast closes) (Spec.last_closes slow closes).
  fold (Spec.last_closes fast (removelast closes))
       (Spec.last_closes slow (removelast closes)).
  rewrite !mean_nonempty by (apply last_closes_nonempty; assumption).
  reflexivity.
Qed.

Lemma lt_defined_false (x y : Q) : Py.lt (Some x) (Some y) = false <-> ~ (x < y)%Q.
Proof.
  rewrite <- lt_defined. destruct (Py.lt (Some x) (Some y)); split; congruence.
Qed.

Lemma check_crossover_signal (data : CrossData) :
  check_crossover data
  = crossover (cd_closes data) (cd_fast_ma data) (cd_slow_ma data).
Proof. reflexivity. Qed.

(** C4. A series shorter than [slow + 2] gives no signal, whatever its
    closes and whatever the fast window. *)
Theorem insufficient_history_no_signal (S : list Q) (f s : Z) :
  (Z.of_nat (List.length S) < s + 2)%Z ->
  crossover S f s = NoSignal.
Proof.
  intros Hlen. unfold crossover, check_crossover.
  cbn [cd_closes cd_fast_ma cd_slow_ma].
  apply Z.ltb_lt in Hlen. rewrite Hlen. reflexivity.
Qed.

Lemma insufficient_history_no_signal_witness :
  (Z.of_nat (List.length [9; 10; 11; 9]%Q) < 3 + 2)%Z /\
  crossover [9; 10; 11; 9]%Q 2 3 = NoSignal.
Proof.
  split; [reflexivity | apply (insufficient_history_no_signal [9; 10; 11; 9]%Q 2 3); reflexivity].
Defined.

(** The same on the record the worker passes, and nothing is emitted. *)
Lemma insufficient_history_silent (data : CrossData) :
  (Z.of_nat (List.length (cd_closes data)) < cd_slow_ma data + 2)%Z ->
  check_crossover data = NoSignal /\ crossover_message data = None.
Proof.
  intros Hlen. apply Z.ltb_lt in Hlen.
  assert (E : check_crossover data = NoSignal)
    by (unfold check_crossover; rewrite Hlen; reflexivity).
  split; [exact E | unfold crossover_message; rewrite E; reflexivity].
Qed.

(** C2 as stated fails: three closes are fewer than [slow + 2 = 4]. *)
Lemma scenario_5_4_6_not_bullish :
  crossover [5; 4; 6]%Q 1 2 <> BullishCross.
Proof. vm_compute. discriminate. Qed.

(** C2, as amended: on [5, 4, 6] with windows 1 and 2 the check gives no
    signal, the series being shorter than [slow + 2]; with any one earlier
    close in front it is bullish, on the averages the scenario lists:
    [fastPrev = 4 < slowPrev = 4.5] and [fastNow = 6 > slowNow = 5]. *)
Theorem scenario_5_4_6 :
  crossover [5; 4; 6]%Q 1 2 = NoSignal /\
  (forall x : Q, crossover [x; 5; 4; 6]%Q 1 2 = BullishCross) /\
  (Spec.ma_prev 1 [5; 4; 6] == 4)%Q /\ (Spec.ma_prev 2 [5; 4; 6] == 9 # 2)%Q /\
  (Spec.ma_now 1 [5; 4; 6] == 6)%Q /\ (Spec.ma_now 2 [5; 4; 6] == 5)%Q.
Proof.
  repeat split.
Qed.

(** ** Dictionaries and the heap *)

Section DictFacts.

Variable V : Type.
Implicit Types (d : Dict.t V) (k : string) (v : V).

Lemma get_set_same d k v : Dict.get k (Dict.set k v d) = Some v.
Proof.
  induction d as [|[k' v'] r IH]; simpl.
  - rewrite String.eqb_refl. reflexivity.
  - destruct (k' =? k) eqn:E; simpl; rewrite E; [reflexivity | exact IH].
Qed.

Lemma get_set_other d k k' v : k' <> k -> Dict.get k' (Dict.set k v d) = Dict.get k' d.
Proof.
  intros Hne. induction d as [|[k0 v0] r IH]; simpl.
  - apply not_eq_sym in Hne. apply String.eqb_neq in Hne. rewrite Hne. reflexivity.
  - destruct (k0 =? k) eqn:E; simpl.
    + apply String.eqb_eq in E. subst k0.
      apply not_eq_sym in Hne. apply String.eqb_neq in Hne. rewrite Hne. reflexivity.
    + rewrite IH. reflexivity.
Qed.

Lemma get_del_same d k : Dict.get k (Dict.del k d) = None.
Proof.
  unfold Dict.del. induction d as [|[k' v'] r IH]; simpl; [reflexivity|].
  destruct (k' =? k) eqn:E; simpl; [exact IH | rewrite E; exact IH].
Qed.

Lemma get_del_other d k k' : k' <> k -> Dict.get k' (Dict.del k d) = Dict.get k' d.
Proof.
  intros Hne. unfold Dict.del. induction d as [|[k0 v0] r IH]; simpl; [reflexivity|].
  destruct (k0 =? k) eqn:E; simpl.
  - apply String.eqb_eq in E. subst k0.
    apply not_eq_sym in Hne. apply String.eqb_neq in Hne. rewrite Hne. exact IH.
  - rewrite IH. reflexivity.
Qed.

Lemma mem_get d k : Dict.mem k d = true <-> exists v, Dict.get k d = Some v.
Proof.
  unfold Dict.mem. destruct (Dict.get k d).
  - split; [eauto | reflexivity].
  - split; [discriminate | intros [v Hv]; discriminate].
Qed.

Lemma mem_false_get d k : Dict.mem k d = false <-> Dict.get k d = None.
Proof.
  unfold Dict.mem. destruct (Dict.get k d); split; congruence.
Qed.

Lemma mem_set d k k' v : Dict.mem k' d = true -> Dict.mem k' (Dict.set k v d) = true.
Proof.
  intros H. destruct (string_dec k' k) as [->|Hne].
  - unfold Dict.mem. rewrite get_set_same. reflexivity.
  - unfold Dict.mem in *. rewrite get_set_other by assumption. exact H.
Qed.

End DictFacts.

Section HeapFacts.

Implicit Types (h : list Monitor) (f : Monitor -> Monitor).

Lemma heap_update_length i f h : List.length (heap_update i f h) = List.length h.
Proof.
  revert i. induction h as [|m r IH]; intros [|j]; simpl; auto.
Qed.

Lemma heap_update_same i f h m :
  nth_error h i = Some m -> nth_error (heap_update i f h) i = Some (f m).
Proof.
  revert i. induction h as [|x r IH]; intros [|j]; simpl; try discriminate.
  - intros [= ->]. reflexivity.
  - apply IH.
Qed.

Lemma heap_update_other i j f h :
  i <> j -> nth_error (heap_update i f h) j = nth_error h j.
Proof.
  revert i j. induction h as [|x r IH]; intros [|i] [|j] Hne; simpl; try reflexivity.
  - congruence.
  - apply IH. congruence.
Qed.

(** What a cell holds after an update, whichever cell it is. *)
Lemma heap_update_lookup i j f h m :
  nth_error (heap_update i f h) j = Some m ->
  (i <> j /\ nth_error h j = Some m) \/
  (i = j /\ exists m0, nth_error h j = Some m0 /\ m = f m0).
Proof.
  intros H. destruct (Nat.eq_dec i j) as [->|Hne].
  - right. split; [reflexivity|].
    destruct (nth_error h j) as [m0|] eqn:E.
    + rewrite (heap_update_same _ _ _ _ E) in H. exists m0. split; congruence.
    + apply nth_error_None in E. rewrite <- (heap_update_length j f h) in E.
      apply nth_error_None in E. congruence.
  - left. rewrite heap_update_other in H by assumption. auto.
Qed.

Lemma heap_update_names i f h :
  (forall m, m_name (f m) = m_name m) ->
  map m_name (heap_update i f h) = map m_name h.
Proof.
  intros Hf. revert i. induction h as [|x r IH]; intros [|j]; simpl;
    rewrite ?Hf, ?IH; reflexivity.
Qed.

End HeapFacts.

(** ** The webhook: from the message to the command *)

Lemma webhook_dispatch (st : State) (data : option Update) (parts : list string) :
  authorized_command st data parts ->
  telegram_webhook data st = (Ack, dispatch parts st).
Proof.
  intros (upd & msg & -> & Hm & Hid & Hslash & Hparts).
  unfold telegram_webhook. rewrite Hm.
  apply String.eqb_eq in Hid. rewrite Hid, Hslash, Hparts. reflexivity.
Qed.

Lemma handle_addsymbol (st : State) (data : option Update)
      (symbol : string) (fast slow gran : Z) :
  addsymbol_command st data symbol fast slow gran ->
  handle st data = addsymbol (Text.upper symbol) fast slow gran st.
Proof.
  intros (c & f & s & g & Hauth & Hc & Hf & Hs & Hg).
  unfold handle. rewrite (webhook_dispatch _ _ _ Hauth). cbn [snd].
  unfold dispatch. cbn [nth]. rewrite Hc. cbn [String.eqb Ascii.eqb Bool.eqb].
  unfold cmd_addsymbol. cbn [List.length Nat.eqb negb nth].
  rewrite Hf, Hs, Hg. reflexivity.
Qed.

Lemma handle_remsymbol (st : State) (data : option Update)
      (symbol : string) (gran : Z) :
  remsymbol_command st data symbol gran ->
  handle st data = remsymbol (Text.upper symbol) gran st.
Proof.
  intros (c & g & Hauth & Hc & Hg).
  unfold handle. rewrite (webhook_dispatch _ _ _ Hauth). cbn [snd].
  unfold dispatch. cbn [nth]. rewrite Hc.
  change ("/remsymbol" =? "/addsymbol") with false.
  change ("/remsymbol" =? "/remsymbol") with true. cbv iota.
  unfold cmd_remsymbol. cbn [List.length Nat.eqb negb nth].
  rewrite Hg. reflexivity.
Qed.

(** What one update can do: nothing, a reply only, an [/addsymbol] or a
    [/remsymbol]. *)
Lemma handle_cases (st : State) (data : option Update) :
  handle st data = st \/
  (exists reply, handle st data = send_telegram reply st) \/
  (exists symbol fast slow gran,
      addsymbol_command st data symbol fast slow gran /\
      handle st data = addsymbol (Text.upper symbol) fast slow gran st) \/
  (exists symbol gran,
      remsymbol_command st data symbol gran /\
      handle st data = remsymbol (Text.upper symbol) gran st).
Proof.
  destruct data as [upd|]; [|left; reflexivity].
  destruct (message upd) as [msg|] eqn:Hm;
    [|left; unfold handle, telegram_webhook; rewrite Hm; reflexivity].
  destruct (py_str (chat_id_msg msg) =? py_str (chat_id st)) eqn:Hid;
    [|left; unfold handle, telegram_webhook; rewrite Hm, Hid; reflexivity].
  destruct (Text.startswith "/" (message_text msg)) eqn:Hslash;
    [|left; unfold handle, telegram_webhook; rewrite Hm, Hid, Hslash; reflexivity].
  assert (Hauth : authorized_command st (Some upd) (Text.split (message_text msg))).
  { exists upd, msg. apply String.eqb_eq in Hid. repeat split; assumption. }
  right.
  assert (Hh : handle st (Some upd) = dispatch (Text.split (message_text msg)) st)
    by (unfold handle; rewrite (webhook_dispatch _ _ _ Hauth); reflexivity).
  set (parts := Text.split (message_text msg)) in *.
  unfold dispatch in Hh.
  destruct (Text.lower (nth 0 parts "") =? "/addsymbol") eqn:Hadd.
  { apply String.eqb_eq in Hadd. unfold cmd_addsymbol in Hh.
    destruct parts as [|c [|symbol [|f [|s [|g [|x r]]]]]];
      try (left; eexists; exact Hh).
    cbn [List.length Nat.eqb negb nth] in Hh, Hadd.
    destruct (Text.int f) as [fast|] eqn:Hf; [|left; eexists; exact Hh].
    destruct (Text.int s) as [slow|] eqn:Hs; [|left; eexists; exact Hh].
    destruct (Text.int g) as [gran|] eqn:Hg; [|left; eexists; exact Hh].
    right; left. exists symbol, fast, slow, gran. split; [|exact Hh].
    exists c, f, s, g. repeat split; assumption. }
  destruct (Text.lower (nth 0 parts "") =? "/remsymbol") eqn:Hrem.
  { apply String.eqb_eq in Hrem. unfold cmd_remsymbol in Hh.
    destruct parts as [|c [|symbol [|g [|x r]]]];
      try (left; eexists; exact Hh).
    cbn [List.length Nat.eqb negb nth] in Hh, Hrem.
    destruct (Text.int g) as [gran|] eqn:Hg; [|left; eexists; exact Hh].
    right; right. exists symbol, gran. split; [|exact Hh].
    exists c, g. repeat split; assumption. }
  left.
  destruct (Text.lower (nth 0 parts "") =? "/listsymbols").
  { unfold cmd_listsymbols in Hh. destruct (symbols st); eexists; exact Hh. }
  destruct (Text.lower (nth 0 parts "") =? "/status").
  { unfold cmd_status in Hh.
    destruct (map _ (registered_workers st)); eexists; exact Hh. }
  eexists; exact Hh.
Qed.

(** ** C7 and C8 *)

(** C7. A message whose chat identifier is not the configured one changes
    nothing: the registry, the workers, the symbol list, the outbox and the
    saved documents are as before, and the answer is the acknowledgment,
    whatever the text. *)
Theorem unauthorized_message_ignored (upd : Update) (msg : Message) (st : State) :
  message upd = Some msg ->
  py_str (chat_id_msg msg) <> py_str (chat_id st) ->
  telegram_webhook (Some upd) st = (Ack, st).
Proof.
  intros Hm Hne. unfold telegram_webhook. rewrite Hm.
  apply String.eqb_neq in Hne. rewrite Hne. reflexivity.
Qed.




(** ** The registry stays consistent *)

Lemma registry_consistent_frame (st st' : State) :
  heap st' = heap st -> monitors st' = monitors st ->
  registry_consistent st -> registry_consistent st'.
Proof.
  intros Hh Hm [Ha Hb]. unfold registry_consistent. rewrite Hh, Hm. auto.
Qed.

Lemma alloc_lookup (h : list Monitor) (m0 : Monitor) (i : nat) :
  nth_error (heap_update (List.length h) Monitor_start (h ++ [m0])) i =
  if (i =? List.length h)%nat then Some (Monitor_start m0) else nth_error h i.
Proof.
  destruct (i =? List.length h)%nat eqn:E.
  - apply Nat.eqb_eq in E. subst i. apply heap_update_same.
    rewrite nth_error_app2, Nat.sub_diag by lia. reflexivity.
  - apply Nat.eqb_neq in E. rewrite heap_update_other by congruence.
    destruct (Nat.lt_ge_cases i (List.length h)) as [Hlt|Hge].
    + apply nth_error_app1. exact Hlt.
    + assert (Hnone : nth_error h i = None) by (apply nth_error_None; lia).
      rewrite Hnone. apply nth_error_None. rewrite length_app. simpl. lia.
Qed.

(** The state after the monitor block, when the key was free. *)
Lemma start_monitor_fresh (n : string) (f s g : Z) (st : State) :
  Dict.mem (monitor_key n g) (monitors st) = false ->
  heap (start_monitor n f s g st)
    = heap_update (List.length (heap st)) Monitor_start (heap st ++ [Monitor_init n f s g]) /\
  monitors (start_monitor n f s g st)
    = Dict.set (monitor_key n g) (List.length (heap st)) (monitors st).
Proof.
  intros Hfree. unfold start_monitor. rewrite Hfree. split; reflexivity.
Qed.

Lemma start_monitor_present (n : string) (f s g : Z) (st : State) :
  Dict.mem (monitor_key n g) (monitors st) = true ->
  start_monitor n f s g st = st.
Proof.
  intros Hin. unfold start_monitor. rewrite Hin. reflexivity.
Qed.

Lemma start_monitor_registers (n : string) (f s g : Z) (st : State) :
  Dict.mem (monitor_key n g) (monitors (start_monitor n f s g st)) = true.
Proof.
  destruct (Dict.mem (monitor_key n g) (monitors st)) eqn:E.
  - rewrite start_monitor_present by assumption. exact E.
  - destruct (start_monitor_fresh n f s g st E) as [_ ->].
    unfold Dict.mem. rewrite get_set_same. reflexivity.
Qed.

Lemma start_monitor_keeps (n : string) (f s g : Z) (st : State) (k : string) :
  Dict.mem k (monitors st) = true ->
  Dict.mem k (monitors (start_monitor n f s g st)) = true.
Proof.
  intros Hk. destruct (Dict.mem (monitor_key n g) (monitors st)) eqn:E.
  - rewrite start_monitor_present by assumption. exact Hk.
  - destruct (start_monitor_fresh n f s g st E) as [_ ->].
    apply mem_set. exact Hk.
Qed.

Lemma start_monitor_other_fields (n : string) (f s g : Z) (st : State) :
  symbols (start_monitor n f s g st) = symbols st /\
  sent (start_monitor n f s g st) = sent st /\
  saved (start_monitor n f s g st) = saved st /\
  chat_id (start_monitor n f s g st) = chat_id st /\
  symbols_in_config (start_monitor n f s g st) = symbols_in_config st.
Proof.
  unfold start_monitor. destruct (negb _); repeat split.
Qed.

Lemma start_monitor_consistent (n : string) (f s g : Z) (st : State) :
  registry_consistent st -> registry_consistent (start_monitor n f s g st).
Proof.
  intros [Ha Hb].
  destruct (Dict.mem (monitor_key n g) (monitors st)) eqn:E.
  { rewrite start_monitor_present by assumption. split; assumption. }
  destruct (start_monitor_fresh n f s g st E) as [Hh Hm].
  apply mem_false_get in E.
  unfold registry_consistent. rewrite Hh, Hm. split.
  - intros k i Hget. rewrite alloc_lookup.
    destruct (string_dec k (monitor_key n g)) as [->|Hne].
    + rewrite get_set_same in Hget. injection Hget as <-.
      rewrite Nat.eqb_refl. eexists. split; [reflexivity|]. repeat split.
    + rewrite get_set_other in Hget by assumption.
      destruct (Ha k i Hget) as (m & Hi & Hk & Hs & Hact).
      assert (Hlt : (i < List.length (heap st))%nat)
        by (apply nth_error_Some; congruence).
      assert (Hni : (i =? List.length (heap st))%nat = false)
        by (apply Nat.eqb_neq; lia).
      rewrite Hni. exists m. auto.
  - intros i m Hi Hact. rewrite alloc_lookup in Hi.
    destruct (i =? List.length (heap st))%nat eqn:Ei.
    + apply Nat.eqb_eq in Ei. injection Hi as <-. subst i.
      change (worker_key (Monitor_start (Monitor_init n f s g))) with (monitor_key n g).
      apply get_set_same.
    + pose proof (Hb i m Hi Hact) as Hreg.
      rewrite get_set_other; [exact Hreg|].
      intros Heq. rewrite Heq in Hreg. congruence.
Qed.

Lemma stop_monitor_other_fields (key : string) (st : State) :
  symbols (stop_monitor key st) = symbols st /\
  sent (stop_monitor key st) = sent st /\
  saved (stop_monitor key st) = saved st /\
  chat_id (stop_monitor key st) = chat_id st /\
  symbols_in_config (stop_monitor key st) = symbols_in_config st.
Proof.
  unfold stop_monitor. destruct (Dict.get key (monitors st)); repeat split.
Qed.

Lemma stop_monitor_unregisters (key : string) (st : State) :
  Dict.get key (monitors (stop_monitor key st)) = None.
Proof.
  unfold stop_monitor. destruct (Dict.get key (monitors st)) eqn:E; simpl.
  - apply get_del_same.
  - exact E.
Qed.

Lemma stop_monitor_keeps_others (key k : string) (st : State) :
  k <> key ->
  Dict.get k (monitors (stop_monitor key st)) = Dict.get k (monitors st).
Proof.
  intros Hne. unfold stop_monitor. destruct (Dict.get key (monitors st)); simpl.
  - apply get_del_other. exact Hne.
  - reflexivity.
Qed.


Lemma stop_monitor_consistent (key : string) (st : State) :
  registry_consistent st -> registry_consistent (stop_monitor key st).
Proof.
  intros [Ha Hb]. unfold stop_monitor.
  destruct (Dict.get key (monitors st)) as [i0|] eqn:E; [|split; assumption].
  destruct (Ha key i0 E) as (m0 & Hi0 & Hk0 & _ & _).
  split; simpl.
  - intros k i Hget.
    destruct (string_dec k key) as [->|Hne]; [rewrite get_del_same in Hget; discriminate|].
    rewrite get_del_other in Hget by assumption.
    destruct (Ha k i Hget) as (m & Hi & Hk & Hs & Hact).
    assert (i0 <> i) by (intros ->; congruence).
    rewrite heap_update_other by assumption. exists m. auto.
  - intros i m Hi Hact.
    apply heap_update_lookup in Hi.
    destruct Hi as [[Hne Hi] | [-> (m1 & Hi & ->)]]; [|discriminate].
    pose proof (Hb i m Hi Hact) as Hreg.
    rewrite get_del_other; [exact Hreg|].
    intros Heq. rewrite Heq in Hreg. congruence.
Qed.

(** Under a consistent registry the live workers of a key are the one the
    registry holds, if it holds one. *)
Lemma filter_at_most_one {A} (p : A -> bool) (l : list A) :
  (forall i j x y, nth_error l i = Some x -> nth_error l j = Some y ->
                   p x = true -> p y = true -> i = j) ->
  (List.length (filter p l) <= 1)%nat.
Proof.
  induction l as [|a r IH]; intros Huniq; simpl; [lia|].
  assert (IHr : (List.length (filter p r) <= 1)%nat).
  { apply IH. intros i j x y Hi Hj Hx Hy.
    assert (S i = S j) by (apply (Huniq (S i) (S j) x y); assumption). lia. }
  destruct (p a) eqn:Ea; [|exact IHr].
  assert (Hnil : filter p r = []).
  { destruct (filter p r) as [|y t] eqn:Ef; [reflexivity|].
    assert (Hin : In y (filter p r)) by (rewrite Ef; left; reflexivity).
    apply filter_In in Hin. destruct Hin as [Hin Hy].
    apply In_nth_error in Hin. destruct Hin as [j Hj].
    assert (O = S j) by (apply (Huniq O (S j) a y); auto). discriminate. }
  rewrite Hnil. simpl. lia.
Qed.

Lemma live_workers_registered (key : string) (st : State) :
  registry_consistent st ->
  Dict.mem key (monitors st) = true ->
  List.length (live_workers key st) = 1%nat.
Proof.
  intros [Ha Hb] Hmem. apply mem_get in Hmem. destruct Hmem as [i Hget].
  destruct (Ha key i Hget) as (m & Hi & Hk & Hs & Hact).
  assert (Hle : (List.length (live_workers key st) <= 1)%nat).
  { apply filter_at_most_one. intros a b x y Hx Hy Px Py.
    unfold is_live in Px, Py.
    apply andb_prop in Px. destruct Px as [Px Kx]. apply andb_prop in Px. destruct Px as [_ Ax].
    apply andb_prop in Py. destruct Py as [Py Ky]. apply andb_prop in Py. destruct Py as [_ Ay].
    apply String.eqb_eq in Kx, Ky.
    pose proof (Hb a x Hx Ax) as Ra. pose proof (Hb b y Hy Ay) as Rb.
    rewrite Kx in Ra. rewrite Ky in Rb. congruence. }
  assert (Hin : In m (live_workers key st)).
  { apply filter_In. split; [eapply nth_error_In; eassumption|].
    unfold is_live. rewrite Hs, Hact, Hk, String.eqb_refl. reflexivity. }
  destruct (live_workers key st); [destruct Hin | simpl in *; lia].
Qed.

Lemma live_workers_unregistered (key : string) (st : State) :
  registry_consistent st ->
  Dict.get key (monitors st) = None ->
  live_workers key st = [].
Proof.
  intros [Ha Hb] Hnone.
  destruct (live_workers key st) as [|m t] eqn:E; [reflexivity|].
  assert (Hin : In m (live_workers key st)) by (rewrite E; left; reflexivity).
  apply filter_In in Hin. destruct Hin as [Hin Hlive].
  unfold is_live in Hlive.
  apply andb_prop in Hlive. destruct Hlive as [Hlive Hk].
  apply andb_prop in Hlive. destruct Hlive as [_ Hact].
  apply String.eqb_eq in Hk.
  apply In_nth_error in Hin. destruct Hin as [i Hi].
  pose proof (Hb i m Hi Hact) as Hreg. rewrite Hk in Hreg. congruence.
Qed.

(** ** The symbol list *)

Lemma find_symbol_name (n : string) (l : list SymbolConfig) (e : SymbolConfig) :
  find_symbol n l = Some e -> In e l /\ name e = n.
Proof.
  intros H. apply find_some in H. destruct H as [Hin Hn].
  apply String.eqb_eq in Hn. auto.
Qed.

Lemma find_symbol_append (n : string) (l : list SymbolConfig) (e : SymbolConfig) :
  find_symbol n l = None -> name e = n ->
  find_symbol n (l ++ [e])%list = Some e.
Proof.
  intros Hnone Hn. unfold find_symbol in *.
  induction l as [|x r IH]; simpl in *.
  - rewrite Hn, String.eqb_refl. reflexivity.
  - destruct (name x =? n); [discriminate | auto].
Qed.

Lemma update_symbol_find (n : string) (f : SymbolConfig -> SymbolConfig)
      (l : list SymbolConfig) (e : SymbolConfig) :
  (forall s, name (f s) = name s) ->
  find_symbol n l = Some e ->
  find_symbol n (update_symbol n f l) = Some (f e).
Proof.
  intros Hf. unfold find_symbol. induction l as [|x r IH]; simpl; [discriminate|].
  destruct (name x =? n) eqn:E; simpl.
  - intros [= ->]. rewrite Hf, E. reflexivity.
  - rewrite E. exact IH.
Qed.

Lemma update_symbol_names (n : string) (f : SymbolConfig -> SymbolConfig)
      (l : list SymbolConfig) :
  (forall s, name (f s) = name s) ->
  map name (update_symbol n f l) = map name l.
Proof.
  intros Hf. induction l as [|x r IH]; simpl; [reflexivity|].
  destruct (name x =? n); simpl; rewrite ?Hf, ?IH; reflexivity.
Qed.

(** An entry of the updated list is an old entry, or the image of the entry
    the update was made through. *)
Lemma update_symbol_In (n : string) (f : SymbolConfig -> SymbolConfig)
      (l : list SymbolConfig) (e' : SymbolConfig) :
  In e' (update_symbol n f l) ->
  In e' l \/ exists e, find_symbol n l = Some e /\ e' = f e.
Proof.
  unfold find_symbol. induction l as [|x r IH]; simpl; [tauto|].
  destruct (name x =? n) eqn:E; simpl.
  - intros [<- | Hin]; [right; eauto | left; auto].
  - intros [<- | Hin]; [left; auto|].
    destruct (IH Hin) as [H | H]; [left; auto | right; exact H].
Qed.

Lemma with_symbol_find (sym_name : string) (l : list SymbolConfig) :
  exists e, find_symbol sym_name (with_symbol sym_name l) = Some e /\
            ((find_symbol sym_name l = Some e /\ with_symbol sym_name l = l) \/
             (find_symbol sym_name l = None /\ timeframes e = [] /\
              with_symbol sym_name l = (l ++ [e])%list)).
Proof.
  unfold with_symbol. destruct (find_symbol sym_name l) as [e|] eqn:E.
  - exists e. split; [exact E | left; auto].
  - eexists. split; [apply find_symbol_append; [exact E | reflexivity]|].
    right. repeat split.
Qed.

Lemma with_symbol_In (sym_name : string) (l : list SymbolConfig) (e : SymbolConfig) :
  In e (with_symbol sym_name l) ->
  In e l \/ (e = {| name := sym_name; timeframes := [] |}).
Proof.
  unfold with_symbol. destruct (find_symbol sym_name l); [auto|].
  intros H. apply in_app_or in H. destruct H as [H | [<- | []]]; auto.
Qed.

(** [addsymbol], by cases on the timeframe being there already. *)
Lemma addsymbol_unfold (sym_name : string) (fast slow gran : Z) (st : State) :
  exists e, find_symbol sym_name (with_symbol sym_name (symbols st)) = Some e /\
  ((existsb (has_granularity gran) (timeframes e) = true /\
    find_symbol sym_name (symbols st) = Some e /\
    addsymbol sym_name fast slow gran st
      = send_telegram (already_has_timeframe sym_name gran) st) \/
   (existsb (has_granularity gran) (timeframes e) = false /\
    exists reply,
    addsymbol sym_name fast slow gran st
      = send_telegram reply
          (start_monitor sym_name fast slow gran
             (save_config
                (set_symbols
                   (update_symbol sym_name
                      (add_timeframe {| fast_ma := fast; slow_ma := slow; granularity := gran |})
                      (with_symbol sym_name (symbols st))) st))))).
Proof.
  destruct (with_symbol_find sym_name (symbols st)) as (e & Hfind & Hcase).
  exists e. split; [exact Hfind|].
  unfold addsymbol.
  assert (Hst1 : symbols
            match find_symbol sym_name (symbols st) with
            | Some _ => st
            | None => set_symbols (symbols st ++ [{| name := sym_name; timeframes := [] |}]) st
            end = with_symbol sym_name (symbols st)).
  { unfold with_symbol. destruct (find_symbol sym_name (symbols st)); reflexivity. }
  rewrite Hst1, Hfind.
  destruct (existsb (has_granularity gran) (timeframes e)) eqn:Ex.
  - left. split; [reflexivity|].
    destruct Hcase as [[Hold Hsame] | (Hnone & Hnil & _)].
    + split; [exact Hold|]. rewrite Hold. reflexivity.
    + rewrite Hnil in Ex. discriminate.
  - right. split; [reflexivity|]. eexists.
    destruct Hcase as [[Hold Hsame] | (Hnone & Hnil & Happ)].
    + rewrite Hold. reflexivity.
    + rewrite Hnone. reflexivity.
Qed.

Lemma existsb_app_last (gran : Z) (tfs : list Timeframe) (tf : Timeframe) :
  granularity tf = gran ->
  existsb (has_granularity gran) (tfs ++ [tf])%list = true.
Proof.
  intros Hg. rewrite existsb_app. simpl. unfold has_granularity at 2.
  rewrite Hg, Z.eqb_refl. apply orb_true_iff. right. reflexivity.
Qed.

(** After [/addsymbol] the symbol has the timeframe, whichever branch ran. *)
Lemma addsymbol_has_timeframe (sym_name : string) (fast slow gran : Z) (st : State) :
  exists e, find_symbol sym_name (symbols (addsymbol sym_name fast slow gran st)) = Some e /\
            existsb (has_granularity gran) (timeframes e) = true.
Proof.
  destruct (addsymbol_unfold sym_name fast slow gran st) as (e & Hfind & Hcase).
  destruct Hcase as [(Hex & Hold & ->) | (Hex & reply & ->)].
  - exists e. split; assumption.
  - eexists. cbn [symbols send_telegram set_sent].
    destruct (start_monitor_other_fields sym_name fast slow gran
                (save_config (set_symbols
                   (update_symbol sym_name
                      (add_timeframe {| fast_ma := fast; slow_ma := slow; granularity := gran |})
                      (with_symbol sym_name (symbols st))) st))) as [-> _].
    cbn [symbols save_config set_saved set_symbols].
    split.
    + apply update_symbol_find; [reflexivity | exact Hfind].
    + apply existsb_app_last. reflexivity.
Qed.

Lemma addsymbol_already (sym_name : string) (fast slow gran : Z) (st : State)
      (e : SymbolConfig) :
  find_symbol sym_name (symbols st) = Some e ->
  existsb (has_granularity gran) (timeframes e) = true ->
  addsymbol sym_name fast slow gran st
    = send_telegram (already_has_timeframe sym_name gran) st.
Proof.
  intros Hfind Hex. unfold addsymbol. rewrite Hfind, Hfind, Hex. reflexivity.
Qed.

Lemma addsymbol_registry_consistent (sym_name : string) (fast slow gran : Z) (st : State) :
  registry_consistent st -> registry_consistent (addsymbol sym_name fast slow gran st).
Proof.
  intros Hc.
  destruct (addsymbol_unfold sym_name fast slow gran st) as (e & Hfind & Hcase).
  destruct Hcase as [(Hex & Hold & ->) | (Hex & reply & ->)].
  - exact Hc.
  - eapply registry_consistent_frame;
      [| | apply start_monitor_consistent; eapply registry_consistent_frame;
           [| | exact Hc]]; reflexivity.
Qed.

Lemma addsymbol_config_monitored (sym_name : string) (fast slow gran : Z) (st : State) :
  config_monitored st -> config_monitored (addsymbol sym_name fast slow gran st).
Proof.
  intros Hc.
  destruct (addsymbol_unfold sym_name fast slow gran st) as (e & Hfind & Hcase).
  destruct Hcase as [(Hex & Hold & ->) | (Hex & reply & ->)]; [exact Hc|].
  set (tf := {| fast_ma := fast; slow_ma := slow; granularity := gran |}).
  set (st2 := save_config _).
  intros sym t Hsym Ht.
  cbn [symbols monitors send_telegram set_sent] in *.
  destruct (start_monitor_other_fields sym_name fast slow gran st2) as [Hsyms _].
  rewrite Hsyms in Hsym. subst st2. cbn [symbols save_config set_saved set_symbols] in Hsym.
  assert (Hold : forall s0 t0, In s0 (with_symbol sym_name (symbols st)) ->
                   In t0 (timeframes s0) ->
                   Dict.mem (monitor_key (name s0) (granularity t0)) (monitors st) = true).
  { intros s0 t0 Hs0 Ht0. apply with_symbol_In in Hs0.
    destruct Hs0 as [Hs0 | ->]; [apply (Hc s0 t0); assumption | destruct Ht0]. }
  apply update_symbol_In in Hsym.
  destruct Hsym as [Hsym | (e0 & He0 & ->)].
  - apply start_monitor_keeps. apply (Hold sym t); assumption.
  - cbn [add_timeframe timeframes name] in *.
    apply find_symbol_name in He0. destruct He0 as [He0 Hn0].
    apply in_app_or in Ht. destruct Ht as [Ht | [<- | []]].
    + apply start_monitor_keeps. apply (Hold e0 t); assumption.
    + rewrite Hn0. apply start_monitor_registers.
Qed.

(** ** Start-up *)

(** The inner loop of [start_all_monitors], over the timeframes of [sym]. *)
Lemma start_timeframes (n : string) (tfs : list Timeframe) (st : State) :
  let st' := fold_left (fun st tf => start_monitor n (fast_ma tf) (slow_ma tf)
                                                   (granularity tf) st) tfs st in
  registry_consistent st ->
  registry_consistent st' /\ symbols st' = symbols st /\
  (forall k, Dict.mem k (monitors st) = true -> Dict.mem k (monitors st') = true) /\
  (forall tf, In tf tfs -> Dict.mem (monitor_key n (granularity tf)) (monitors st') = true).
Proof.
  revert st. induction tfs as [|tf r IH]; intros st st' Hc.
  - split; [exact Hc|]. split; [reflexivity|]. split; [auto|]. intros tf [].
  - subst st'. simpl.
    set (st1 := start_monitor n (fast_ma tf) (slow_ma tf) (granularity tf) st).
    destruct (IH st1 (start_monitor_consistent _ _ _ _ _ Hc)) as (Hc' & Hs' & Hk' & Ht').
    split; [exact Hc'|]. split.
    { rewrite Hs'. apply start_monitor_other_fields. }
    split.
    { intros k Hk. apply Hk'. apply start_monitor_keeps. exact Hk. }
    intros t [<- | Hin]; [|apply Ht'; exact Hin].
    apply Hk'. apply start_monitor_registers.
Qed.

Lemma start_symbols (syms : list SymbolConfig) (st : State) :
  let st' := fold_left
               (fun st sym =>
                  fold_left (fun st tf => start_monitor (name sym) (fast_ma tf) (slow_ma tf)
                                                        (granularity tf) st)
                            (timeframes sym) st) syms st in
  registry_consistent st ->
  registry_consistent st' /\ symbols st' = symbols st /\
  (forall k, Dict.mem k (monitors st) = true -> Dict.mem k (monitors st') = true) /\
  (forall sym tf, In sym syms -> In tf (timeframes sym) ->
                  Dict.mem (monitor_key (name sym) (granularity tf)) (monitors st') = true).
Proof.
  revert st. induction syms as [|sym r IH]; intros st st' Hc.
  - split; [exact Hc|]. split; [reflexivity|]. split; [auto|]. intros sym tf [].
  - subst st'. simpl.
    destruct (start_timeframes (name sym) (timeframes sym) st Hc) as (Hc1 & Hs1 & Hk1 & Ht1).
    set (st1 := fold_left _ (timeframes sym) st) in *.
    destruct (IH st1 Hc1) as (Hc' & Hs' & Hk' & Ht').
    split; [exact Hc'|]. split; [rewrite Hs'; exact Hs1|]. split.
    { intros k Hk. apply Hk'. apply Hk1. exact Hk. }
    intros s t [<- | Hin] Ht; [|apply Ht'; assumption].
    apply Hk'. apply Ht1. exact Ht.
Qed.

Lemma start_all_monitors_consistent (st : State) :
  registry_consistent st ->
  consistent (start_all_monitors st) /\ symbols (start_all_monitors st) = symbols st.
Proof.
  intros Hc. unfold start_all_monitors.
  destruct (start_symbols (symbols st) st Hc) as (Hc' & Hs' & _ & Ht').
  split; [split; [exact Hc'|] | exact Hs'].
  intros sym tf Hsym Htf. rewrite Hs' in Hsym. apply Ht'; assumption.
Qed.

Lemma init_registry_consistent (cfg : ConfigDoc) :
  registry_consistent (init cfg).
Proof.
  split.
  - intros k i H. discriminate.
  - intros [|i] m H; discriminate.
Qed.

(** Whatever document was loaded, the program starts with a registry that
    agrees with the workers and with the configuration. *)
Lemma startup_consistent (cfg : ConfigDoc) : consistent (start_all_monitors (init cfg)).
Proof.
  apply start_all_monitors_consistent. apply init_registry_consistent.
Qed.

Lemma main_consistent (file : ReadOutcome) (st : State) :
  main file = Some st -> consistent st.
Proof.
  unfold main. destruct (load_config file) as [[cfg|]|]; try discriminate.
  intros [= <-]. apply startup_consistent.
Qed.

(** ** C3: adding twice *)

Lemma text_update_command (st : State) (from : pyval) (t : string) (parts : list string) :
  py_str from = py_str (chat_id st) ->
  Text.startswith "/" (Text.strip t) = true ->
  Text.split (Text.strip t) = parts ->
  authorized_command st (text_update from t) parts.
Proof.
  intros Hid Hslash Hparts. unfold text_update.
  eexists. eexists. split; [reflexivity|]. split; [reflexivity|].
  repeat split; assumption.
Qed.

Lemma live_workers_frame (key : string) (st st' : State) :
  heap st' = heap st -> live_workers key st' = live_workers key st.
Proof.
  intros H. unfold live_workers. rewrite H. reflexivity.
Qed.

Lemma existsb_granularity (gran : Z) (tfs : list Timeframe) :
  existsb (has_granularity gran) tfs = true ->
  exists tf, In tf tfs /\ granularity tf = gran.
Proof.
  intros H. apply existsb_exists in H. destruct H as (tf & Hin & Hg).
  apply Z.eqb_eq in Hg. eauto.
Qed.

(** C3. From a consistent state, [/addsymbol] issued twice for the same
    symbol and granularity leaves exactly one live worker for the key; the
    second command replies that the timeframe is already there and changes
    neither the symbol list nor the registry. Running the start block of
    the registry twice for one key is running it once, and one live worker
    results. *)
Theorem addsymbol_twice_one_worker
        (st : State) (d1 d2 : option Update) (symbol : string)
        (fast1 slow1 fast2 slow2 gran : Z) :
  consistent st ->
  addsymbol_command st d1 symbol fast1 slow1 gran ->
  addsymbol_command (handle st d1) d2 symbol fast2 slow2 gran ->
  let sym_name := Text.upper symbol in
  let key := monitor_key sym_name gran in
  let st1 := handle st d1 in
  let st2 := handle st1 d2 in
  List.length (live_workers key st2) = 1%nat /\
  sent st2 = (sent st1 ++ [already_has_timeframe sym_name gran])%list /\
  symbols st2 = symbols st1 /\ monitors st2 = monitors st1 /\
  heap st2 = heap st1 /\ saved st2 = saved st1 /\
  (forall n f s f' s' g,
      let once := start_monitor n f s g st in
      let twice := start_monitor n f' s' g once in
      twice = once /\ List.length (live_workers (monitor_key n g) twice) = 1%nat).
Proof.
  intros [Hreg Hcfg] H1 H2 sym_name key st1 st2.
  assert (E1 : st1 = addsymbol sym_name fast1 slow1 gran st)
    by (apply handle_addsymbol; exact H1).
  assert (E2 : st2 = addsymbol sym_name fast2 slow2 gran st1)
    by (apply handle_addsymbol; exact H2).
  destruct (addsymbol_has_timeframe sym_name fast1 slow1 gran st) as (e & Hfind & Hex).
  rewrite <- E1 in Hfind.
  rewrite (addsymbol_already _ _ _ _ _ _ Hfind Hex) in E2.
  assert (Hreg1 : registry_consistent st1)
    by (rewrite E1; apply addsymbol_registry_consistent; exact Hreg).
  assert (Hcfg1 : config_monitored st1)
    by (rewrite E1; apply addsymbol_config_monitored; exact Hcfg).
  assert (Hkey : Dict.mem key (monitors st1) = true).
  { apply find_symbol_name in Hfind. destruct Hfind as [Hin Hname].
    apply existsb_granularity in Hex. destruct Hex as (tf & Htf & Hg).
    pose proof (Hcfg1 e tf Hin Htf) as Hmem.
    rewrite Hname, Hg in Hmem. exact Hmem. }
  split.
  { rewrite E2. rewrite (live_workers_frame key st1) by reflexivity.
    apply live_workers_registered; assumption. }
  rewrite E2. do 5 (split; [reflexivity|]).
  intros n f s f' s' g once twice.
  assert (Hsame : twice = once)
    by (apply start_monitor_present; apply start_monitor_registers).
  split; [exact Hsame|]. rewrite Hsame.
  apply live_workers_registered.
  - apply start_monitor_consistent. exact Hreg.
  - apply start_monitor_registers.
Qed.

Lemma addsymbol_twice_one_worker_witness :
  let d := text_update (PyInt 7) "/addsymbol EURUSD 5 20 60" in
  let st1 := handle chat7 d in
  let st2 := handle st1 d in
  List.length (live_workers "EURUSD_60" st2) = 1%nat /\
  sent st2 = (sent st1 ++ ["EURUSD already has timeframe 60s"])%list /\
  symbols st2 = symbols st1 /\ monitors st2 = monitors st1.
Proof.
  intros d st1 st2.
  assert (Hcmd : forall st, py_str (chat_id st) = "7" ->
                            addsymbol_command st d "EURUSD" 5 20 60).
  { intros st Hid. exists "/addsymbol", "5", "20", "60".
    split; [apply text_update_command; [rewrite Hid|..]; reflexivity|].
    repeat split. }
  pose proof (addsymbol_twice_one_worker chat7 d d "EURUSD" 5 20 5 20 60
                (startup_consistent _)
                (Hcmd chat7 eq_refl) (Hcmd (handle chat7 d) eq_refl)) as H.
  cbv zeta in H. destruct H as (Hlive & Hsent & Hsym & Hmon & _).
  repeat split; assumption.
Defined.

(** ** C6: removing a timeframe *)

Lemma Timeframe_eqb_refl (tf : Timeframe) : Timeframe_eqb tf tf = true.
Proof.
  unfold Timeframe_eqb. rewrite !Z.eqb_refl. reflexivity.
Qed.

Lemma Timeframe_eqb_granularity (a b : Timeframe) :
  Timeframe_eqb a b = true -> granularity a = granularity b.
Proof.
  unfold Timeframe_eqb. intros H.
  apply andb_prop in H. destruct H as [_ H]. apply Z.eqb_eq. exact H.
Qed.

Lemma list_eqb_refl {A} (eqb : A -> A -> bool) (l : list A) :
  (forall x, eqb x x = true) -> list_eqb eqb l l = true.
Proof.
  intros Hrefl. induction l as [|x r IH]; simpl; [reflexivity|].
  rewrite Hrefl, IH. reflexivity.
Qed.

Lemma SymbolConfig_eqb_refl (s : SymbolConfig) : SymbolConfig_eqb s s = true.
Proof.
  unfold SymbolConfig_eqb. rewrite String.eqb_refl.
  rewrite list_eqb_refl by apply Timeframe_eqb_refl. reflexivity.
Qed.

Lemma SymbolConfig_eqb_name (a b : SymbolConfig) :
  SymbolConfig_eqb a b = true -> name a = name b.
Proof.
  unfold SymbolConfig_eqb. intros H.
  apply andb_prop in H. destruct H as [H _]. apply String.eqb_eq. exact H.
Qed.

(** [symbols.remove(sym)] after the change of [sym] takes out the entry the
    change was made through. *)
Lemma remove_updated_symbol (n : string) (f : SymbolConfig -> SymbolConfig)
      (l : list SymbolConfig) (e : SymbolConfig) :
  find_symbol n l = Some e -> name (f e) = n ->
  list_remove SymbolConfig_eqb (f e) (update_symbol n f l) = drop_symbol n l.
Proof.
  intros Hfind Hname. unfold find_symbol in Hfind.
  induction l as [|x r IH]; simpl in *; [discriminate|].
  destruct (name x =? n) eqn:E; simpl.
  - injection Hfind as ->. rewrite SymbolConfig_eqb_refl. reflexivity.
  - destruct (SymbolConfig_eqb x (f e)) eqn:Ex.
    + apply SymbolConfig_eqb_name in Ex. rewrite Hname in Ex.
      apply String.eqb_neq in E. contradiction.
    + rewrite IH by assumption. reflexivity.
Qed.


Lemma find_granularity_none (gran : Z) (tfs : list Timeframe) :
  ~ In gran (map granularity tfs) -> find (has_granularity gran) tfs = None.
Proof.
  induction tfs as [|x r IH]; simpl; [reflexivity|].
  intros Hnot. unfold has_granularity at 1.
  destruct (granularity x =? gran)%Z eqn:E.
  - apply Z.eqb_eq in E. tauto.
  - apply IH. tauto.
Qed.

(** With distinct granularities, no timeframe of the granularity is left. *)
Lemma list_remove_granularity (gran : Z) (tf : Timeframe) (tfs : list Timeframe) :
  find (has_granularity gran) tfs = Some tf ->
  NoDup (map granularity tfs) ->
  find (has_granularity gran) (list_remove Timeframe_eqb tf tfs) = None.
Proof.
  induction tfs as [|x r IH]; simpl; [discriminate|].
  intros Hfind Hnd. inversion Hnd as [|g0 l0 Hnotin Hnd']; subst.
  unfold has_granularity at 1 in Hfind.
  destruct (granularity x =? gran)%Z eqn:E.
  - injection Hfind as ->. rewrite Timeframe_eqb_refl.
    apply Z.eqb_eq in E. rewrite E in Hnotin.
    apply find_granularity_none. exact Hnotin.
  - destruct (Timeframe_eqb x tf) eqn:Ex.
    + apply Timeframe_eqb_granularity in Ex.
      apply find_some in Hfind. destruct Hfind as [_ Hg].
      unfold has_granularity in Hg. apply Z.eqb_eq in Hg.
      apply Z.eqb_neq in E. congruence.
    + simpl. unfold has_granularity at 1. rewrite E. apply IH; assumption.
Qed.

Lemma drop_symbol_unique (n : string) (l : list SymbolConfig) :
  unique_names l -> find_symbol n (drop_symbol n l) = None.
Proof.
  unfold unique_names, find_symbol.
  induction l as [|x r IH]; simpl; [reflexivity|].
  intros Hnd. inversion Hnd as [|n0 l0 Hnotin Hnd']; subst.
  destruct (name x =? n) eqn:E.
  - apply String.eqb_eq in E. rewrite E in Hnotin.
    destruct (find (fun s => name s =? n) r) as [e|] eqn:Ef; [|reflexivity].
    apply find_some in Ef. destruct Ef as [Hin He].
    apply String.eqb_eq in He. exfalso. apply Hnotin.
    rewrite <- He. apply in_map. exact Hin.
  - simpl. rewrite E. apply IH. exact Hnd'.
Qed.

(** [remsymbol] when the timeframe is there: the four steps it runs. *)
Lemma remsymbol_found (sym_name : string) (gran : Z) (st : State)
      (sym : SymbolConfig) (tf : Timeframe) :
  find_symbol sym_name (symbols st) = Some sym ->
  find (has_granularity gran) (timeframes sym) = Some tf ->
  let rest := list_remove Timeframe_eqb tf (timeframes sym) in
  let st2 := stop_monitor (monitor_key sym_name gran)
               (set_symbols (update_symbol sym_name (remove_timeframe tf) (symbols st)) st) in
  let st3 := set_symbols
               (match rest with
                | [] => drop_symbol sym_name (symbols st)
                | _ => update_symbol sym_name (remove_timeframe tf) (symbols st)
                end) st2 in
  remsymbol sym_name gran st
    = send_telegram (removed_monitor sym_name gran) (save_config st3).
Proof.
  intros Hsym Htf rest st2 st3. unfold remsymbol. rewrite Hsym, Htf.
  cbv zeta. fold st2. f_equal. f_equal.
  assert (Hs2 : symbols st2 = update_symbol sym_name (remove_timeframe tf) (symbols st)).
  { subst st2. destruct (stop_monitor_other_fields (monitor_key sym_name gran)
      (set_symbols (update_symbol sym_name (remove_timeframe tf) (symbols st)) st)) as [-> _].
    reflexivity. }
  subst st3. cbn [remove_timeframe timeframes]. fold rest.
  destruct rest as [|t0 r0] eqn:Erest; cbn [List.length Nat.eqb].
  - f_equal. rewrite Hs2.
    replace {| name := name sym; timeframes := [] |} with (remove_timeframe tf sym)
      by (unfold remove_timeframe; subst rest; rewrite Erest; reflexivity).
    apply remove_updated_symbol; [exact Hsym|].
    apply find_symbol_name in Hsym. apply Hsym.
  - rewrite <- Hs2. destruct st2; reflexivity.
Qed.

Lemma remsymbol_no_symbol (sym_name : string) (gran : Z) (st : State) :
  find_symbol sym_name (symbols st) = None ->
  remsymbol sym_name gran st = send_telegram (no_symbol_found sym_name) st.
Proof.
  intros H. unfold remsymbol. rewrite H. reflexivity.
Qed.

Lemma remsymbol_no_timeframe (sym_name : string) (gran : Z) (st : State) (sym : SymbolConfig) :
  find_symbol sym_name (symbols st) = Some sym ->
  find (has_granularity gran) (timeframes sym) = None ->
  remsymbol sym_name gran st = send_telegram (no_timeframe_found sym_name gran) st.
Proof.
  intros H1 H2. unfold remsymbol. rewrite H1, H2. reflexivity.
Qed.

Lemma remsymbol_registry_consistent (sym_name : string) (gran : Z) (st : State) :
  registry_consistent st -> registry_consistent (remsymbol sym_name gran st).
Proof.
  intros Hc.
  destruct (find_symbol sym_name (symbols st)) as [sym|] eqn:Hsym;
    [|rewrite remsymbol_no_symbol by assumption; exact Hc].
  destruct (find (has_granularity gran) (timeframes sym)) as [tf|] eqn:Htf;
    [|rewrite (remsymbol_no_timeframe _ _ _ _ Hsym Htf); exact Hc].
  rewrite (remsymbol_found _ _ _ _ _ Hsym Htf).
  eapply registry_consistent_frame;
    [| | apply (stop_monitor_consistent (monitor_key sym_name gran));
         eapply registry_consistent_frame; [| | exact Hc]]; reflexivity.
Qed.


(** ** What a command leaves in the symbol list and in the heap *)

Lemma list_remove_In (tf x : Timeframe) (tfs : list Timeframe) :
  In x (list_remove Timeframe_eqb tf tfs) -> In x tfs.
Proof.
  induction tfs as [|y r IH]; simpl; [tauto|].
  destruct (Timeframe_eqb y tf); simpl; [auto|].
  intros [-> | H]; auto.
Qed.

Lemma drop_symbol_In (n : string) (e : SymbolConfig) (l : list SymbolConfig) :
  In e (drop_symbol n l) -> In e l.
Proof.
  induction l as [|y r IH]; simpl; [tauto|].
  destruct (name y =? n); simpl; [auto|].
  intros [-> | H]; auto.
Qed.

(** A timeframe in the list after [addsymbol] was there under the same
    symbol name, or is the one the command carries. *)
Lemma addsymbol_entries (n : string) (f s g : Z) (st : State)
      (sym' : SymbolConfig) (tf : Timeframe) :
  In sym' (symbols (addsymbol n f s g st)) -> In tf (timeframes sym') ->
  (exists sym, In sym (symbols st) /\ name sym = name sym' /\ In tf (timeframes sym)) \/
  (name sym' = n /\ tf = {| fast_ma := f; slow_ma := s; granularity := g |}).
Proof.
  destruct (addsymbol_unfold n f s g st) as (e & Hfind & Hcase).
  destruct Hcase as [(Hex & Hold & ->) | (Hex & reply & ->)].
  - intros Hin Htf. left. exists sym'. auto.
  - cbn [symbols send_telegram set_sent].
    match goal with |- context [start_monitor n f s g ?x] =>
      destruct (start_monitor_other_fields n f s g x) as [-> _] end.
    cbn [symbols save_config set_saved set_symbols].
    intros Hin Htf. apply update_symbol_In in Hin.
    destruct Hin as [Hin | (e0 & He0 & ->)].
    + apply with_symbol_In in Hin. destruct Hin as [Hin | ->]; [|destruct Htf].
      left. exists sym'. auto.
    + cbn [add_timeframe timeframes name] in *.
      apply find_symbol_name in He0. destruct He0 as [He0 Hn0].
      apply in_app_or in Htf. destruct Htf as [Htf | [<- | []]]; [|right; auto].
      apply with_symbol_In in He0. destruct He0 as [He0 | ->]; [|destruct Htf].
      left. exists e0. auto.
Qed.


Lemma start_monitor_heap (n : string) (f s g : Z) (st : State) (m : Monitor) :
  In m (heap (start_monitor n f s g st)) ->
  In m (heap st) \/ m = Monitor_start (Monitor_init n f s g).
Proof.
  destruct (Dict.mem (monitor_key n g) (monitors st)) eqn:E.
  - rewrite start_monitor_present by assumption. auto.
  - destruct (start_monitor_fresh n f s g st E) as [-> _].
    intros Hin. apply In_nth_error in Hin. destruct Hin as [i Hi].
    rewrite alloc_lookup in Hi.
    destruct (i =? List.length (heap st))%nat; [right; congruence|].
    left. eapply nth_error_In. exact Hi.
Qed.

Lemma addsymbol_heap (n : string) (f s g : Z) (st : State) (m : Monitor) :
  In m (heap (addsymbol n f s g st)) ->
  In m (heap st) \/ m = Monitor_start (Monitor_init n f s g).
Proof.
  destruct (addsymbol_unfold n f s g st) as (e & Hfind & Hcase).
  destruct Hcase as [(Hex & Hold & ->) | (Hex & reply & ->)]; [auto|].
  cbn [heap send_telegram set_sent]. intros Hin.
  apply start_monitor_heap in Hin. exact Hin.
Qed.

Lemma stop_monitor_heap (key : string) (st : State) (m : Monitor) :
  In m (heap (stop_monitor key st)) ->
  exists m0, In m0 (heap st) /\ (m = m0 \/ m = Monitor_stop m0).
Proof.
  unfold stop_monitor. destruct (Dict.get key (monitors st)) as [i0|]; simpl.
  - intros Hin. apply In_nth_error in Hin. destruct Hin as [i Hi].
    apply heap_update_lookup in Hi.
    destruct Hi as [[_ Hi] | [_ (m0 & Hi & ->)]].
    + exists m. split; [eapply nth_error_In; exact Hi | auto].
    + exists m0. split; [eapply nth_error_In; exact Hi | auto].
  - intros Hin. exists m. auto.
Qed.

(** The three outcomes of [remsymbol], for the properties that do not care
    which timeframe went. *)
Lemma remsymbol_entries (n : string) (g : Z) (st : State)
      (sym' : SymbolConfig) (tf : Timeframe) :
  In sym' (symbols (remsymbol n g st)) -> In tf (timeframes sym') ->
  exists sym, In sym (symbols st) /\ name sym = name sym' /\ In tf (timeframes sym).
Proof.
  destruct (find_symbol n (symbols st)) as [sym|] eqn:Hsym;
    [|rewrite remsymbol_no_symbol by assumption; intros; exists sym'; auto].
  destruct (find (has_granularity g) (timeframes sym)) as [t|] eqn:Ht;
    [|rewrite (remsymbol_no_timeframe _ _ _ _ Hsym Ht); intros; exists sym'; auto].
  rewrite (remsymbol_found _ _ _ _ _ Hsym Ht).
  cbn [symbols send_telegram set_sent save_config set_saved set_symbols].
  intros Hin Htf.
  assert (Hupd : In sym' (update_symbol n (remove_timeframe t) (symbols st)) ->
                 exists sym0, In sym0 (symbols st) /\ name sym0 = name sym' /\
                              In tf (timeframes sym0)).
  { intros H. apply update_symbol_In in H.
    destruct H as [H | (e0 & He0 & ->)]; [exists sym'; auto|].
    apply find_symbol_name in He0. destruct He0 as [He0 _].
    exists e0. split; [exact He0|]. split; [reflexivity|].
    eapply list_remove_In. exact Htf. }
  destruct (list_remove Timeframe_eqb t (timeframes sym)).
  - apply drop_symbol_In in Hin. exists sym'. auto.
  - apply Hupd. exact Hin.
Qed.

Lemma remsymbol_heap (n : string) (g : Z) (st : State) (m : Monitor) :
  In m (heap (remsymbol n g st)) ->
  exists m0, In m0 (heap st) /\ (m = m0 \/ m = Monitor_stop m0).
Proof.
  destruct (find_symbol n (symbols st)) as [sym|] eqn:Hsym;
    [|rewrite remsymbol_no_symbol by assumption; intros; exists m; auto].
  destruct (find (has_granularity g) (timeframes sym)) as [t|] eqn:Ht;
    [|rewrite (remsymbol_no_timeframe _ _ _ _ Hsym Ht); intros; exists m; auto].
  rewrite (remsymbol_found _ _ _ _ _ Hsym Ht).
  cbn [heap send_telegram set_sent save_config set_saved set_symbols].
  intros Hin. apply stop_monitor_heap in Hin. exact Hin.
Qed.

(** ** The chat identifier never changes *)

Lemma addsymbol_chat_id (n : string) (f s g : Z) (st : State) :
  chat_id (addsymbol n f s g st) = chat_id st.
Proof.
  destruct (addsymbol_unfold n f s g st) as (e & Hfind & Hcase).
  destruct Hcase as [(Hex & Hold & ->) | (Hex & reply & ->)]; [reflexivity|].
  cbn [chat_id send_telegram set_sent].
  match goal with |- context [start_monitor n f s g ?x] =>
    destruct (start_monitor_other_fields n f s g x) as (_ & _ & _ & -> & _) end.
  reflexivity.
Qed.

Lemma remsymbol_chat_id (n : string) (g : Z) (st : State) :
  chat_id (remsymbol n g st) = chat_id st.
Proof.
  destruct (find_symbol n (symbols st)) as [sym|] eqn:Hsym;
    [|rewrite remsymbol_no_symbol by assumption; reflexivity].
  destruct (find (has_granularity g) (timeframes sym)) as [t|] eqn:Ht;
    [|rewrite (remsymbol_no_timeframe _ _ _ _ Hsym Ht); reflexivity].
  rewrite (remsymbol_found _ _ _ _ _ Hsym Ht).
  cbn [chat_id send_telegram set_sent save_config set_saved set_symbols].
  match goal with |- context [stop_monitor ?k ?x] =>
    destruct (stop_monitor_other_fields k x) as (_ & _ & _ & -> & _) end.
  reflexivity.
Qed.

Lemma handle_chat_id (st : State) (data : option Update) :
  chat_id (handle st data) = chat_id st.
Proof.
  destruct (handle_cases st data)
    as [-> | [[reply ->] | [(sy & f & s & g & _ & ->) | (sy & g & _ & ->)]]].
  - reflexivity.
  - reflexivity.
  - apply addsymbol_chat_id.
  - apply remsymbol_chat_id.
Qed.

Lemma addsymbol_command_chat (st st' : State) (data : option Update)
      (symbol : string) (fast slow gran : Z) :
  chat_id st' = chat_id st ->
  addsymbol_command st data symbol fast slow gran ->
  addsymbol_command st' data symbol fast slow gran.
Proof.
  intros Hid (c & f & s & g & (upd & msg & H1 & H2 & H3 & H4 & H5) & Hrest).
  exists c, f, s, g. split; [|exact Hrest].
  exists upd, msg. rewrite Hid. auto.
Qed.

(** ** C9: the windows *)

Lemma handle_positive_windows (st : State) (data : option Update) :
  positive_windows st -> positive_command st data ->
  positive_windows (handle st data).
Proof.
  intros [Hcfg Hheap] Hcmd.
  destruct (handle_cases st data)
    as [-> | [[reply ->] | [(sy & f & s & g & Hadd & ->) | (sy & g & _ & ->)]]].
  - split; assumption.
  - split; assumption.
  - destruct (Hcmd sy f s g Hadd) as [Hf Hs]. split.
    + intros sym tf Hsym Htf.
      destruct (addsymbol_entries _ _ _ _ _ _ _ Hsym Htf)
        as [(sym0 & Hin0 & _ & Htf0) | [_ ->]].
      * apply (Hcfg sym0 tf); assumption.
      * split; assumption.
    + intros m Hin Hact. apply addsymbol_heap in Hin.
      destruct Hin as [Hin | ->]; [apply Hheap; assumption | split; assumption].
  - split.
    + intros sym tf Hsym Htf.
      destruct (remsymbol_entries _ _ _ _ _ Hsym Htf) as (sym0 & Hin0 & _ & Htf0).
      apply (Hcfg sym0 tf); assumption.
    + intros m Hin Hact. apply remsymbol_heap in Hin.
      destruct Hin as (m0 & Hin0 & [-> | ->]); [apply Hheap; assumption | discriminate].
Qed.

(** C9, as amended: the handler takes any three integers, so positive
    windows are kept only as far as the commands carry them. If every
    configured timeframe and every active worker has [fast_ma >= 1] and
    [slow_ma >= 1], and every [/addsymbol] accepted in the sequence gives
    FAST and SLOW of at least one, the same holds after the sequence. *)
Theorem positive_windows_kept (updates : list (option Update)) (st : State) :
  positive_windows st ->
  Forall (positive_command st) updates ->
  positive_windows (run updates st).
Proof.
  revert st. induction updates as [|d r IH]; intros st Hpos Hall; [exact Hpos|].
  inversion Hall as [|d0 r0 Hd Hr]; subst.
  change (run (d :: r) st) with (run r (handle st d)).
  apply IH.
  - apply handle_positive_windows; assumption.
  - eapply Forall_impl; [|exact Hr].
    intros d' Hd' sy f s g Hadd. apply (Hd' sy f s g).
    eapply addsymbol_command_chat; [|exact Hadd].
    symmetry. apply handle_chat_id.
Qed.

Lemma empty_positive_windows : positive_windows chat7.
Proof.
  split; [intros sym tf [] | intros m []].
Qed.

Lemma text_addsymbol_command (st : State) (from : pyval) (t c symbol f s g : string)
      (fast slow gran : Z) :
  py_str from = py_str (chat_id st) ->
  Text.startswith "/" (Text.strip t) = true ->
  Text.split (Text.strip t) = [c; symbol; f; s; g] ->
  Text.lower c = "/addsymbol" ->
  Text.int f = Some fast -> Text.int s = Some slow -> Text.int g = Some gran ->
  addsymbol_command st (text_update from t) symbol fast slow gran.
Proof.
  intros Hid Hslash Hparts Hc Hf Hs Hg. exists c, f, s, g.
  split; [apply text_update_command; assumption|]. auto.
Qed.

Lemma addsymbol_command_args (st : State) (from : pyval) (t : string)
      (symbol symbol' : string) (fast slow gran fast' slow' gran' : Z) :
  addsymbol_command st (text_update from t) symbol fast slow gran ->
  addsymbol_command st (text_update from t) symbol' fast' slow' gran' ->
  symbol' = symbol /\ fast' = fast /\ slow' = slow /\ gran' = gran.
Proof.
  intros (c & f & s & g & (upd & msg & H1 & H2 & _ & _ & H5) & _ & Hf & Hs & Hg)
         (c' & f' & s' & g' & (upd' & msg' & H1' & H2' & _ & _ & H5') & _ & Hf' & Hs' & Hg').
  rewrite H1' in H1. injection H1 as ->. rewrite H2' in H2. injection H2 as ->.
  rewrite H5' in H5. injection H5 as -> -> -> -> ->.
  rewrite Hf' in Hf. rewrite Hs' in Hs. rewrite Hg' in Hg.
  injection Hf as ->. injection Hs as ->. injection Hg as ->. auto.
Qed.

Lemma positive_windows_kept_witness :
  positive_windows
    (run [text_update (PyInt 7) "/addsymbol eurusd 5 20 60";
          text_update (PyInt 7) "/remsymbol EURUSD 60";
          text_update (PyInt 7) "/addsymbol gbpusd 1 1 300"] chat7).
Proof.
  apply positive_windows_kept; [exact empty_positive_windows|].
  assert (H1 : addsymbol_command chat7 (text_update (PyInt 7) "/addsymbol eurusd 5 20 60")
                 "eurusd" 5 20 60)
    by (eapply text_addsymbol_command; reflexivity).
  assert (H3 : addsymbol_command chat7 (text_update (PyInt 7) "/addsymbol gbpusd 1 1 300")
                 "gbpusd" 1 1 300)
    by (eapply text_addsymbol_command; reflexivity).
  apply Forall_cons; [|apply Forall_cons; [|apply Forall_cons; [|apply Forall_nil]]].
  - intros sy f s g H. destruct (addsymbol_command_args _ _ _ _ _ _ _ _ _ _ _ H1 H) as (_ & -> & -> & _).
    lia.
  - intros sy f s g (c & f0 & s0 & g0 & (upd & msg & Hu & Hm & _ & _ & Hp) & _).
    injection Hu as <-. injection Hm as <-. discriminate Hp.
  - intros sy f s g H. destruct (addsymbol_command_args _ _ _ _ _ _ _ _ _ _ _ H3 H) as (_ & -> & -> & _).
    lia.
Defined.

(** C9 as stated fails: [/addsymbol EURUSD 0 -3 60] is accepted, and the
    timeframe it stores and the worker it starts have [fast_ma = 0] and
    [slow_ma = -3]. *)
Lemma nonpositive_windows_accepted :
  let st := run [text_update (PyInt 7) "/addsymbol EURUSD 0 -3 60"] chat7 in
  positive_windows chat7 /\
  symbols st = [{| name := "EURUSD";
                   timeframes := [{| fast_ma := 0; slow_ma := -3; granularity := 60 |}] |}] /\
  registered_workers st
    = [{| m_name := "EURUSD"; m_fast_ma := 0; m_slow_ma := -3; m_granularity := 60;
          m_closes := []; m_started := true; m_active := true |}] /\
  sent st = ["Added EURUSD 60s with fast MA=0 slow MA=-3"] /\
  ~ positive_windows st.
Proof.
  intros st. split; [exact empty_positive_windows|].
  split; [reflexivity|]. split; [reflexivity|]. split; [reflexivity|].
  intros [Hcfg _].
  assert (Hbad : (1 <= 0)%Z /\ (1 <= -3)%Z).
  { apply (Hcfg {| name := "EURUSD";
                   timeframes := [{| fast_ma := 0; slow_ma := -3; granularity := 60 |}] |}
                {| fast_ma := 0; slow_ma := -3; granularity := 60 |});
      left; reflexivity. }
  lia.
Qed.

(** ** C10: the symbol argument is upper-cased *)










Lemma addsymbol_keys (n : string) (f s g : Z) (st : State) (k : string) :
  Dict.mem k (monitors (addsymbol n f s g st)) = true ->
  Dict.mem k (monitors st) = true \/ k = monitor_key n g.
Proof.
  destruct (addsymbol_unfold n f s g st) as (e & Hfind & Hcase).
  destruct Hcase as [(Hex & Hold & ->) | (Hex & reply & ->)]; [auto|].
  cbn [monitors send_telegram set_sent].
  match goal with |- context [start_monitor n f s g ?x] => set (st2 := x) end.
  destruct (Dict.mem (monitor_key n g) (monitors st2)) eqn:E.
  - rewrite start_monitor_present by assumption. auto.
  - destruct (start_monitor_fresh n f s g st2 E) as [_ ->].
    destruct (string_dec k (monitor_key n g)) as [->|Hne]; [auto|].
    unfold Dict.mem. rewrite get_set_other by assumption. auto.
Qed.

Lemma remsymbol_keys (n : string) (g : Z) (st : State) (k : string) :
  Dict.mem k (monitors (remsymbol n g st)) = true -> Dict.mem k (monitors st) = true.
Proof.
  destruct (find_symbol n (symbols st)) as [sym|] eqn:Hsym;
    [|rewrite remsymbol_no_symbol by assumption; auto].
  destruct (find (has_granularity g) (timeframes sym)) as [t|] eqn:Ht;
    [|rewrite (remsymbol_no_timeframe _ _ _ _ Hsym Ht); auto].
  rewrite (remsymbol_found _ _ _ _ _ Hsym Ht).
  cbn [monitors send_telegram set_sent save_config set_saved set_symbols].
  match goal with |- context [stop_monitor ?key ?x] => set (st1 := x); set (ky := key) end.
  destruct (string_dec k ky) as [->|Hne].
  - unfold Dict.mem. rewrite stop_monitor_unregisters. discriminate.
  - unfold Dict.mem. rewrite (stop_monitor_keeps_others ky k st1 Hne). auto.
Qed.






(** ** The theorems at work on a session *)

Lemma unauthorized_message_ignored_witness :
  let upd := {| message := Some {| chat := Some {| id := Some (PyInt 8) |};
                                   text := Some "/addsymbol EURUSD 5 20 60" |} |} in
  py_str (PyInt 8) <> py_str (chat_id chat7) /\
  telegram_webhook (Some upd) chat7 = (Ack, chat7).
Proof.
  intros upd. split; [discriminate|].
  apply (unauthorized_message_ignored upd
           {| chat := Some {| id := Some (PyInt 8) |};
              text := Some "/addsymbol EURUSD 5 20 60" |} chat7);
    [reflexivity | discriminate].
Defined.


(** ** Keys name one symbol and one granularity *)

Lemma in_append_char (c : ascii) (a b : string) :
  In c (list_ascii_of_string (a ++ String c b)).
Proof.
  induction a as [|x r IH]; simpl; auto.
Qed.

Lemma uint_digits_no_underscore (d : Decimal.uint) :
  ~ In "_"%char (list_ascii_of_string (NilEmpty.string_of_uint d)).
Proof.
  induction d; simpl; [tauto | intros [H | H]; [discriminate | auto] ..].
Qed.

Lemma str_no_underscore (z : Z) : ~ In "_"%char (list_ascii_of_string (Text.str z)).
Proof.
  unfold Text.str, NilZero.string_of_int.
  assert (Hu : forall d, ~ In "_"%char (list_ascii_of_string (NilZero.string_of_uint d))).
  { intros d. unfold NilZero.string_of_uint.
    destruct d; try apply uint_digits_no_underscore.
    apply (uint_digits_no_underscore (Decimal.D0 Decimal.Nil)). }
  destruct (Z.to_int z) as [d | d].
  - apply Hu.
  - simpl. intros [H | H]; [discriminate | exact (Hu d H)].
Qed.

Lemma str_injective (z1 z2 : Z) : Text.str z1 = Text.str z2 -> z1 = z2.
Proof.
  unfold Text.str. intros H.
  assert (Hnn : forall z, Z.to_int z <> Decimal.Pos Decimal.Nil /\
                          Z.to_int z <> Decimal.Neg Decimal.Nil).
  { intros [|p|p]; simpl; split; intros [= Hp]; try discriminate;
      exact (DecimalPos.Unsigned.to_uint_nonnil p Hp). }
  apply (f_equal NilZero.int_of_string) in H.
  rewrite !NilZero.isi in H by apply Hnn.
  injection H as H. apply DecimalZ.to_int_inj. exact H.
Qed.

Lemma split_at_last_underscore (n1 n2 s1 s2 : string) :
  ~ In "_"%char (list_ascii_of_string s1) ->
  ~ In "_"%char (list_ascii_of_string s2) ->
  n1 ++ "_" ++ s1 = n2 ++ "_" ++ s2 -> n1 = n2 /\ s1 = s2.
Proof.
  intros H1 H2. revert n2.
  induction n1 as [|c r IH]; intros [|c' r']; simpl; intros E.
  - injection E as ->. auto.
  - injection E as <- ->. exfalso. apply H1. apply in_append_char.
  - injection E as -> <-. exfalso. apply H2. apply in_append_char.
  - injection E as -> E. destruct (IH r' E) as [-> ->]. auto.
Qed.

Lemma monitor_key_injective (n1 n2 : string) (g1 g2 : Z) :
  monitor_key n1 g1 = monitor_key n2 g2 -> n1 = n2 /\ g1 = g2.
Proof.
  unfold monitor_key. intros E.
  apply split_at_last_underscore in E; try apply str_no_underscore.
  destruct E as [-> E]. split; [reflexivity | apply str_injective; exact E].
Qed.

(** ** The configuration stays well formed *)

Lemma find_symbol_none (n : string) (l : list SymbolConfig) :
  find_symbol n l = None <-> ~ In n (map name l).
Proof.
  unfold find_symbol. induction l as [|x r IH]; simpl; [tauto|].
  destruct (name x =? n) eqn:E.
  - apply String.eqb_eq in E. split; [discriminate | tauto].
  - apply String.eqb_neq in E. rewrite IH. tauto.
Qed.

Lemma existsb_granularity_false (g : Z) (tfs : list Timeframe) :
  existsb (has_granularity g) tfs = false -> ~ In g (map granularity tfs).
Proof.
  induction tfs as [|x r IH]; simpl; [tauto|].
  unfold has_granularity at 1. intros H. apply orb_false_iff in H.
  destruct H as [Hx Hr]. apply Z.eqb_neq in Hx. intros [Hg | Hg]; [auto | exact (IH Hr Hg)].
Qed.

Lemma NoDup_snoc {A} (l : list A) (a : A) : NoDup l -> ~ In a l -> NoDup (l ++ [a]).
Proof.
  intros Hl Ha. apply NoDup_app; [exact Hl | repeat constructor; auto |].
  intros b Hb [<- | []]. auto.
Qed.

Lemma addsymbol_unique (n : string) (f s g : Z) (st : State) :
  unique_config st -> unique_config (addsymbol n f s g st).
Proof.
  intros [Hnames Hgran].
  destruct (addsymbol_unfold n f s g st) as (e & Hfind & Hcase).
  destruct Hcase as [(Hex & Hold & ->) | (Hex & reply & ->)]; [split; assumption|].
  unfold unique_config. cbn [symbols send_telegram set_sent].
  match goal with |- context [start_monitor n f s g ?x] =>
    destruct (start_monitor_other_fields n f s g x) as [-> _] end.
  cbn [symbols save_config set_saved set_symbols].
  assert (Hw : forall e0, In e0 (with_symbol n (symbols st)) -> unique_granularities e0).
  { intros e0 H0. apply with_symbol_In in H0.
    destruct H0 as [H0 | ->]; [auto | constructor]. }
  split.
  - unfold unique_names. rewrite update_symbol_names by reflexivity.
    unfold with_symbol. destruct (find_symbol n (symbols st)) eqn:E; [exact Hnames|].
    rewrite map_app. apply NoDup_snoc; [exact Hnames|].
    apply find_symbol_none. exact E.
  - intros sym Hin. apply update_symbol_In in Hin.
    destruct Hin as [Hin | (e0 & He0 & ->)]; [auto|].
    rewrite He0 in Hfind. injection Hfind as ->.
    unfold unique_granularities. cbn [add_timeframe timeframes].
    rewrite map_app. apply NoDup_snoc.
    + apply Hw. apply find_symbol_name in He0. apply He0.
    + apply existsb_granularity_false. exact Hex.
Qed.

Lemma drop_symbol_names_NoDup (n : string) (l : list SymbolConfig) :
  NoDup (map name l) -> NoDup (map name (drop_symbol n l)).
Proof.
  induction l as [|x r IH]; simpl; [auto|].
  intros Hnd. inversion Hnd as [|a b Hnot Hr]; subst.
  destruct (name x =? n); [exact Hr|].
  simpl. constructor; [|auto].
  intros Hin. apply Hnot. apply in_map_iff in Hin. destruct Hin as (y & <- & Hy).
  apply in_map. eapply drop_symbol_In. exact Hy.
Qed.

Lemma list_remove_granularities_NoDup (tf : Timeframe) (tfs : list Timeframe) :
  NoDup (map granularity tfs) ->
  NoDup (map granularity (list_remove Timeframe_eqb tf tfs)).
Proof.
  induction tfs as [|x r IH]; simpl; [auto|].
  intros Hnd. inversion Hnd as [|a b Hnot Hr]; subst.
  destruct (Timeframe_eqb x tf); [exact Hr|].
  simpl. constructor; [|auto].
  intros Hin. apply Hnot. apply in_map_iff in Hin. destruct Hin as (y & <- & Hy).
  apply in_map. eapply list_remove_In. exact Hy.
Qed.

Lemma remsymbol_unique (n : string) (g : Z) (st : State) :
  unique_config st -> unique_config (remsymbol n g st).
Proof.
  intros [Hnames Hgran].
  destruct (find_symbol n (symbols st)) as [sym|] eqn:Hsym;
    [|rewrite remsymbol_no_symbol by assumption; split; assumption].
  destruct (find (has_granularity g) (timeframes sym)) as [t|] eqn:Ht;
    [|rewrite (remsymbol_no_timeframe _ _ _ _ Hsym Ht); split; assumption].
  rewrite (remsymbol_found _ _ _ _ _ Hsym Ht).
  unfold unique_config.
  cbn [symbols send_telegram set_sent save_config set_saved set_symbols].
  assert (Hupd : forall e0, In e0 (update_symbol n (remove_timeframe t) (symbols st)) ->
                            unique_granularities e0).
  { intros e0 H0. apply update_symbol_In in H0.
    destruct H0 as [H0 | (e1 & He1 & ->)]; [auto|].
    apply list_remove_granularities_NoDup. apply Hgran.
    apply find_symbol_name in He1. apply He1. }
  destruct (list_remove Timeframe_eqb t (timeframes sym)); split.
  - apply drop_symbol_names_NoDup. exact Hnames.
  - intros e0 H0. apply Hgran. eapply drop_symbol_In. exact H0.
  - unfold unique_names. rewrite update_symbol_names by reflexivity. exact Hnames.
  - exact Hupd.
Qed.

(** With one entry per name, the entry of a name in the updated list is the
    updated entry. *)
Lemma update_symbol_named (n : string) (f : SymbolConfig -> SymbolConfig)
      (l : list SymbolConfig) (e' : SymbolConfig) :
  (forall s, name (f s) = name s) -> unique_names l ->
  In e' (update_symbol n f l) -> name e' = n ->
  exists e, find_symbol n l = Some e /\ e' = f e.
Proof.
  intros Hf. unfold unique_names, find_symbol.
  induction l as [|x r IH]; simpl; [tauto|].
  intros Hnd. inversion Hnd as [|a b Hnot Hr]; subst.
  destruct (name x =? n) eqn:E; simpl.
  - intros [<- | Hin] Hn; [eauto|].
    apply String.eqb_eq in E. exfalso. apply Hnot. rewrite E, <- Hn.
    apply in_map. exact Hin.
  - intros [<- | Hin] Hn.
    + apply String.eqb_neq in E. contradiction.
    + apply IH; assumption.
Qed.

Lemma find_granularity_In (g : Z) (tfs : list Timeframe) (tf : Timeframe) :
  find (has_granularity g) tfs = None -> In tf tfs -> granularity tf <> g.
Proof.
  intros Hnone Hin Hg.
  apply (find_none _ _ Hnone) in Hin. unfold has_granularity in Hin.
  apply Z.eqb_neq in Hin. contradiction.
Qed.

Lemma remsymbol_config_monitored (n : string) (g : Z) (st : State) :
  unique_config st -> config_monitored st -> config_monitored (remsymbol n g st).
Proof.
  intros [Hnames Hgran] Hc.
  destruct (find_symbol n (symbols st)) as [sym|] eqn:Hsym;
    [|rewrite remsymbol_no_symbol by assumption; exact Hc].
  destruct (find (has_granularity g) (timeframes sym)) as [t|] eqn:Ht;
    [|rewrite (remsymbol_no_timeframe _ _ _ _ Hsym Ht); exact Hc].
  intros sym' tf' Hin' Htf'.
  destruct (remsymbol_entries _ _ _ _ _ Hin' Htf') as (sym0 & Hin0 & Hname0 & Htf0).
  pose proof (Hc sym0 tf' Hin0 Htf0) as Hmem. rewrite Hname0 in Hmem.
  rewrite (remsymbol_found _ _ _ _ _ Hsym Ht) in Hin' |- *.
  cbn [symbols monitors send_telegram set_sent save_config set_saved set_symbols] in Hin' |- *.
  match goal with |- context [stop_monitor ?key ?x] => set (st1 := x) end.
  destruct (string_dec (monitor_key (name sym') (granularity tf')) (monitor_key n g))
    as [Heq | Hne].
  - exfalso. apply monitor_key_injective in Heq. destruct Heq as [Hn Hg].
    destruct (list_remove Timeframe_eqb t (timeframes sym)) eqn:Hrest.
    + pose proof (drop_symbol_unique n _ Hnames) as Hnone.
      apply find_symbol_none in Hnone. apply Hnone. rewrite <- Hn at 1.
      apply in_map. exact Hin'.
    + destruct (update_symbol_named n (remove_timeframe t) _ _ (fun s => eq_refl)
                  Hnames Hin' Hn) as (e & He & ->).
      rewrite Hsym in He. injection He as <-.
      cbn [remove_timeframe timeframes] in Htf'.
      assert (Hu : unique_granularities sym)
        by (apply Hgran; apply find_symbol_name in Hsym; apply Hsym).
      pose proof (list_remove_granularity g t (timeframes sym) Ht Hu) as Hnone.
      exact (find_granularity_In _ _ _ Hnone Htf' Hg).
  - unfold Dict.mem in *.
    rewrite (stop_monitor_keeps_others _ _ st1 Hne). exact Hmem.
Qed.

Lemma handle_well_formed (st : State) (data : option Update) :
  well_formed st -> well_formed (handle st data).
Proof.
  intros [[Hreg Hcfg] Hu].
  destruct (handle_cases st data)
    as [-> | [[reply ->] | [(sy & f & s & g & _ & ->) | (sy & g & _ & ->)]]].
  - split; [split; assumption | exact Hu].
  - split; [split; assumption | exact Hu].
  - split; [split|].
    + apply addsymbol_registry_consistent; exact Hreg.
    + apply addsymbol_config_monitored; exact Hcfg.
    + apply addsymbol_unique; exact Hu.
  - split; [split|].
    + apply remsymbol_registry_consistent; exact Hreg.
    + apply remsymbol_config_monitored; assumption.
    + apply remsymbol_unique; exact Hu.
Qed.

Lemma run_well_formed (updates : list (option Update)) (st : State) :
  well_formed st -> well_formed (run updates st).
Proof.
  revert st. induction updates as [|d r IH]; intros st H; [exact H|].
  change (run (d :: r) st) with (run r (handle st d)).
  apply IH. apply handle_well_formed. exact H.
Qed.

(** When the loaded symbol list has one entry per name and one timeframe per
    granularity, every state the handler can reach is well formed: the
    hypothesis of the theorems on [/addsymbol] and [/remsymbol] holds
    throughout a run. *)
Lemma reachable_well_formed (file : ReadOutcome) (cfg : ConfigDoc) (st : State)
      (updates : list (option Update)) :
  load_config file = Some (Document cfg) -> unique_config (init cfg) ->
  main file = Some st ->
  well_formed (run updates st).
Proof.
  intros Hcfg Hu Hmain. apply run_well_formed.
  split; [eapply main_consistent; exact Hmain|].
  unfold main in Hmain. rewrite Hcfg in Hmain. injection Hmain as <-.
  unfold unique_config.
  destruct (start_all_monitors_consistent (init cfg) (init_registry_consistent cfg))
    as [_ ->].
  exact Hu.
Qed.

(** * Further properties of the code *)

(** ** The crossover check on unusual windows *)

Lemma slice_empty_prev {A} (l : list A) :
  Py.slice l (Some (- 0 - 1)%Z) (Some (-1)%Z) = [].
Proof.
  unfold Py.slice. change (- 0 - 1)%Z with (-1)%Z.
  rewrite Z.sub_diag. reflexivity.
Qed.

Lemma lt_nan_left (b : option Q) : Py.lt None b = false.
Proof. reflexivity. Qed.

Lemma lt_nan_right (a : option Q) : Py.lt a None = false.
Proof. destruct a; reflexivity. Qed.

Lemma lt_irreflexive (a : option Q) : Py.lt a a = false.
Proof.
  destruct a as [x|]; [|reflexivity].
  apply lt_defined_false. apply Qlt_irrefl.
Qed.

Lemma lt_asymmetric (a b : option Q) : Py.lt a b = true -> Py.lt b a = false.
Proof.
  destruct a as [x|], b as [y|]; try discriminate.
  intros H. apply lt_defined in H. apply lt_defined_false.
  intros H'. exact (Qlt_irrefl x (Qlt_trans _ _ _ H H')).
Qed.

(** X1. A window of zero never signals: [closes[-0-1:-1]] is empty, its mean
    is [nan], and both tests compare against it. This holds for a zero fast
    window and for a zero slow window, on every series. *)
Theorem zero_window_never_signals (closes : list Q) (w : Z) :
  crossover closes 0 w = NoSignal /\ crossover closes w 0 = NoSignal.
Proof.
  unfold crossover, check_crossover. cbn [cd_closes cd_fast_ma cd_slow_ma].
  split.
  - destruct (Z.of_nat (List.length closes) <? w + 2)%Z; [reflexivity|].
    rewrite slice_empty_prev. cbn [Py.mean].
    rewrite lt_nan_left, lt_nan_right. reflexivity.
  - destruct (Z.of_nat (List.length closes) <? 0 + 2)%Z; [reflexivity|].
    rewrite slice_empty_prev. cbn [Py.mean].
    rewrite lt_nan_left, lt_nan_right. reflexivity.
Qed.

(** X2. Equal windows never signal: the two averages are the same number at
    both points, and the tests are strict. *)
Theorem equal_windows_never_signal (closes : list Q) (w : Z) :
  crossover closes w w = NoSignal.
Proof.
  unfold crossover, check_crossover. cbn [cd_closes cd_fast_ma cd_slow_ma].
  destruct (Z.of_nat (List.length closes) <? w + 2)%Z; [reflexivity|].
  rewrite !lt_irreflexive. reflexivity.
Qed.

(** X3. Exchanging the fast and the slow window exchanges bullish and
    bearish, on a series long enough for both windows to pass the length
    test. *)
Theorem swapped_windows_flip_signal (closes : list Q) (fast slow : Z) :
  (fast + 2 <= Z.of_nat (List.length closes))%Z ->
  (slow + 2 <= Z.of_nat (List.length closes))%Z ->
  crossover closes slow fast = flip_signal (crossover closes fast slow).
Proof.
  intros Hf Hs. unfold crossover, check_crossover.
  cbn [cd_closes cd_fast_ma cd_slow_ma].
  assert (Gf : (Z.of_nat (List.length closes) <? fast + 2)%Z = false)
    by (apply Z.ltb_ge; lia).
  assert (Gs : (Z.of_nat (List.length closes) <? slow + 2)%Z = false)
    by (apply Z.ltb_ge; lia).
  rewrite Gf, Gs.
  set (fn := Py.mean (Py.slice closes (Some (- fast)%Z) None)).
  set (sn := Py.mean (Py.slice closes (Some (- slow)%Z) None)).
  set (fp := Py.mean (Py.slice closes (Some (- fast - 1)%Z) (Some (-1)%Z))).
  set (sp := Py.mean (Py.slice closes (Some (- slow - 1)%Z) (Some (-1)%Z))).
  destruct (Py.lt fp sp) eqn:E1.
  - rewrite (lt_asymmetric _ _ E1). cbn [andb].
    destruct (Py.lt sn fn); reflexivity.
  - cbn [andb]. destruct (Py.lt sp fp && Py.lt fn sn); reflexivity.
Qed.

Lemma swapped_windows_flip_signal_witness :
  crossover [7; 5; 4; 6]%Q 2 1 = BearishCross.
Proof.
  apply (swapped_windows_flip_signal [7; 5; 4; 6]%Q 1 2); simpl; lia.
Defined.

Lemma last_closes_append (w : Z) (p l : list Q) :
  (Z.to_nat w <= List.length l)%nat ->
  Spec.last_closes w (p ++ l)%list = Spec.last_closes w l.
Proof.
  intros Hw. unfold Spec.last_closes.
  rewrite length_app, skipn_app.
  rewrite skipn_all2 by lia. simpl. f_equal. lia.
Qed.

(** X4. With positive windows, closes older than the last
    [max (fast + 1) (slow + 2)] do not matter: putting any earlier closes
    in front of a series that is long enough leaves the signal as it is. *)
Theorem older_closes_do_not_matter (older closes : list Q) (fast slow : Z) :
  (1 <= fast)%Z -> (1 <= slow)%Z ->
  (slow + 2 <= Z.of_nat (List.length closes))%Z ->
  (fast + 1 <= Z.of_nat (List.length closes))%Z ->
  crossover (older ++ closes)%list fast slow = crossover closes fast slow.
Proof.
  intros Hf Hs Hslow Hfast.
  assert (Hne : closes <> []) by (destruct closes; [simpl in Hslow; lia | congruence]).
  assert (Hlen : (List.length (removelast closes) = List.length closes - 1)%nat).
  { rewrite removelast_firstn_len, length_firstn. lia. }
  rewrite !crossover_unfold; try assumption;
    [|rewrite length_app; lia].
  unfold Spec.ma_now, Spec.ma_prev.
  rewrite (removelast_app older Hne).
  rewrite !last_closes_append by lia.
  reflexivity.
Qed.

Lemma older_closes_do_not_matter_witness :
  crossover ([100; 1; 50]%Q ++ [7; 5; 4; 6]%Q)%list 1 2 = crossover [7; 5; 4; 6]%Q 1 2.
Proof.
  apply (older_closes_do_not_matter [100; 1; 50]%Q [7; 5; 4; 6]%Q 1 2); simpl; lia.
Defined.

(** ** A worker receiving a candle batch *)

Lemma run_check_crossover_effects (data : CrossData) (st : State) :
  exists out : list string,
    (List.length out <= 1)%nat /\
    out = match crossover_message data with Some msg => [msg] | None => [] end /\
    sent (run_check_crossover data st) = (sent st ++ out)%list /\
    events (run_check_crossover data st) = (events st ++ out)%list /\
    heap (run_check_crossover data st) = heap st /\
    monitors (run_check_crossover data st) = monitors st /\
    symbols (run_check_crossover data st) = symbols st /\
    saved (run_check_crossover data st) = saved st.
Proof.
  unfold run_check_crossover. destruct (crossover_message data) as [msg|].
  - exists [msg]. repeat split. simpl. lia.
  - exists []. rewrite !app_nil_r. repeat split. simpl. lia.
Qed.

(** X5. A candle batch replaces the closes of the worker that receives it
    and of no other; whatever is sent to Telegram is also written to the
    event log, and that is at most one message; the registry, the symbol
    list and the saved documents are not touched. A message without
    candles, or with an empty batch, changes nothing, and a batch shorter
    than [slow_ma + 2] sends nothing. *)
Theorem on_message_effects (i : nat) (m : Monitor) (candles : option (list Q)) (st : State) :
  nth_error (heap st) i = Some m ->
  let st' := on_message i candles st in
  match candles with
  | None | Some [] => st' = st
  | Some closes =>
      nth_error (heap st') i = Some (Monitor_set_closes closes m) /\
      (forall j, j <> i -> nth_error (heap st') j = nth_error (heap st) j) /\
      (exists out : list string,
          (List.length out <= 1)%nat /\
          sent st' = (sent st ++ out)%list /\ events st' = (events st ++ out)%list /\
          ((Z.of_nat (List.length closes) < m_slow_ma m + 2)%Z -> out = [])) /\
      monitors st' = monitors st /\ symbols st' = symbols st /\ saved st' = saved st
  end.
Proof.
  intros Hi st'. subst st'. unfold on_message. rewrite Hi.
  destruct candles as [[|c cs]|]; try reflexivity.
  set (data := {| cd_name := m_name m; cd_fast_ma := m_fast_ma m;
                  cd_slow_ma := m_slow_ma m; cd_granularity := m_granularity m;
                  cd_closes := c :: cs |}).
  set (st1 := set_heap (heap_update i (Monitor_set_closes (c :: cs)) (heap st)) st).
  destruct (run_check_crossover_effects data st1)
    as (out & Hlen & Hout & Hsent & Hev & Hheap & Hmon & Hsym & Hsaved).
  rewrite Hheap, Hmon, Hsym, Hsaved.
  split; [apply heap_update_same; exact Hi|].
  split; [intros j Hj; apply heap_update_other; congruence|].
  split; [|repeat split].
  exists out. split; [exact Hlen|]. split; [exact Hsent|]. split; [exact Hev|].
  intros Hshort. rewrite Hout.
  destruct (insufficient_history_silent data Hshort) as [_ ->]. reflexivity.
Qed.

Lemma on_message_effects_witness :
  let st := handle chat7 (text_update (PyInt 7) "/addsymbol EURUSD 1 2 60") in
  let st' := on_message 0 (Some [7; 5; 4; 6]%Q) st in
  sent st' = (sent st ++ ["[EURUSD 1m] Bullish MA crossover!"])%list /\
  events st' = ["[EURUSD 1m] Bullish MA crossover!"] /\
  option_map m_closes (nth_error (heap st') 0) = Some [7; 5; 4; 6]%Q.
Proof.
  intros st st'.
  pose proof (on_message_effects 0 (Monitor_start (Monitor_init "EURUSD" 1 2 60))
                (Some [7; 5; 4; 6]%Q) st eq_refl) as H.
  cbv zeta in H. fold st' in H. destruct H as (Hcell & _).
  split; [reflexivity|]. split; [reflexivity|].
  rewrite Hcell. reflexivity.
Defined.

(** ** What a webhook call can and cannot change *)

Lemma start_monitor_frame (n : string) (f s g : Z) (st : State) :
  config (start_monitor n f s g st) = config st /\
  sent (start_monitor n f s g st) = sent st /\
  saved (start_monitor n f s g st) = saved st /\
  events (start_monitor n f s g st) = events st.
Proof.
  unfold start_monitor. destruct (negb _); repeat split.
Qed.

Lemma stop_monitor_frame (key : string) (st : State) :
  config (stop_monitor key st) = config st /\
  sent (stop_monitor key st) = sent st /\
  saved (stop_monitor key st) = saved st /\
  events (stop_monitor key st) = events st.
Proof.
  unfold stop_monitor. destruct (Dict.get key (monitors st)); repeat split.
Qed.

(** The outbox, the saved documents and the fixed fields after [addsymbol]. *)
Lemma addsymbol_frame (n : string) (f s g : Z) (st : State) :
  let st' := addsymbol n f s g st in
  bot_token st' = bot_token st /\ chat_id st' = chat_id st /\
  symbols_in_config st' = symbols_in_config st /\ events st' = events st /\
  (exists reply, sent st' = (sent st ++ [reply])%list) /\
  ((saved st' = saved st /\ symbols st' = symbols st) \/
   saved st' = (saved st ++ [config st'])%list).
Proof.
  intros st'. subst st'.
  destruct (addsymbol_unfold n f s g st) as (e & Hfind & Hcase).
  destruct Hcase as [(Hex & Hold & ->) | (Hex & reply & ->)].
  - do 4 (split; [reflexivity|]). split; [eexists; reflexivity|].
    left. split; reflexivity.
  - match goal with |- context [start_monitor n f s g ?x] => set (st3 := x) end.
    destruct (start_monitor_frame n f s g st3) as (Hc & Hse & Hsa & Hev).
    assert (Hc' : config (send_telegram reply (start_monitor n f s g st3)) = config st3)
      by exact Hc.
    pose proof (f_equal doc_bot_token Hc) as Hb.
    pose proof (f_equal doc_chat_id Hc) as Hi.
    cbn [config doc_bot_token doc_chat_id] in Hb, Hi.
    cbn [bot_token chat_id symbols_in_config events sent saved send_telegram set_sent].
    rewrite Hb, Hi, Hse, Hsa, Hev.
    destruct (start_monitor_other_fields n f s g st3) as (_ & _ & _ & _ & ->).
    split; [reflexivity|]. split; [reflexivity|]. split; [reflexivity|].
    split; [reflexivity|]. split; [eauto|].
    right. rewrite Hc'. reflexivity.
Qed.

Lemma remsymbol_frame (n : string) (g : Z) (st : State) :
  let st' := remsymbol n g st in
  bot_token st' = bot_token st /\ chat_id st' = chat_id st /\
  symbols_in_config st' = symbols_in_config st /\ events st' = events st /\
  (exists reply, sent st' = (sent st ++ [reply])%list) /\
  ((saved st' = saved st /\ symbols st' = symbols st) \/
   saved st' = (saved st ++ [config st'])%list).
Proof.
  intros st'. subst st'.
  destruct (find_symbol n (symbols st)) as [sym|] eqn:Hsym;
    [|rewrite remsymbol_no_symbol by assumption;
      do 4 (split; [reflexivity|]); split; [eexists; reflexivity|];
      left; split; reflexivity].
  destruct (find (has_granularity g) (timeframes sym)) as [t|] eqn:Ht;
    [|rewrite (remsymbol_no_timeframe _ _ _ _ Hsym Ht);
      do 4 (split; [reflexivity|]); split; [eexists; reflexivity|];
      left; split; reflexivity].
  rewrite (remsymbol_found _ _ _ _ _ Hsym Ht).
  match goal with |- context [stop_monitor ?k ?x] => set (key := k); set (st1 := x) end.
  destruct (stop_monitor_frame key st1) as (Hc & Hse & Hsa & Hev).
  pose proof (f_equal doc_bot_token Hc) as Hb.
  pose proof (f_equal doc_chat_id Hc) as Hi.
  cbn [config doc_bot_token doc_chat_id] in Hb, Hi.
  destruct (stop_monitor_other_fields key st1) as (_ & _ & _ & _ & Hin).
  cbn [bot_token chat_id symbols_in_config events sent saved send_telegram set_sent
       save_config set_saved set_symbols config symbols].
  rewrite Hb, Hi, Hse, Hsa, Hev, Hin.
  split; [reflexivity|]. split; [reflexivity|]. split; [reflexivity|].
  split; [reflexivity|]. split; [eauto|].
  right. reflexivity.
Qed.

Lemma handle_frame (st : State) (data : option Update) :
  let st' := handle st data in
  bot_token st' = bot_token st /\ chat_id st' = chat_id st /\
  symbols_in_config st' = symbols_in_config st /\ events st' = events st /\
  ((saved st' = saved st /\ symbols st' = symbols st) \/
   saved st' = (saved st ++ [config st'])%list).
Proof.
  intros st'. subst st'.
  destruct (handle_cases st data)
    as [-> | [[reply ->] | [(sy & f & s & g & _ & ->) | (sy & g & _ & ->)]]].
  - do 4 (split; [reflexivity|]). left. split; reflexivity.
  - do 4 (split; [reflexivity|]). left. split; reflexivity.
  - destruct (addsymbol_frame (Text.upper sy) f s g st) as (H1 & H2 & H3 & H4 & _ & H6).
    repeat split; assumption.
  - destruct (remsymbol_frame (Text.upper sy) g st) as (H1 & H2 & H3 & H4 & _ & H6).
    repeat split; assumption.
Qed.

Lemma dispatch_replies (parts : list string) (st : State) :
  exists reply, sent (dispatch parts st) = (sent st ++ [reply])%list.
Proof.
  unfold dispatch.
  destruct (Text.lower (nth 0 parts "") =? "/addsymbol").
  { unfold cmd_addsymbol. destruct (negb _); [eexists; reflexivity|].
    destruct (Text.int (nth 2 parts "")); [|eexists; reflexivity].
    destruct (Text.int (nth 3 parts "")); [|eexists; reflexivity].
    destruct (Text.int (nth 4 parts "")); [|eexists; reflexivity].
    apply addsymbol_frame. }
  destruct (Text.lower (nth 0 parts "") =? "/remsymbol").
  { unfold cmd_remsymbol. destruct (negb _); [eexists; reflexivity|].
    destruct (Text.int (nth 2 parts "")); [|eexists; reflexivity].
    apply remsymbol_frame. }
  destruct (Text.lower (nth 0 parts "") =? "/listsymbols").
  { unfold cmd_listsymbols. destruct (symbols st); eexists; reflexivity. }
  destruct (Text.lower (nth 0 parts "") =? "/status").
  { unfold cmd_status. destruct (map _ (registered_workers st)); eexists; reflexivity. }
  eexists; reflexivity.
Qed.

(** X6. A message from the configured chat whose text starts with a slash
    gets exactly one reply, whatever the command and whether it succeeds;
    any other body (no message, another chat, a text that is no command)
    leaves the whole state as it is. *)
Theorem one_reply_per_command (st : State) (data : option Update) :
  ((exists parts, authorized_command st data parts) ->
   exists reply, sent (handle st data) = (sent st ++ [reply])%list) /\
  (~ (exists parts, authorized_command st data parts) -> handle st data = st).
Proof.
  split.
  - intros [parts Hauth]. unfold handle.
    rewrite (webhook_dispatch _ _ _ Hauth). apply dispatch_replies.
  - intros Hnot. unfold handle, telegram_webhook.
    destruct data as [upd|]; [|reflexivity].
    destruct (message upd) as [msg|] eqn:Hm; [|reflexivity].
    destruct (py_str (chat_id_msg msg) =? py_str (chat_id st)) eqn:Hid; [|reflexivity].
    destruct (Text.startswith "/" (message_text msg)) eqn:Hslash; [|reflexivity].
    exfalso. apply Hnot. exists (Text.split (message_text msg)), upd, msg.
    apply String.eqb_eq in Hid. repeat split; assumption.
Qed.

(** X7. The handler never touches the bot token, the chat identifier or the
    event log, and it writes [config.json] at most once per call: the
    document written is the configuration as the call leaves it. When it
    writes nothing, the symbol list is unchanged. *)
Theorem webhook_writes_at_most_once (st : State) (data : option Update) :
  let st' := handle st data in
  bot_token st' = bot_token st /\ chat_id st' = chat_id st /\
  events st' = events st /\
  ((saved st' = saved st /\ symbols st' = symbols st) \/
   saved st' = (saved st ++ [config st'])%list).
Proof.
  intros st'. destruct (handle_frame st data) as (H1 & H2 & _ & H4 & H5).
  repeat split; assumption.
Qed.

(** ** The saved configuration *)

Lemma start_timeframes_frame (n : string) (tfs : list Timeframe) (st : State) :
  let st' := fold_left (fun st tf => start_monitor n (fast_ma tf) (slow_ma tf)
                                                   (granularity tf) st) tfs st in
  config st' = config st /\ sent st' = sent st /\ saved st' = saved st /\
  events st' = events st.
Proof.
  revert st. induction tfs as [|tf r IH]; intros st; simpl; [repeat split|].
  destruct (IH (start_monitor n (fast_ma tf) (slow_ma tf) (granularity tf) st))
    as (H1 & H2 & H3 & H4).
  destruct (start_monitor_frame n (fast_ma tf) (slow_ma tf) (granularity tf) st)
    as (G1 & G2 & G3 & G4).
  cbv zeta. rewrite H1, H2, H3, H4. repeat split; assumption.
Qed.

Lemma start_symbols_frame (syms : list SymbolConfig) (st : State) :
  let st' := fold_left
               (fun st sym =>
                  fold_left (fun st tf => start_monitor (name sym) (fast_ma tf) (slow_ma tf)
                                                        (granularity tf) st)
                            (timeframes sym) st) syms st in
  config st' = config st /\ sent st' = sent st /\ saved st' = saved st /\
  events st' = events st.
Proof.
  revert st. induction syms as [|sym r IH]; intros st; simpl; [repeat split|].
  destruct (start_timeframes_frame (name sym) (timeframes sym) st) as (G1 & G2 & G3 & G4).
  cbv zeta in G1, G2, G3, G4.
  set (st1 := fold_left _ (timeframes sym) st) in *.
  destruct (IH st1) as (H1 & H2 & H3 & H4).
  cbv zeta. rewrite H1, H2, H3, H4. repeat split; assumption.
Qed.

Lemma start_all_monitors_frame (st : State) :
  config (start_all_monitors st) = config st /\
  sent (start_all_monitors st) = sent st /\
  saved (start_all_monitors st) = saved st /\
  events (start_all_monitors st) = events st.
Proof.
  unfold start_all_monitors. apply start_symbols_frame.
Qed.

Lemma config_init (cfg : ConfigDoc) : config (init cfg) = cfg.
Proof.
  destruct cfg as [t c [l|]]; reflexivity.
Qed.

(** X8. Loading a document and saving it at once writes the same document
    back, before or after the monitors are started: the fields and the
    symbol list survive the round trip, and so does the absence of a
    [symbols] key. *)
Theorem load_then_save_round_trip (cfg : ConfigDoc) :
  saved (save_config (init cfg)) = [cfg] /\
  saved (save_config (start_all_monitors (init cfg))) = [cfg].
Proof.
  split.
  - cbn [save_config saved set_saved]. rewrite config_init. reflexivity.
  - destruct (start_all_monitors_frame (init cfg)) as (Hc & _ & Hs & _).
    cbn [save_config saved set_saved]. rewrite Hc, Hs, config_init. reflexivity.
Qed.

Lemma handle_in_sync (cfg : ConfigDoc) (st : State) (data : option Update) :
  last (saved st) cfg = config st ->
  last (saved (handle st data)) cfg = config (handle st data).
Proof.
  intros Hsync.
  destruct (handle_frame st data) as (Hb & Hi & Hin & _ & [[Hsa Hsy] | Hsa]).
  - rewrite Hsa, Hsync. unfold config. rewrite Hb, Hi, Hin, Hsy. reflexivity.
  - rewrite Hsa. apply last_last.
Qed.

(** X9. The file follows the memory: after the start and any sequence of
    webhook calls, the document last written to [config.json] (the loaded
    one when nothing was written yet) is the configuration in memory. *)
Theorem saved_config_in_sync (cfg : ConfigDoc) (updates : list (option Update)) :
  let st := run updates (start_all_monitors (init cfg)) in
  last (saved st) cfg = config st.
Proof.
  cbv zeta.
  assert (H0 : last (saved (start_all_monitors (init cfg))) cfg
               = config (start_all_monitors (init cfg))).
  { destruct (start_all_monitors_frame (init cfg)) as (Hc & _ & Hs & _).
    rewrite Hc, Hs, config_init. reflexivity. }
  revert H0. generalize (start_all_monitors (init cfg)).
  induction updates as [|d r IH]; intros st H; [exact H|].
  change (run (d :: r) st) with (run r (handle st d)).
  apply IH. apply handle_in_sync. exact H.
Qed.

Lemma handle_detached (cfg : ConfigDoc) (st : State) (data : option Update) :
  symbols_in_config st = false ->
  config st = cfg -> Forall (eq cfg) (saved st) ->
  symbols_in_config (handle st data) = false /\
  config (handle st data) = cfg /\ Forall (eq cfg) (saved (handle st data)).
Proof.
  intros Hdet Hcfg Hall.
  destruct (handle_frame st data) as (Hb & Hi & Hin & _ & Hsaved).
  assert (Hc : config (handle st data) = cfg).
  { rewrite <- Hcfg. unfold config. rewrite Hb, Hi, Hin, Hdet. reflexivity. }
  split; [rewrite Hin; exact Hdet|]. split; [exact Hc|].
  destruct Hsaved as [[-> _] | ->]; [exact Hall|].
  apply Forall_app. split; [exact Hall|]. constructor; [auto | constructor].
Qed.

(** X10. When the loaded document has no [symbols] key, the symbol list the
    commands change is not the one inside [config]: every document written
    afterwards is the loaded document itself, so no symbol added by a
    command is ever saved. *)
Theorem symbols_never_saved_without_key (cfg : ConfigDoc) (updates : list (option Update)) :
  doc_symbols cfg = None ->
  Forall (eq cfg) (saved (run updates (start_all_monitors (init cfg)))).
Proof.
  intros Hnone.
  assert (H0 : symbols_in_config (start_all_monitors (init cfg)) = false /\
               config (start_all_monitors (init cfg)) = cfg /\
               Forall (eq cfg) (saved (start_all_monitors (init cfg)))).
  { destruct (start_all_monitors_frame (init cfg)) as (Hc & _ & Hs & _).
    rewrite Hc, Hs, config_init.
    split; [|split; [reflexivity | constructor]].
    pose proof (f_equal doc_symbols Hc) as Hd. rewrite config_init, Hnone in Hd.
    cbn [config doc_symbols] in Hd.
    destruct (symbols_in_config (start_all_monitors (init cfg))); [discriminate | reflexivity]. }
  revert H0. generalize (start_all_monitors (init cfg)).
  induction updates as [|d r IH]; intros st (H1 & H2 & H3); [exact H3|].
  change (run (d :: r) st) with (run r (handle st d)).
  apply IH. apply handle_detached; assumption.
Qed.

Lemma symbols_never_saved_without_key_witness :
  let cfg := {| doc_bot_token := PyStr "token"; doc_chat_id := PyInt 7;
                doc_symbols := None |} in
  let st := run [text_update (PyInt 7) "/addsymbol EURUSD 5 20 60"]
                (start_all_monitors (init cfg)) in
  symbols st = [{| name := "EURUSD";
                   timeframes := [{| fast_ma := 5; slow_ma := 20; granularity := 60 |}] |}] /\
  Forall (eq cfg) (saved st) /\ saved st = [cfg].
Proof.
  intros cfg st. split; [reflexivity|]. split; [|reflexivity].
  apply (symbols_never_saved_without_key cfg). reflexivity.
Defined.

(** ** The registry over a whole run *)

Lemma handle_registry_consistent (st : State) (data : option Update) :
  registry_consistent st -> registry_consistent (handle st data).
Proof.
  intros Hc.
  destruct (handle_cases st data)
    as [-> | [[reply ->] | [(sy & f & s & g & _ & ->) | (sy & g & _ & ->)]]].
  - exact Hc.
  - exact Hc.
  - apply addsymbol_registry_consistent. exact Hc.
  - apply remsymbol_registry_consistent. exact Hc.
Qed.

Lemma run_registry_consistent (updates : list (option Update)) (st : State) :
  registry_consistent st -> registry_consistent (run updates st).
Proof.
  revert st. induction updates as [|d r IH]; intros st H; [exact H|].
  change (run (d :: r) st) with (run r (handle st d)).
  apply IH. apply handle_registry_consistent. exact H.
Qed.

(** X11. Whatever document was loaded and whatever updates arrive, there is
    never more than one live worker for a key: a key in the registry has
    exactly one started, active worker, a key outside it has none. *)
Theorem one_live_worker_per_key
        (cfg : ConfigDoc) (updates : list (option Update)) (key : string) :
  let st := run updates (start_all_monitors (init cfg)) in
  registry_consistent st /\
  List.length (live_workers key st)
  = if Dict.mem key (monitors st) then 1%nat else 0%nat.
Proof.
  intros st.
  assert (Hc : registry_consistent st).
  { apply run_registry_consistent. apply startup_consistent. }
  split; [exact Hc|].
  destruct (Dict.mem key (monitors st)) eqn:E.
  - apply live_workers_registered; assumption.
  - apply mem_false_get in E.
    rewrite (live_workers_unregistered key st Hc E). reflexivity.
Qed.

(** X12. The registry key [f"{name}_{granularity}"] names one symbol and
    one granularity: two keys are equal only when the names and the
    granularities are, also for names that contain underscores and for
    negative granularities. *)
Theorem registry_key_names_one_pair (n1 n2 : string) (g1 g2 : Z) :
  monitor_key n1 g1 = monitor_key n2 g2 <-> n1 = n2 /\ g1 = g2.
Proof.
  split.
  - apply monitor_key_injective.
  - intros [-> ->]. reflexivity.
Qed.

Lemma start_monitor_cell (n : string) (f s g : Z) (st : State) (i : nat) (m : Monitor) :
  nth_error (heap st) i = Some m ->
  nth_error (heap (start_monitor n f s g st)) i = Some m.
Proof.
  intros Hi. destruct (Dict.mem (monitor_key n g) (monitors st)) eqn:E.
  - rewrite start_monitor_present by assumption. exact Hi.
  - destruct (start_monitor_fresh n f s g st E) as [-> _].
    rewrite alloc_lookup.
    assert (Hlt : (i < List.length (heap st))%nat) by (apply nth_error_Some; congruence).
    assert (Hne : (i =? List.length (heap st))%nat = false) by (apply Nat.eqb_neq; lia).
    rewrite Hne. exact Hi.
Qed.

Lemma stop_monitor_cell (key : string) (st : State) (i : nat) (m : Monitor) :
  nth_error (heap st) i = Some m ->
  nth_error (heap (stop_monitor key st)) i = Some m \/
  nth_error (heap (stop_monitor key st)) i = Some (Monitor_stop m).
Proof.
  intros Hi. unfold stop_monitor.
  destruct (Dict.get key (monitors st)) as [i0|]; [|left; exact Hi].
  cbn [heap set_monitors set_heap].
  destruct (Nat.eq_dec i0 i) as [->|Hne].
  - right. apply heap_update_same. exact Hi.
  - left. rewrite heap_update_other by assumption. exact Hi.
Qed.

Lemma handle_cell (st : State) (data : option Update) (i : nat) (m : Monitor) :
  nth_error (heap st) i = Some m ->
  nth_error (heap (handle st data)) i = Some m \/
  nth_error (heap (handle st data)) i = Some (Monitor_stop m).
Proof.
  intros Hi.
  destruct (handle_cases st data)
    as [-> | [[reply ->] | [(sy & f & s & g & _ & ->) | (sy & g & _ & ->)]]];
    [left; exact Hi | left; exact Hi | |].
  - left.
    destruct (addsymbol_unfold (Text.upper sy) f s g st) as (e & Hfind & Hcase).
    destruct Hcase as [(Hex & Hold & ->) | (Hex & reply & ->)]; [exact Hi|].
    cbn [heap send_telegram set_sent]. apply start_monitor_cell. exact Hi.
  - destruct (find_symbol (Text.upper sy) (symbols st)) as [sym|] eqn:Hsym;
      [|rewrite remsymbol_no_symbol by assumption; left; exact Hi].
    destruct (find (has_granularity g) (timeframes sym)) as [t|] eqn:Ht;
      [|rewrite (remsymbol_no_timeframe _ _ _ _ Hsym Ht); left; exact Hi].
    rewrite (remsymbol_found _ _ _ _ _ Hsym Ht).
    cbn [heap send_telegram set_sent save_config set_saved set_symbols].
    apply stop_monitor_cell. exact Hi.
Qed.

(** X13. A worker object is never changed by a command except to stop it:
    after any sequence of updates the worker created as the [i]-th one still
    has its name, windows, granularity and closes, and it is either as it
    was or stopped. A stopped worker is never started again, and the windows
    of a running worker are never updated. *)
Theorem worker_only_ever_stopped
        (updates : list (option Update)) (st : State) (i : nat) (m : Monitor) :
  nth_error (heap st) i = Some m ->
  nth_error (heap (run updates st)) i = Some m \/
  nth_error (heap (run updates st)) i = Some (Monitor_stop m).
Proof.
  revert st m. induction updates as [|d r IH]; intros st m Hi; [left; exact Hi|].
  change (run (d :: r) st) with (run r (handle st d)).
  destruct (handle_cell st d i m Hi) as [H | H].
  - apply IH. exact H.
  - destruct (IH _ _ H) as [H' | H']; right; exact H'.
Qed.

Lemma worker_only_ever_stopped_witness :
  let st := handle chat7 (text_update (PyInt 7) "/addsymbol EURUSD 5 20 60") in
  let st' := run [text_update (PyInt 7) "/remsymbol EURUSD 60";
                  text_update (PyInt 7) "/addsymbol EURUSD 9 30 60"] st in
  nth_error (heap st') 0 = Some (Monitor_stop (Monitor_start (Monitor_init "EURUSD" 5 20 60))) /\
  nth_error (heap st') 1 = Some (Monitor_start (Monitor_init "EURUSD" 9 30 60)).
Proof.
  intros st st'.
  destruct (worker_only_ever_stopped
              [text_update (PyInt 7) "/remsymbol EURUSD 60";
               text_update (PyInt 7) "/addsymbol EURUSD 9 30 60"] st 0
              (Monitor_start (Monitor_init "EURUSD" 5 20 60)) eq_refl) as [H | H].
  - discriminate H.
  - split; [exact H | reflexivity].
Defined.

(** ** [stop_all_monitors] *)

Lemma get_In_values {V} (k : string) (d : Dict.t V) (v : V) :
  Dict.get k d = Some v -> In v (map snd d).
Proof.
  induction d as [|[k' v'] r IH]; simpl; [discriminate|].
  destruct (k' =? k); [intros [= ->]; auto | auto].
Qed.

(** The heap after the loop of [stop_all_monitors] over the entries [d]. *)
Lemma stop_loop_cell (d : Dict.t nat) (st : State) (i : nat) :
  let st' := fold_left (fun st kv => set_heap (heap_update (snd kv) Monitor_stop (heap st)) st)
                       d st in
  (forall m, nth_error (heap st) i = Some m ->
     exists m', nth_error (heap st') i = Some m' /\
                (m' = m \/ m' = Monitor_stop m) /\
                (In i (map snd d) -> m_active m' = false)) /\
  (nth_error (heap st) i = None -> nth_error (heap st') i = None) /\
  symbols st' = symbols st /\ sent st' = sent st /\ saved st' = saved st /\
  monitors st' = monitors st.
Proof.
  revert st. induction d as [|[k j] r IH]; intros st; simpl.
  - split; [|repeat split; auto].
    intros m Hi. exists m. split; [exact Hi|]. split; [auto | tauto].
  - set (st1 := set_heap (heap_update j Monitor_stop (heap st)) st).
    destruct (IH st1) as (Hsome & Hnone & Hsy & Hse & Hsa & Hmo).
    split; [|split; [|repeat split; assumption]].
    + intros m Hi.
      destruct (Nat.eq_dec j i) as [->|Hne].
      * assert (H1 : nth_error (heap st1) i = Some (Monitor_stop m))
          by (apply heap_update_same; exact Hi).
        destruct (Hsome _ H1) as (m' & Hm' & Hor & _).
        exists m'. split; [exact Hm'|].
        assert (Hm : m' = Monitor_stop m) by (destruct Hor; subst; reflexivity).
        split; [right; exact Hm|]. intros _. rewrite Hm. reflexivity.
      * assert (H1 : nth_error (heap st1) i = Some m)
          by (unfold st1; cbn [heap set_heap]; rewrite heap_update_other; assumption).
        destruct (Hsome _ H1) as (m' & Hm' & Hor & Hstop).
        exists m'. split; [exact Hm'|]. split; [exact Hor|].
        intros [Heq | Hin]; [contradiction | auto].
    + intros Hi. apply Hnone. unfold st1. cbn [heap set_heap].
      apply nth_error_None. rewrite heap_update_length. apply nth_error_None. exact Hi.
Qed.

Lemma stop_inactive (m : Monitor) : m_active m = false -> Monitor_stop m = m.
Proof.
  destruct m as [n f s g c st a]. simpl. intros ->. reflexivity.
Qed.

(** X14. From a consistent registry, [stop_all_monitors] empties the
    registry and leaves no active worker: every worker keeps its place and
    its data (name, windows, granularity, closes, started flag) and is
    inactive afterwards, that is, the heap is the old one with every worker
    stopped; so no key has a live worker. The symbol list, the outbox and
    the saved documents are not touched. *)
Theorem stop_all_monitors_stops_everything (st : State) :
  registry_consistent st ->
  let st' := stop_all_monitors st in
  monitors st' = [] /\
  heap st' = map Monitor_stop (heap st) /\
  (forall i m, nth_error (heap st) i = Some m ->
     exists m', nth_error (heap st') i = Some m' /\
                m_name m' = m_name m /\ m_fast_ma m' = m_fast_ma m /\
                m_slow_ma m' = m_slow_ma m /\ m_granularity m' = m_granularity m /\
                m_closes m' = m_closes m /\ m_started m' = m_started m /\
                m_active m' = false) /\
  List.length (heap st') = List.length (heap st) /\
  (forall m, In m (heap st') -> m_active m = false) /\
  (forall key, live_workers key st' = []) /\
  registry_consistent st' /\
  symbols st' = symbols st /\ sent st' = sent st /\ saved st' = saved st.
Proof.
  intros [Ha Hb] st'. subst st'. unfold stop_all_monitors.
  set (st1 := fold_left _ (monitors st) st).
  assert (Hcell : forall i, _) by (exact (fun i => stop_loop_cell (monitors st) st i)).
  cbv zeta in Hcell. fold st1 in Hcell.
  assert (Hinactive : forall m, In m (heap st1) -> m_active m = false).
  { intros m' Hin. apply In_nth_error in Hin. destruct Hin as [i Hi'].
    destruct (Hcell i) as (Hsome & Hnone & _).
    destruct (nth_error (heap st) i) as [m|] eqn:Hi;
      [|rewrite (Hnone eq_refl) in Hi'; discriminate].
    destruct (Hsome m eq_refl) as (m1 & Hm1 & Hor & Hstop).
    rewrite Hm1 in Hi'. injection Hi' as <-.
    destruct (m_active m) eqn:Hact.
    - apply Hstop. eapply get_In_values. apply (Hb i m Hi Hact).
    - destruct Hor as [-> | ->]; [exact Hact | reflexivity]. }
  assert (Hlen : List.length (heap st1) = List.length (heap st)).
  { destruct (Nat.lt_trichotomy (List.length (heap st1)) (List.length (heap st)))
      as [Hlt | [Heq | Hgt]]; [exfalso | exact Heq | exfalso].
    - destruct (nth_error (heap st) (List.length (heap st1))) as [m|] eqn:E.
      + destruct (Hcell (List.length (heap st1))) as (Hsome & _).
        destruct (Hsome m E) as (m' & Hm' & _).
        assert (nth_error (heap st1) (List.length (heap st1)) = None)
          by (apply nth_error_None; lia).
        congruence.
      + apply nth_error_None in E. lia.
    - destruct (Hcell (List.length (heap st))) as (_ & Hnone & _).
      assert (E : nth_error (heap st) (List.length (heap st)) = None)
        by (apply nth_error_None; lia).
      apply Hnone in E. apply nth_error_None in E. lia. }
  assert (Hstopped : forall i m, nth_error (heap st) i = Some m ->
                                 nth_error (heap st1) i = Some (Monitor_stop m)).
  { intros i m Hi. destruct (Hcell i) as (Hsome & _).
    destruct (Hsome m Hi) as (m1 & Hm1 & Hor & _).
    rewrite Hm1. f_equal. destruct Hor as [-> | ->]; [|reflexivity].
    symmetry. apply stop_inactive. apply Hinactive.
    eapply nth_error_In. exact Hm1. }
  assert (Hmap : heap st1 = map Monitor_stop (heap st)).
  { apply nth_error_ext. intros i. rewrite nth_error_map.
    destruct (nth_error (heap st) i) as [m|] eqn:Hi.
    - rewrite (Hstopped i m Hi). reflexivity.
    - destruct (Hcell i) as (_ & Hnone & _). rewrite (Hnone Hi). reflexivity. }
  destruct (Hcell 0%nat) as (_ & _ & Hsy & Hse & Hsa & _).
  cbn [monitors heap symbols sent saved set_monitors].
  split; [reflexivity|]. split; [exact Hmap|].
  split.
  { intros i m Hi. exists (Monitor_stop m).
    split; [apply Hstopped; exact Hi|]. repeat split. }
  split; [exact Hlen|]. split; [exact Hinactive|].
  assert (Hlive : forall key, live_workers key (set_monitors [] st1) = []).
  { intros key. unfold live_workers. cbn [heap set_monitors].
    destruct (filter (is_live key) (heap st1)) as [|m t] eqn:E; [reflexivity|].
    assert (Hin : In m (filter (is_live key) (heap st1))) by (rewrite E; left; reflexivity).
    apply filter_In in Hin. destruct Hin as [Hin Hl].
    unfold is_live in Hl. rewrite (Hinactive m Hin), andb_false_r in Hl. discriminate. }
  split; [exact Hlive|].
  split; [|repeat split; assumption].
  split.
  - intros k i H. discriminate.
  - intros i m Hi Hact. cbn [heap set_monitors] in Hi.
    rewrite (Hinactive m (nth_error_In _ _ Hi)) in Hact. discriminate.
Qed.

Lemma stop_all_monitors_stops_everything_witness :
  let st := run [text_update (PyInt 7) "/addsymbol EURUSD 5 20 60";
                 text_update (PyInt 7) "/addsymbol GBPUSD 3 9 300"] chat7 in
  List.length (heap st) = 2%nat /\
  monitors (stop_all_monitors st) = [] /\
  (forall m, In m (heap (stop_all_monitors st)) -> m_active m = false).
Proof.
  intros st.
  assert (Hc : registry_consistent st).
  { apply run_registry_consistent. apply startup_consistent. }
  destruct (stop_all_monitors_stops_everything st Hc) as (Hm & _ & _ & _ & Hin & _).
  split; [reflexivity|]. split; [exact Hm | exact Hin].
Defined.

(** ** Commands that are refused, and who may command *)

(** X15. Malformed commands are refused whole: [/addsymbol] with a number
    of words other than five, or with a window or granularity that is no
    integer, and [/remsymbol] with a number of words other than three or a
    granularity that is no integer, send the usage or the error text and
    change nothing else; an unknown command gets the list of commands. *)
Theorem malformed_command_refused
        (st : State) (data : option Update) (parts : list string) :
  authorized_command st data parts ->
  let cmd := Text.lower (nth 0 parts "") in
  (cmd = "/addsymbol" ->
     (List.length parts <> 5%nat ->
      handle st data
      = send_telegram "Usage: /addsymbol SYMBOL FAST_MA SLOW_MA GRANULARITY_SECONDS" st) /\
     (List.length parts = 5%nat ->
      Text.int (nth 2 parts "") = None \/ Text.int (nth 3 parts "") = None \/
      Text.int (nth 4 parts "") = None ->
      handle st data = send_telegram "MA periods and granularity must be integers." st)) /\
  (cmd = "/remsymbol" ->
     (List.length parts <> 3%nat ->
      handle st data = send_telegram "Usage: /remsymbol SYMBOL GRANULARITY_SECONDS" st) /\
     (List.length parts = 3%nat -> Text.int (nth 2 parts "") = None ->
      handle st data = send_telegram "Granularity must be integer seconds." st)) /\
  (cmd <> "/addsymbol" -> cmd <> "/remsymbol" ->
   cmd <> "/listsymbols" -> cmd <> "/status" ->
   handle st data = send_telegram unknown_command st).
Proof.
  intros Hauth cmd.
  assert (Hh : handle st data = dispatch parts st)
    by (unfold handle; rewrite (webhook_dispatch _ _ _ Hauth); reflexivity).
  rewrite Hh. unfold dispatch. fold cmd.
  split; [|split].
  - intros ->. change ("/addsymbol" =? "/addsymbol") with true. cbv iota.
    unfold cmd_addsymbol. split.
    + intros Hlen. apply Nat.eqb_neq in Hlen. rewrite Hlen. reflexivity.
    + intros Hlen Hbad. apply Nat.eqb_eq in Hlen. rewrite Hlen. cbn [negb].
      destruct (Text.int (nth 2 parts "")); [|reflexivity].
      destruct (Text.int (nth 3 parts "")); [|reflexivity].
      destruct (Text.int (nth 4 parts "")); [|reflexivity].
      destruct Hbad as [H | [H | H]]; discriminate H.
  - intros ->. change ("/remsymbol" =? "/addsymbol") with false.
    change ("/remsymbol" =? "/remsymbol") with true. cbv iota.
    unfold cmd_remsymbol. split.
    + intros Hlen. apply Nat.eqb_neq in Hlen. rewrite Hlen. reflexivity.
    + intros Hlen Hbad. apply Nat.eqb_eq in Hlen. rewrite Hlen, Hbad. reflexivity.
  - intros H1 H2 H3 H4.
    apply String.eqb_neq in H1, H2, H3, H4. rewrite H1, H2, H3, H4. reflexivity.
Qed.

Lemma malformed_command_refused_witness :
  handle chat7 (text_update (PyInt 7) "/addsymbol EURUSD five 20 60")
  = send_telegram "MA periods and granularity must be integers." chat7.
Proof.
  assert (Hauth : authorized_command chat7
                    (text_update (PyInt 7) "/addsymbol EURUSD five 20 60")
                    ["/addsymbol"; "EURUSD"; "five"; "20"; "60"])
    by (apply text_update_command; reflexivity).
  destruct (malformed_command_refused chat7 _ _ Hauth) as (Hadd & _).
  destruct (Hadd eq_refl) as (_ & Hint).
  apply Hint; [reflexivity | left; reflexivity].
Defined.

Lemma str_nonempty (z : Z) : Text.str z <> "".
Proof.
  unfold Text.str, NilZero.string_of_int, NilZero.string_of_uint.
  destruct (Z.to_int z) as [d | d]; destruct d; simpl; discriminate.
Qed.

(** X16. With the default configuration (the one [load_config] falls back
    to) the configured chat identifier is the empty string, and no Telegram
    chat can command the bot: a message whose chat identifier is an integer,
    or that has none, is ignored. *)
Theorem default_configuration_obeys_no_chat
        (file : ReadOutcome) (st : State) (upd : Update) (msg : Message) :
  file = FileNotFoundError \/ file = JSONDecodeError ->
  main file = Some st ->
  message upd = Some msg ->
  chat_id_msg msg = PyNone \/ (exists z, chat_id_msg msg = PyInt z) ->
  telegram_webhook (Some upd) st = (Ack, st).
Proof.
  intros Hfile Hmain Hm Hid.
  assert (Hchat : chat_id st = PyStr "")
    by (destruct Hfile as [-> | ->]; injection Hmain as <-; reflexivity).
  unfold telegram_webhook. rewrite Hm, Hchat.
  assert (Hne : py_str (chat_id_msg msg) <> py_str (PyStr "")).
  { destruct Hid as [-> | [z ->]]; simpl; [discriminate | apply str_nonempty]. }
  apply String.eqb_neq in Hne. rewrite Hne. reflexivity.
Qed.

Lemma default_configuration_obeys_no_chat_witness :
  exists st, main FileNotFoundError = Some st /\
             telegram_webhook (text_update (PyInt 7) "/addsymbol EURUSD 5 20 60") st
             = (Ack, st).
Proof.
  eexists. split; [reflexivity|].
  eapply (default_configuration_obeys_no_chat FileNotFoundError);
    [left; reflexivity | reflexivity | reflexivity | right; exists 7%Z; reflexivity].
Defined.

(** X17. The sender is compared with the configured chat through [str]:
    the integer identifier [z] of a message is accepted when the
    configuration holds [z] as an integer or as the string of its digits;
    and when the configuration holds no [chat_id] at all, a message that
    carries no chat identifier is accepted too, both printing as [None]. *)
Theorem sender_compared_as_text
        (st : State) (upd : Update) (msg : Message) :
  message upd = Some msg ->
  (exists z, chat_id_msg msg = PyInt z /\
             (chat_id st = PyInt z \/ chat_id st = PyStr (Text.str z))) \/
  (chat_id_msg msg = PyNone /\ chat_id st = PyNone) ->
  telegram_webhook (Some upd) st
  = (Ack, if Text.startswith "/" (message_text msg)
          then dispatch (Text.split (message_text msg)) st else st).
Proof.
  intros Hm Hid. unfold telegram_webhook. rewrite Hm.
  assert (Heq : py_str (chat_id_msg msg) = py_str (chat_id st)).
  { destruct Hid as [(z & -> & [-> | ->]) | [-> ->]]; reflexivity. }
  apply String.eqb_eq in Heq. rewrite Heq. cbn [negb].
  destruct (Text.startswith "/" (message_text msg)); reflexivity.
Qed.

Lemma sender_compared_as_text_witness :
  sent (snd (telegram_webhook (text_update (PyInt 7) "/status") chat7))
  = ["No active monitors."] /\
  sent (snd (telegram_webhook
               (Some {| message := Some {| chat := None; text := Some "/status" |} |})
               (start_all_monitors
                  (init {| doc_bot_token := PyNone; doc_chat_id := PyNone;
                           doc_symbols := Some [] |}))))
  = ["No active monitors."].
Proof.
  split.
  - unfold text_update.
    rewrite (sender_compared_as_text chat7
               {| message := Some {| chat := Some {| id := Some (PyInt 7) |};
                                     text := Some "/status" |} |}
               {| chat := Some {| id := Some (PyInt 7) |}; text := Some "/status" |} eq_refl).
    + reflexivity.
    + left. exists 7%Z. split; [reflexivity | right; reflexivity].
  - rewrite (sender_compared_as_text _
               {| message := Some {| chat := None; text := Some "/status" |} |}
               {| chat := None; text := Some "/status" |} eq_refl).
    + reflexivity.
    + right. split; reflexivity.
Defined.

(** ** The registry and the configuration agree *)

Lemma start_monitor_keys (n : string) (f s g : Z) (st : State) (k : string) :
  Dict.mem k (monitors (start_monitor n f s g st)) = true ->
  Dict.mem k (monitors st) = true \/ k = monitor_key n g.
Proof.
  destruct (Dict.mem (monitor_key n g) (monitors st)) eqn:E.
  - rewrite start_monitor_present by assumption. auto.
  - destruct (start_monitor_fresh n f s g st E) as [_ ->].
    destruct (string_dec k (monitor_key n g)) as [->|Hne]; [auto|].
    unfold Dict.mem. rewrite get_set_other by assumption. auto.
Qed.

Lemma start_timeframes_keys (n : string) (tfs : list Timeframe) (st : State) (k : string) :
  Dict.mem k (monitors (fold_left (fun st tf => start_monitor n (fast_ma tf) (slow_ma tf)
                                                             (granularity tf) st) tfs st)) = true ->
  Dict.mem k (monitors st) = true \/
  exists tf, In tf tfs /\ k = monitor_key n (granularity tf).
Proof.
  revert st. induction tfs as [|tf r IH]; intros st; simpl; [auto|].
  intros H. apply IH in H. destruct H as [H | (t & Ht & ->)].
  - apply start_monitor_keys in H. destruct H as [H | ->]; [auto|].
    right. exists tf. auto.
  - right. exists t. auto.
Qed.

Lemma start_symbols_keys (syms : list SymbolConfig) (st : State) (k : string) :
  Dict.mem k (monitors (fold_left
               (fun st sym =>
                  fold_left (fun st tf => start_monitor (name sym) (fast_ma tf) (slow_ma tf)
                                                        (granularity tf) st)
                            (timeframes sym) st) syms st)) = true ->
  Dict.mem k (monitors st) = true \/
  exists sym tf, In sym syms /\ In tf (timeframes sym) /\
                 k = monitor_key (name sym) (granularity tf).
Proof.
  revert st. induction syms as [|sym r IH]; intros st; simpl; [auto|].
  intros H. apply IH in H. destruct H as [H | (s & t & Hs & Ht & ->)].
  - apply start_timeframes_keys in H. destruct H as [H | (t & Ht & ->)]; [auto|].
    right. exists sym, t. auto.
  - right. exists s, t. auto.
Qed.

Lemma startup_keys (cfg : ConfigDoc) (key : string) :
  Dict.mem key (monitors (start_all_monitors (init cfg))) = true <->
  configured (start_all_monitors (init cfg)) key.
Proof.
  destruct (start_all_monitors_consistent (init cfg) (init_registry_consistent cfg))
    as [[Hreg Hcfg] Hsym].
  split.
  - intros H. unfold start_all_monitors in H.
    apply start_symbols_keys in H. destruct H as [H | (s & t & Hs & Ht & ->)].
    + discriminate H.
    + exists s, t. rewrite Hsym. auto.
  - intros (s & t & Hs & Ht & ->). apply Hcfg; assumption.
Qed.

(** X18. Start-up registers exactly the configured timeframes: after
    [start_all_monitors] a key is in the registry if and only if it is the
    key of a timeframe of the loaded symbol list, each with one started,
    active worker, also when the list names a timeframe twice; the symbol
    list is the loaded one and nothing has been sent, saved or logged. *)
Theorem startup_registers_configuration (cfg : ConfigDoc) :
  let st := start_all_monitors (init cfg) in
  symbols st = match doc_symbols cfg with Some l => l | None => [] end /\
  (forall key, Dict.mem key (monitors st) = true <-> configured st key) /\
  (forall key, configured st key -> List.length (live_workers key st) = 1%nat) /\
  sent st = [] /\ saved st = [] /\ events st = [].
Proof.
  intros st.
  destruct (start_all_monitors_consistent (init cfg) (init_registry_consistent cfg))
    as [[Hreg Hcfg] Hsym].
  destruct (start_all_monitors_frame (init cfg)) as (_ & Hse & Hsa & Hev).
  fold st in Hreg, Hcfg, Hsym, Hse, Hsa, Hev.
  split; [rewrite Hsym; reflexivity|].
  split; [intros key; apply startup_keys|].
  split; [intros key Hk; apply live_workers_registered;
          [exact Hreg | apply startup_keys; exact Hk]|].
  repeat split; assumption.
Qed.

Lemma with_symbol_keeps (n : string) (l : list SymbolConfig) (sym : SymbolConfig) :
  In sym l -> In sym (with_symbol n l).
Proof.
  unfold with_symbol. destruct (find_symbol n l); [auto|].
  intros H. apply in_or_app. auto.
Qed.

Lemma update_symbol_keeps (n : string) (f : SymbolConfig -> SymbolConfig)
      (l : list SymbolConfig) (sym : SymbolConfig) :
  In sym l ->
  In sym (update_symbol n f l) \/
  (find_symbol n l = Some sym /\ In (f sym) (update_symbol n f l)).
Proof.
  unfold find_symbol. induction l as [|x r IH]; simpl; [tauto|].
  destruct (name x =? n) eqn:E; simpl.
  - intros [-> | H]; [right; auto | left; auto].
  - intros [-> | H]; [left; auto|].
    destruct (IH H) as [H1 | [H1 H2]]; [left; auto | right; auto].
Qed.

Lemma drop_symbol_keeps (n : string) (l : list SymbolConfig) (sym : SymbolConfig) :
  In sym l -> In sym (drop_symbol n l) \/ find_symbol n l = Some sym.
Proof.
  unfold find_symbol. induction l as [|x r IH]; simpl; [tauto|].
  destruct (name x =? n) eqn:E; simpl.
  - intros [-> | H]; [right; auto | left; auto].
  - intros [-> | H]; [left; auto|].
    destruct (IH H) as [H1 | H1]; [left; auto | right; auto].
Qed.

Lemma list_remove_keeps (t tf : Timeframe) (tfs : list Timeframe) :
  In tf tfs -> granularity tf <> granularity t ->
  In tf (list_remove Timeframe_eqb t tfs).
Proof.
  intros Hin Hg. induction tfs as [|x r IH]; simpl; [destruct Hin|].
  destruct (Timeframe_eqb x t) eqn:E.
  - destruct Hin as [-> | Hin]; [|exact Hin].
    apply Timeframe_eqb_granularity in E. contradiction.
  - destruct Hin as [-> | Hin]; [left; reflexivity | right; auto].
Qed.

(** [addsymbol] loses no timeframe. *)
Lemma addsymbol_keeps_entries (n : string) (f s g : Z) (st : State) (key : string) :
  configured st key -> configured (addsymbol n f s g st) key.
Proof.
  intros (sym & tf & Hsym & Htf & ->).
  destruct (addsymbol_unfold n f s g st) as (e & Hfind & Hcase).
  destruct Hcase as [(Hex & Hold & ->) | (Hex & reply & ->)]; [exists sym, tf; auto|].
  unfold configured. cbn [symbols send_telegram set_sent].
  match goal with |- context [start_monitor n f s g ?x] =>
    destruct (start_monitor_other_fields n f s g x) as [-> _] end.
  cbn [symbols save_config set_saved set_symbols].
  apply (with_symbol_keeps n) in Hsym.
  destruct (update_symbol_keeps n
              (add_timeframe {| fast_ma := f; slow_ma := s; granularity := g |}) _ _ Hsym)
    as [H | [_ H]].
  - exists sym, tf. auto.
  - eexists. exists tf. split; [exact H|]. split; [|reflexivity].
    cbn [add_timeframe timeframes]. apply in_or_app. auto.
Qed.

(** [remsymbol] loses no timeframe of another key. *)
Lemma remsymbol_keeps_entries (n : string) (g : Z) (st : State) (key : string) :
  configured st key -> key <> monitor_key n g -> configured (remsymbol n g st) key.
Proof.
  intros (sym & tf & Hsym & Htf & ->) Hne.
  destruct (find_symbol n (symbols st)) as [sym0|] eqn:Hfind;
    [|rewrite remsymbol_no_symbol by assumption; exists sym, tf; auto].
  destruct (find (has_granularity g) (timeframes sym0)) as [t|] eqn:Ht;
    [|rewrite (remsymbol_no_timeframe _ _ _ _ Hfind Ht); exists sym, tf; auto].
  rewrite (remsymbol_found _ _ _ _ _ Hfind Ht).
  unfold configured.
  cbn [symbols send_telegram set_sent save_config set_saved set_symbols].
  assert (Hg : granularity t = g).
  { apply find_some in Ht. destruct Ht as [_ Ht]. apply Z.eqb_eq. exact Ht. }
  assert (Hn0 : name sym0 = n) by (apply find_symbol_name in Hfind; apply Hfind).
  (* the entry found and the timeframe found are not the pair of [key] *)
  assert (Hsurv : sym = sym0 -> In tf (list_remove Timeframe_eqb t (timeframes sym0))).
  { intros ->. apply list_remove_keeps; [exact Htf|].
    intros Heq. apply Hne. rewrite Hn0, Heq, Hg. reflexivity. }
  destruct (list_remove Timeframe_eqb t (timeframes sym0)) as [|t0 r0] eqn:Hrest.
  - destruct (drop_symbol_keeps n _ _ Hsym) as [H | H].
    + exists sym, tf. auto.
    + rewrite Hfind in H. injection H as <-. destruct (Hsurv eq_refl).
  - destruct (update_symbol_keeps n (remove_timeframe t) _ _ Hsym) as [H | [H1 H2]].
    + exists sym, tf. auto.
    + rewrite Hfind in H1. injection H1 as <-.
      eexists. exists tf. split; [exact H2|]. split; [|reflexivity].
      cbn [remove_timeframe timeframes]. rewrite Hrest. apply Hsurv. reflexivity.
Qed.

Lemma remsymbol_keys_strict (n : string) (g : Z) (st : State) (k : string) :
  Dict.mem k (monitors (remsymbol n g st)) = true ->
  Dict.mem k (monitors st) = true /\
  (k = monitor_key n g -> remsymbol n g st = send_telegram (no_symbol_found n) st \/
                          remsymbol n g st = send_telegram (no_timeframe_found n g) st).
Proof.
  intros H. split; [eapply remsymbol_keys; exact H|].
  intros ->.
  destruct (find_symbol n (symbols st)) as [sym|] eqn:Hsym;
    [|left; apply remsymbol_no_symbol; exact Hsym].
  destruct (find (has_granularity g) (timeframes sym)) as [t|] eqn:Ht;
    [|right; apply (remsymbol_no_timeframe _ _ _ _ Hsym Ht)].
  exfalso. rewrite (remsymbol_found _ _ _ _ _ Hsym Ht) in H.
  cbn [monitors send_telegram set_sent save_config set_saved set_symbols] in H.
  unfold Dict.mem in H. rewrite stop_monitor_unregisters in H. discriminate.
Qed.

Lemma handle_within_config (st : State) (data : option Update) :
  registry_within_config st -> registry_within_config (handle st data).
Proof.
  intros Hw.
  destruct (handle_cases st data)
    as [-> | [[reply ->] | [(sy & f & s & g & _ & ->) | (sy & g & _ & ->)]]].
  - exact Hw.
  - exact Hw.
  - intros k Hk. apply addsymbol_keys in Hk. destruct Hk as [Hk | ->].
    + apply addsymbol_keeps_entries. apply Hw. exact Hk.
    + destruct (addsymbol_has_timeframe (Text.upper sy) f s g st) as (e & Hfind & Hex).
      apply find_symbol_name in Hfind. destruct Hfind as [Hin Hname].
      apply existsb_granularity in Hex. destruct Hex as (tf & Htf & Hg).
      exists e, tf. rewrite Hname, Hg. auto.
  - intros k Hk. apply remsymbol_keys_strict in Hk. destruct Hk as [Hk Hkey].
    destruct (string_dec k (monitor_key (Text.upper sy) g)) as [Heq | Hne].
    + destruct (Hkey Heq) as [-> | ->]; apply Hw; exact Hk.
    + apply remsymbol_keeps_entries; [apply Hw; exact Hk | exact Hne].
Qed.

Lemma run_within_config (updates : list (option Update)) (st : State) :
  registry_within_config st -> registry_within_config (run updates st).
Proof.
  revert st. induction updates as [|d r IH]; intros st H; [exact H|].
  change (run (d :: r) st) with (run r (handle st d)).
  apply IH. apply handle_within_config. exact H.
Qed.

(** X19. No worker outlives its timeframe: after the start and any sequence
    of updates, every key in the registry is the key of a timeframe that is
    in the symbol list, whatever document was loaded. *)
Theorem no_worker_without_timeframe
        (cfg : ConfigDoc) (updates : list (option Update)) (key : string) :
  let st := run updates (start_all_monitors (init cfg)) in
  Dict.mem key (monitors st) = true -> configured st key.
Proof.
  cbv zeta. apply run_within_config.
  intros k Hk. apply startup_keys. exact Hk.
Qed.

Lemma no_worker_without_timeframe_witness :
  configured
    (run [text_update (PyInt 7) "/addsymbol EURUSD 5 20 60";
          text_update (PyInt 7) "/addsymbol EURUSD 5 20 300";
          text_update (PyInt 7) "/remsymbol EURUSD 60"] chat7)
    "EURUSD_300".
Proof.
  apply (no_worker_without_timeframe
           {| doc_bot_token := PyStr "token"; doc_chat_id := PyStr "7";
              doc_symbols := Some [] |}
           [text_update (PyInt 7) "/addsymbol EURUSD 5 20 60";
            text_update (PyInt 7) "/addsymbol EURUSD 5 20 300";
            text_update (PyInt 7) "/remsymbol EURUSD 60"] "EURUSD_300").
  reflexivity.
Defined.

Lemma handle_unique (st : State) (data : option Update) :
  unique_config st -> unique_config (handle st data).
Proof.
  intros Hu.
  destruct (handle_cases st data)
    as [-> | [[reply ->] | [(sy & f & s & g & _ & ->) | (sy & g & _ & ->)]]].
  - exact Hu.
  - exact Hu.
  - apply addsymbol_unique. exact Hu.
  - apply remsymbol_unique. exact Hu.
Qed.

(** X20. Commands never make a duplicate: if the symbol list has one entry
    per name and one timeframe per granularity in each entry, it still has
    after any sequence of updates. A second [/addsymbol] of a name goes into
    the entry that is there, and a second one of a granularity is refused. *)
Theorem commands_keep_entries_unique (updates : list (option Update)) (st : State) :
  unique_config st -> unique_config (run updates st).
Proof.
  revert st. induction updates as [|d r IH]; intros st H; [exact H|].
  change (run (d :: r) st) with (run r (handle st d)).
  apply IH. apply handle_unique. exact H.
Qed.

Lemma chat7_unique : unique_config chat7.
Proof.
  split; [constructor | intros sym []].
Qed.

Lemma commands_keep_entries_unique_witness :
  unique_config
    (run [text_update (PyInt 7) "/addsymbol EURUSD 5 20 60";
          text_update (PyInt 7) "/addsymbol eurusd 9 30 60";
          text_update (PyInt 7) "/addsymbol EURUSD 5 20 300"] chat7).
Proof.
  apply commands_keep_entries_unique. exact chat7_unique.
Defined.

(** X21. When the loaded symbol list has one entry per name and one
    timeframe per granularity, the registry and the configuration agree
    after any sequence of updates: a key is registered exactly when it is
    the key of a configured timeframe, and then it has exactly one live
    worker. *)
Theorem registry_matches_configuration
        (cfg : ConfigDoc) (updates : list (option Update)) (key : string) :
  unique_config (init cfg) ->
  let st := run updates (start_all_monitors (init cfg)) in
  (Dict.mem key (monitors st) = true <-> configured st key) /\
  (configured st key -> List.length (live_workers key st) = 1%nat).
Proof.
  intros Hu st.
  assert (Hwf : well_formed st).
  { apply run_well_formed. split; [apply startup_consistent|].
    unfold unique_config.
    destruct (start_all_monitors_consistent (init cfg) (init_registry_consistent cfg))
      as [_ ->].
    exact Hu. }
  destruct Hwf as [[Hreg Hcfg] _].
  assert (Hiff : Dict.mem key (monitors st) = true <-> configured st key).
  { split.
    - apply run_within_config. intros k Hk. apply startup_keys. exact Hk.
    - intros (s & t & Hs & Ht & ->). apply Hcfg; assumption. }
  split; [exact Hiff|].
  intros Hk. apply live_workers_registered; [exact Hreg | apply Hiff; exact Hk].
Qed.

Lemma registry_matches_configuration_witness :
  let st := run [text_update (PyInt 7) "/addsymbol EURUSD 5 20 60";
                 text_update (PyInt 7) "/remsymbol EURUSD 60"] chat7 in
  Dict.mem "EURUSD_60" (monitors st) = true <-> configured st "EURUSD_60".
Proof.
  intros st.
  apply (registry_matches_configuration
           {| doc_bot_token := PyStr "token"; doc_chat_id := PyStr "7";
              doc_symbols := Some [] |}
           [text_update (PyInt 7) "/addsymbol EURUSD 5 20 60";
            text_update (PyInt 7) "/remsymbol EURUSD 60"] "EURUSD_60").
  split; [constructor | intros sym []].
Defined.

(** ** Adding a timeframe, and taking it away again *)

Lemma update_symbol_append (n : string) (f : SymbolConfig -> SymbolConfig)
      (l : list SymbolConfig) (e : SymbolConfig) :
  find_symbol n l = None -> name e = n ->
  update_symbol n f (l ++ [e])%list = (l ++ [f e])%list.
Proof.
  intros Hnone Hn. unfold find_symbol in Hnone.
  induction l as [|x r IH]; simpl in *.
  - rewrite Hn, String.eqb_refl. reflexivity.
  - destruct (name x =? n); [discriminate|]. rewrite IH by assumption. reflexivity.
Qed.

Lemma drop_symbol_append (n : string) (l : list SymbolConfig) (e : SymbolConfig) :
  find_symbol n l = None -> name e = n ->
  drop_symbol n (l ++ [e])%list = l.
Proof.
  intros Hnone Hn. unfold find_symbol in Hnone.
  induction l as [|x r IH]; simpl in *.
  - rewrite Hn, String.eqb_refl. reflexivity.
  - destruct (name x =? n); [discriminate|]. rewrite IH by assumption. reflexivity.
Qed.

(** The state [addsymbol] leaves when the timeframe is new. *)
Lemma addsymbol_new (n : string) (f s g : Z) (st : State) :
  timeframe_free n g (symbols st) ->
  addsymbol n f s g st
  = send_telegram (added_reply n f s g)
      (start_monitor n f s g
         (save_config
            (set_symbols
               (add_entry n {| fast_ma := f; slow_ma := s; granularity := g |} (symbols st))
               st))).
Proof.
  unfold timeframe_free, add_entry, addsymbol.
  destruct (find_symbol n (symbols st)) as [e|] eqn:Hfind.
  - intros Hfree. rewrite Hfind, Hfree. reflexivity.
  - intros _. cbn [symbols set_symbols].
    rewrite (find_symbol_append n (symbols st) {| name := n; timeframes := [] |} Hfind eq_refl).
    cbn [timeframes existsb].
    rewrite (update_symbol_append n _ (symbols st) {| name := n; timeframes := [] |} Hfind eq_refl).
    reflexivity.
Qed.

Lemma heap_update_last (h : list Monitor) (f : Monitor -> Monitor) (m : Monitor) :
  heap_update (List.length h) f (h ++ [m])%list = (h ++ [f m])%list.
Proof.
  induction h as [|x r IH]; simpl; [reflexivity | rewrite IH; reflexivity].
Qed.

(** X22. An [/addsymbol] for a timeframe the symbol does not have yet puts
    the timeframe at the end of the symbol's entry (in a new entry at the
    end of the list when the symbol is new), writes the configuration,
    replies with the confirmation, and leaves the key registered; when the
    key was free, the registered worker is a new one, started, with exactly
    the windows of the command. *)
Theorem addsymbol_adds_timeframe
        (st : State) (data : option Update) (symbol : string) (fast slow gran : Z) :
  addsymbol_command st data symbol fast slow gran ->
  let sym_name := Text.upper symbol in
  let key := monitor_key sym_name gran in
  let tf := {| fast_ma := fast; slow_ma := slow; granularity := gran |} in
  let st' := handle st data in
  timeframe_free sym_name gran (symbols st) ->
  symbols st' = add_entry sym_name tf (symbols st) /\
  saved st' = (saved st ++ [config st'])%list /\
  sent st' = (sent st ++ [added_reply sym_name fast slow gran])%list /\
  Dict.mem key (monitors st') = true /\
  (Dict.get key (monitors st) = None ->
   monitors st' = Dict.set key (List.length (heap st)) (monitors st) /\
   heap st' = (heap st ++ [Monitor_start (Monitor_init sym_name fast slow gran)])%list) /\
  (registry_consistent st -> List.length (live_workers key st') = 1%nat).
Proof.
  intros Hcmd sym_name key tf st' Hfree.
  assert (E : st' = addsymbol sym_name fast slow gran st)
    by (apply handle_addsymbol; exact Hcmd).
  pose proof (addsymbol_new sym_name fast slow gran st Hfree) as Hnew.
  fold tf in Hnew. rewrite <- E in Hnew.
  set (st2 := save_config (set_symbols (add_entry sym_name tf (symbols st)) st)) in *.
  destruct (start_monitor_other_fields sym_name fast slow gran st2) as (Hsy & _).
  destruct (start_monitor_frame sym_name fast slow gran st2) as (Hc & Hse & Hsa & _).
  assert (Hmem : Dict.mem key (monitors st') = true)
    by (rewrite Hnew; apply start_monitor_registers).
  split; [rewrite Hnew; cbn [symbols send_telegram set_sent]; rewrite Hsy; reflexivity|].
  split.
  { rewrite Hnew. cbn [saved send_telegram set_sent]. rewrite Hsa.
    change (config (send_telegram (added_reply sym_name fast slow gran)
                      (start_monitor sym_name fast slow gran st2)))
      with (config (start_monitor sym_name fast slow gran st2)).
    rewrite Hc. reflexivity. }
  split; [rewrite Hnew; cbn [sent send_telegram set_sent]; rewrite Hse; reflexivity|].
  split; [exact Hmem|].
  split.
  { intros Hfreekey.
    assert (Hk : Dict.mem (monitor_key sym_name gran) (monitors st2) = false)
      by (apply mem_false_get; exact Hfreekey).
    destruct (start_monitor_fresh sym_name fast slow gran st2 Hk) as [Hh Hm].
    rewrite Hnew. cbn [monitors heap send_telegram set_sent].
    rewrite Hh, Hm. split; [reflexivity|].
    apply (heap_update_last (heap st)). }
  intros Hreg. apply live_workers_registered; [|exact Hmem].
  rewrite E. apply addsymbol_registry_consistent. exact Hreg.
Qed.

Lemma addsymbol_adds_timeframe_witness :
  let st' := handle chat7 (text_update (PyInt 7) "/addsymbol eurusd 5 20 60") in
  symbols st' = [{| name := "EURUSD";
                    timeframes := [{| fast_ma := 5; slow_ma := 20; granularity := 60 |}] |}] /\
  sent st' = ["Added EURUSD 60s with fast MA=5 slow MA=20"] /\
  heap st' = [Monitor_start (Monitor_init "EURUSD" 5 20 60)].
Proof.
  intros st'.
  assert (Hcmd : addsymbol_command chat7 (text_update (PyInt 7) "/addsymbol eurusd 5 20 60")
                   "eurusd" 5 20 60)
    by (eapply text_addsymbol_command; reflexivity).
  destruct (addsymbol_adds_timeframe chat7 _ "eurusd" 5 20 60 Hcmd I)
    as (Hsym & _ & Hsent & _ & Hfresh & _).
  destruct (Hfresh eq_refl) as [_ Hheap].
  split; [exact Hsym|]. split; [exact Hsent | exact Hheap].
Defined.

Lemma find_appended (g : Z) (tfs : list Timeframe) (tf : Timeframe) :
  existsb (has_granularity g) tfs = false -> granularity tf = g ->
  find (has_granularity g) (tfs ++ [tf])%list = Some tf.
Proof.
  intros Hfree Hg. induction tfs as [|x r IH]; simpl in *.
  - unfold has_granularity. rewrite Hg, Z.eqb_refl. reflexivity.
  - apply orb_false_iff in Hfree. destruct Hfree as [Hx Hr].
    rewrite Hx. apply IH. exact Hr.
Qed.

Lemma list_remove_appended (g : Z) (tfs : list Timeframe) (tf : Timeframe) :
  existsb (has_granularity g) tfs = false -> granularity tf = g ->
  list_remove Timeframe_eqb tf (tfs ++ [tf])%list = tfs.
Proof.
  intros Hfree Hg. induction tfs as [|x r IH]; simpl in *.
  - rewrite Timeframe_eqb_refl. reflexivity.
  - apply orb_false_iff in Hfree. destruct Hfree as [Hx Hr].
    destruct (Timeframe_eqb x tf) eqn:E.
    + apply Timeframe_eqb_granularity in E. unfold has_granularity in Hx.
      apply Z.eqb_neq in Hx. congruence.
    + rewrite IH by assumption. reflexivity.
Qed.

Lemma update_symbol_undo (n : string) (f1 f2 : SymbolConfig -> SymbolConfig)
      (l : list SymbolConfig) (e : SymbolConfig) :
  find_symbol n l = Some e -> name (f1 e) = name e -> f2 (f1 e) = e ->
  update_symbol n f2 (update_symbol n f1 l) = l.
Proof.
  intros Hfind Hn Hundo. unfold find_symbol in Hfind.
  induction l as [|x r IH]; simpl in *; [reflexivity|].
  destruct (name x =? n) eqn:E.
  - injection Hfind as ->. simpl. rewrite Hn, E, Hundo. reflexivity.
  - simpl. rewrite E, IH by assumption. reflexivity.
Qed.

Lemma del_fresh {V} (k : string) (d : Dict.t V) :
  Dict.get k d = None -> Dict.del k d = d.
Proof.
  unfold Dict.del. induction d as [|[k' v'] r IH]; simpl; [reflexivity|].
  destruct (k' =? k); [discriminate|]. intros H. simpl. rewrite IH by assumption. reflexivity.
Qed.

Lemma del_set_fresh {V} (k : string) (v : V) (d : Dict.t V) :
  Dict.get k d = None -> Dict.del k (Dict.set k v d) = d.
Proof.
  unfold Dict.del. induction d as [|[k' v'] r IH]; simpl.
  - rewrite String.eqb_refl. reflexivity.
  - destruct (k' =? k) eqn:E; [discriminate|].
    intros H. simpl. rewrite E. simpl. rewrite IH by assumption. reflexivity.
Qed.

(** X23. Adding a timeframe and removing it again restores the symbol list,
    the registry and the configuration: when the symbol had no timeframe of
    that granularity (and was new, or had other timeframes) and the key was
    free, [/addsymbol] followed by [/remsymbol] of the same symbol and
    granularity leaves [symbols], [monitors] and the configuration as they
    were; what remains is the stopped worker, the two replies and the two
    documents written. *)
Theorem add_then_remove_restores
        (st : State) (d1 d2 : option Update) (symbol : string) (fast slow gran : Z) :
  addsymbol_command st d1 symbol fast slow gran ->
  remsymbol_command (handle st d1) d2 symbol gran ->
  let sym_name := Text.upper symbol in
  let key := monitor_key sym_name gran in
  timeframe_free sym_name gran (symbols st) ->
  (forall e, find_symbol sym_name (symbols st) = Some e -> timeframes e <> []) ->
  Dict.get key (monitors st) = None ->
  let st1 := handle st d1 in
  let st2 := handle st1 d2 in
  symbols st2 = symbols st /\ monitors st2 = monitors st /\ config st2 = config st /\
  heap st2 = (heap st ++ [Monitor_stop (Monitor_start (Monitor_init sym_name fast slow gran))])%list /\
  sent st2 = (sent st ++ [added_reply sym_name fast slow gran;
                          removed_monitor sym_name gran])%list /\
  saved st2 = (saved st ++ [config st1; config st])%list.
Proof.
  intros Hadd Hrem sym_name key Hfree Hnonempty Hkey st1 st2.
  set (tf := {| fast_ma := fast; slow_ma := slow; granularity := gran |}).
  assert (E1 : st1 = addsymbol sym_name fast slow gran st)
    by (apply handle_addsymbol; exact Hadd).
  assert (E2 : st2 = remsymbol sym_name gran st1)
    by (apply handle_remsymbol; exact Hrem).
  (* the state after the first command *)
  rewrite (addsymbol_new sym_name fast slow gran st Hfree) in E1. fold tf in E1.
  set (sta := save_config (set_symbols (add_entry sym_name tf (symbols st)) st)) in E1.
  assert (Hk : Dict.mem (monitor_key sym_name gran) (monitors sta) = false)
    by (apply mem_false_get; exact Hkey).
  destruct (start_monitor_fresh sym_name fast slow gran sta Hk) as [Hh1 Hm1].
  destruct (start_monitor_other_fields sym_name fast slow gran sta)
    as (Hsy1 & _ & _ & Hid1 & Hin1).
  destruct (start_monitor_frame sym_name fast slow gran sta) as (Hc1 & Hse1 & Hsa1 & _).
  assert (Fsym : symbols st1 = add_entry sym_name tf (symbols st))
    by (rewrite E1; cbn [symbols send_telegram set_sent]; rewrite Hsy1; reflexivity).
  assert (Fmon : monitors st1 = Dict.set key (List.length (heap st)) (monitors st))
    by (rewrite E1; cbn [monitors send_telegram set_sent]; rewrite Hm1; reflexivity).
  assert (Fheap : heap st1 = (heap st ++ [Monitor_start (Monitor_init sym_name fast slow gran)])%list).
  { rewrite E1. cbn [heap send_telegram set_sent]. rewrite Hh1.
    apply (heap_update_last (heap st)). }
  assert (Fsent : sent st1 = (sent st ++ [added_reply sym_name fast slow gran])%list)
    by (rewrite E1; cbn [sent send_telegram set_sent]; rewrite Hse1; reflexivity).
  assert (Fcfg1 : config st1 = config sta) by (rewrite E1; exact Hc1).
  assert (Fsaved : saved st1 = (saved st ++ [config st1])%list).
  { rewrite Fcfg1. rewrite E1. cbn [saved send_telegram set_sent]. rewrite Hsa1. reflexivity. }
  pose proof (f_equal doc_bot_token Fcfg1) as Fbot.
  pose proof (f_equal doc_chat_id Fcfg1) as Fchat.
  cbn [config doc_bot_token doc_chat_id sta save_config set_saved set_symbols
       bot_token chat_id] in Fbot, Fchat.
  assert (Fin : symbols_in_config st1 = symbols_in_config st)
    by (rewrite E1; cbn [symbols_in_config send_telegram set_sent]; rewrite Hin1; reflexivity).
  clearbody st1. clear E1 Hh1 Hm1 Hsy1 Hid1 Hin1 Hc1 Hse1 Hsa1 Hk sta Fcfg1.
  (* the entry of the symbol after the first command, and what is left of it *)
  assert (Hentry : exists e1,
             find_symbol sym_name (symbols st1) = Some e1 /\
             find (has_granularity gran) (timeframes e1) = Some tf /\
             match list_remove Timeframe_eqb tf (timeframes e1) with
             | [] => drop_symbol sym_name (symbols st1)
             | _ => update_symbol sym_name (remove_timeframe tf) (symbols st1)
             end = symbols st).
  { rewrite Fsym. unfold add_entry, timeframe_free in *.
    destruct (find_symbol sym_name (symbols st)) as [e|] eqn:Hfind.
    - exists (add_timeframe tf e).
      split; [apply update_symbol_find; [reflexivity | exact Hfind]|].
      cbn [add_timeframe timeframes].
      split; [apply find_appended; [exact Hfree | reflexivity]|].
      rewrite (list_remove_appended gran) by (exact Hfree || reflexivity).
      destruct (timeframes e) as [|t0 r0] eqn:Etf; [exfalso; exact (Hnonempty e eq_refl Etf)|].
      apply (update_symbol_undo sym_name _ _ _ e Hfind); [reflexivity|].
      unfold remove_timeframe, add_timeframe. cbn [name timeframes].
      rewrite (list_remove_appended gran) by (rewrite ?Etf; exact Hfree || reflexivity).
      destruct e; reflexivity.
    - exists {| name := sym_name; timeframes := [tf] |}.
      split; [apply find_symbol_append; [exact Hfind | reflexivity]|].
      cbn [timeframes].
      split; [apply (find_appended gran []); reflexivity|].
      change (list_remove Timeframe_eqb tf [tf])
        with (list_remove Timeframe_eqb tf ([] ++ [tf])%list).
      rewrite (list_remove_appended gran [] tf) by reflexivity.
      apply drop_symbol_append; [exact Hfind | reflexivity]. }
  destruct Hentry as (e1 & Hf1 & Ht1 & Hback).
  rewrite (remsymbol_found _ _ _ _ _ Hf1 Ht1) in E2. rewrite Hback in E2.
  fold key in E2.
  set (st1' := set_symbols (update_symbol sym_name (remove_timeframe tf) (symbols st1)) st1) in E2.
  assert (Hget : Dict.get key (monitors st1') = Some (List.length (heap st)))
    by (cbn [st1' monitors set_symbols]; rewrite Fmon; apply get_set_same).
  assert (Fstop : stop_monitor key st1'
                  = set_monitors (monitors st)
                      (set_heap (heap st ++ [Monitor_stop (Monitor_start
                                              (Monitor_init sym_name fast slow gran))])%list st1')).
  { unfold stop_monitor. rewrite Hget.
    cbn [st1' monitors heap set_symbols]. rewrite Fmon, Fheap.
    rewrite (del_set_fresh key _ _ Hkey), (heap_update_last (heap st)). reflexivity. }
  rewrite Fstop in E2.
  set (st3 := set_symbols (symbols st) (set_monitors (monitors st) _)) in E2.
  assert (Fc3 : config st3 = config st).
  { unfold config.
    cbn [st3 st1' bot_token chat_id symbols_in_config symbols
         set_symbols set_monitors set_heap].
    rewrite Fbot, Fchat, Fin. reflexivity. }
  assert (Fc2 : config st2 = config st) by (rewrite E2; exact Fc3).
  rewrite E2 at 1 2 4 5 6.
  cbn [symbols monitors heap sent saved st3 st1'
       send_telegram set_sent save_config set_saved set_symbols set_monitors set_heap].
  fold st1' in st3. fold st3.
  rewrite Fsent, Fsaved, Fc3.
  split; [reflexivity|]. split; [reflexivity|]. split; [exact Fc2|].
  split; [reflexivity|].
  split; [rewrite <- app_assoc; reflexivity|].
  rewrite <- app_assoc. reflexivity.
Qed.

Lemma add_then_remove_restores_witness :
  let d1 := text_update (PyInt 7) "/addsymbol eurusd 5 20 60" in
  let d2 := text_update (PyInt 7) "/remsymbol eurusd 60" in
  let st2 := handle (handle chat7 d1) d2 in
  symbols st2 = symbols chat7 /\ monitors st2 = monitors chat7 /\
  config st2 = config chat7.
Proof.
  intros d1 d2 st2.
  assert (Hadd : addsymbol_command chat7 d1 "eurusd" 5 20 60)
    by (eapply text_addsymbol_command; reflexivity).
  assert (Hrem : remsymbol_command (handle chat7 d1) d2 "eurusd" 60).
  { exists "/remsymbol", "60".
    split; [apply text_update_command; reflexivity | split; reflexivity]. }
  assert (Hne : forall e, find_symbol (Text.upper "eurusd") (symbols chat7) = Some e ->
                          timeframes e <> []) by (intros e H; discriminate H).
  destruct (add_then_remove_restores chat7 d1 d2 "eurusd" 5 20 60 Hadd Hrem I Hne eq_refl)
    as (H1 & H2 & H3 & _).
  split; [exact H1|]. split; [exact H2 | exact H3].
Defined.

(** ** [/status], and the spelling of commands *)

Lemma get_none_not_key {V} (k : string) (d : Dict.t V) :
  Dict.get k d = None -> ~ In k (map fst d).
Proof.
  induction d as [|[k' v'] r IH]; simpl; [tauto|].
  destruct (k' =? k) eqn:E; [discriminate|].
  apply String.eqb_neq in E. intros H [Hk | Hk]; [contradiction | exact (IH H Hk)].
Qed.

Lemma set_fresh {V} (k : string) (v : V) (d : Dict.t V) :
  Dict.get k d = None -> Dict.set k v d = (d ++ [(k, v)])%list.
Proof.
  induction d as [|[k' v'] r IH]; simpl; [reflexivity|].
  destruct (k' =? k); [discriminate|]. intros H. rewrite IH by assumption. reflexivity.
Qed.

Lemma del_keys_NoDup {V} (k : string) (d : Dict.t V) :
  NoDup (map fst d) -> NoDup (map fst (Dict.del k d)).
Proof.
  unfold Dict.del. induction d as [|[k' v'] r IH]; simpl; [auto|].
  intros Hnd. inversion Hnd as [|a b Hnot Hr]; subst.
  destruct (k' =? k); simpl; [auto|].
  constructor; [|auto].
  intros Hin. apply Hnot. apply in_map_iff in Hin. destruct Hin as (x & <- & Hx).
  apply filter_In in Hx. apply in_map. apply Hx.
Qed.

Lemma in_get {V} (k : string) (v : V) (d : Dict.t V) :
  NoDup (map fst d) -> In (k, v) d -> Dict.get k d = Some v.
Proof.
  induction d as [|[k' v'] r IH]; simpl; [tauto|].
  intros Hnd Hin. inversion Hnd as [|a b Hnot Hr]; subst.
  destruct Hin as [[= -> ->] | Hin].
  - rewrite String.eqb_refl. reflexivity.
  - destruct (k' =? k) eqn:E; [|auto].
    apply String.eqb_eq in E. subst k'. exfalso. apply Hnot.
    apply in_map_iff. exists (k, v). auto.
Qed.

Lemma get_in {V} (k : string) (v : V) (d : Dict.t V) :
  Dict.get k d = Some v -> In (k, v) d.
Proof.
  induction d as [|[k' v'] r IH]; simpl; [discriminate|].
  destruct (k' =? k) eqn:E; [|auto].
  apply String.eqb_eq in E. intros [= ->]. subst. auto.
Qed.

Lemma start_monitor_keys_unique (n : string) (f s g : Z) (st : State) :
  NoDup (map fst (monitors st)) ->
  NoDup (map fst (monitors (start_monitor n f s g st))).
Proof.
  intros Hnd. destruct (Dict.mem (monitor_key n g) (monitors st)) eqn:E.
  - rewrite start_monitor_present by assumption. exact Hnd.
  - destruct (start_monitor_fresh n f s g st E) as [_ ->].
    apply mem_false_get in E. rewrite (set_fresh _ _ _ E), map_app.
    apply NoDup_snoc; [exact Hnd | apply get_none_not_key; exact E].
Qed.

Lemma stop_monitor_keys_unique (key : string) (st : State) :
  NoDup (map fst (monitors st)) ->
  NoDup (map fst (monitors (stop_monitor key st))).
Proof.
  intros Hnd. unfold stop_monitor.
  destruct (Dict.get key (monitors st)); [|exact Hnd].
  cbn [monitors set_monitors]. apply del_keys_NoDup. exact Hnd.
Qed.

Lemma handle_keys_unique (st : State) (data : option Update) :
  NoDup (map fst (monitors st)) -> NoDup (map fst (monitors (handle st data))).
Proof.
  intros Hnd.
  destruct (handle_cases st data)
    as [-> | [[reply ->] | [(sy & f & s & g & _ & ->) | (sy & g & _ & ->)]]];
    [exact Hnd | exact Hnd | |].
  - destruct (addsymbol_unfold (Text.upper sy) f s g st) as (e & Hfind & Hcase).
    destruct Hcase as [(Hex & Hold & ->) | (Hex & reply & ->)]; [exact Hnd|].
    cbn [monitors send_telegram set_sent]. apply start_monitor_keys_unique. exact Hnd.
  - destruct (find_symbol (Text.upper sy) (symbols st)) as [sym|] eqn:Hsym;
      [|rewrite remsymbol_no_symbol by assumption; exact Hnd].
    destruct (find (has_granularity g) (timeframes sym)) as [t|] eqn:Ht;
      [|rewrite (remsymbol_no_timeframe _ _ _ _ Hsym Ht); exact Hnd].
    rewrite (remsymbol_found _ _ _ _ _ Hsym Ht).
    cbn [monitors send_telegram set_sent save_config set_saved set_symbols].
    apply stop_monitor_keys_unique. exact Hnd.
Qed.

Lemma reachable_keys_unique (cfg : ConfigDoc) (updates : list (option Update)) :
  NoDup (map fst (monitors (run updates (start_all_monitors (init cfg))))).
Proof.
  assert (H0 : NoDup (map fst (monitors (start_all_monitors (init cfg))))).
  { unfold start_all_monitors.
    assert (Hinner : forall n tfs st, NoDup (map fst (monitors st)) ->
              NoDup (map fst (monitors
                (fold_left (fun st tf => start_monitor n (fast_ma tf) (slow_ma tf)
                                                       (granularity tf) st) tfs st)))).
    { intros n tfs. induction tfs as [|tf r IH]; intros st H; simpl; [exact H|].
      apply IH. apply start_monitor_keys_unique. exact H. }
    generalize (symbols (init cfg)). intros syms.
    assert (Hst : NoDup (map fst (monitors (init cfg)))) by constructor.
    revert Hst. generalize (init cfg).
    induction syms as [|sym r IH]; intros st H; simpl; [exact H|].
    apply IH. apply Hinner. exact H. }
  revert H0. generalize (start_all_monitors (init cfg)).
  induction updates as [|d r IH]; intros st H; [exact H|].
  change (run (d :: r) st) with (run r (handle st d)).
  apply IH. apply handle_keys_unique. exact H.
Qed.

Lemma flat_map_singletons {A B} (f : A -> list B) (l : list A) :
  (forall x, In x l -> exists y, f x = [y]) ->
  List.length (flat_map f l) = List.length l.
Proof.
  induction l as [|a r IH]; intros H; simpl; [reflexivity|].
  destruct (H a (or_introl eq_refl)) as [y Hy].
  rewrite Hy. simpl. rewrite IH; [reflexivity|].
  intros x Hx. apply H. right. exact Hx.
Qed.

(** X24. [/status] reports exactly the running workers: in every state the
    program can reach, the workers it lists (one line each) are the active
    workers and no others, as many as there are keys in the registry; it answers [No active monitors.] exactly
    when the registry is empty, and it changes nothing but the outbox. *)
Theorem status_reports_running_workers
        (cfg : ConfigDoc) (updates : list (option Update)) :
  let st := run updates (start_all_monitors (init cfg)) in
  (forall m, In m (registered_workers st) <-> In m (heap st) /\ m_active m = true) /\
  List.length (registered_workers st) = List.length (monitors st) /\
  cmd_status st
  = send_telegram
      (match monitors st with
       | [] => "No active monitors."
       | _ => "Active monitors:" ++ Text.newline
              ++ Text.join Text.newline (map status_line (registered_workers st))
       end) st.
Proof.
  intros st.
  assert (Hreg : registry_consistent st)
    by (apply run_registry_consistent; apply startup_consistent).
  assert (Hnd : NoDup (map fst (monitors st))) by apply reachable_keys_unique.
  destruct Hreg as [Ha Hb].
  assert (Hres : forall kv, In kv (monitors st) ->
            exists m, nth_error (heap st) (snd kv) = Some m /\ m_active m = true).
  { intros [k i] Hin. apply (in_get _ _ _ Hnd) in Hin.
    destruct (Ha k i Hin) as (m & Hm & _ & _ & Hact). exists m. auto. }
  assert (Hlen : List.length (registered_workers st) = List.length (monitors st)).
  { unfold registered_workers. apply flat_map_singletons.
    intros kv Hin. destruct (Hres kv Hin) as (m & -> & _). eauto. }
  split; [|split; [exact Hlen|]].
  - intros m. unfold registered_workers. rewrite in_flat_map. split.
    + intros (kv & Hin & Hm). destruct (Hres kv Hin) as (m0 & Hm0 & Hact).
      rewrite Hm0 in Hm. destruct Hm as [<- | []].
      split; [eapply nth_error_In; exact Hm0 | exact Hact].
    + intros [Hin Hact]. apply In_nth_error in Hin. destruct Hin as [i Hi].
      exists (worker_key m, i). split; [apply get_in; apply Hb; assumption|].
      cbn [snd]. rewrite Hi. left. reflexivity.
  - unfold cmd_status.
    destruct (monitors st) as [|kv r] eqn:Em.
    + destruct (registered_workers st); [reflexivity | discriminate Hlen].
    + destruct (registered_workers st) as [|m t] eqn:Er; [discriminate Hlen|].
      reflexivity.
Qed.

Lemma dispatch_command_case (c1 c2 : string) (args : list string) (st : State) :
  Text.lower c1 = Text.lower c2 ->
  dispatch (c1 :: args) st = dispatch (c2 :: args) st.
Proof.
  intros Hc. unfold dispatch. cbn [nth]. rewrite Hc.
  unfold cmd_addsymbol, cmd_remsymbol. cbn [List.length nth].
  destruct args as [|a1 [|a2 [|a3 [|a4 r]]]]; reflexivity.
Qed.

(** X25. The command word is read without regard to letter case, and its
    arguments are the words of the text whatever white space separates
    them: two authorized messages whose words are the same, up to the case
    of the first one, are handled alike. *)
Theorem command_word_case_insensitive
        (st : State) (d1 d2 : option Update) (c1 c2 : string) (args : list string) :
  authorized_command st d1 (c1 :: args) ->
  authorized_command st d2 (c2 :: args) ->
  Text.lower c1 = Text.lower c2 ->
  handle st d1 = handle st d2.
Proof.
  intros H1 H2 Hc. unfold handle.
  rewrite (webhook_dispatch _ _ _ H1), (webhook_dispatch _ _ _ H2). cbn [snd].
  apply dispatch_command_case. exact Hc.
Qed.

Lemma command_word_case_insensitive_witness :
  handle chat7 (text_update (PyInt 7) "  /AddSymbol   EURUSD 5	20 60 ")
  = handle chat7 (text_update (PyInt 7) "/addsymbol EURUSD 5 20 60").
Proof.
  apply (command_word_case_insensitive chat7 _ _ "/AddSymbol" "/addsymbol"
           ["EURUSD"; "5"; "20"; "60"]);
    [apply text_update_command; reflexivity
    | apply text_update_command; reflexivity
    | reflexivity].
Defined.

(** ** Two more runs of the theorems *)

Lemma one_reply_per_command_witness :
  exists reply,
    sent (handle chat7 (text_update (PyInt 7) "/frobnicate now"))
    = (sent chat7 ++ [reply])%list.
Proof.
  apply (one_reply_per_command chat7 (text_update (PyInt 7) "/frobnicate now")).
  exists ["/frobnicate"; "now"]. apply text_update_command; reflexivity.
Defined.

Lemma registry_key_names_one_pair_witness :
  monitor_key "A_1" 2 <> monitor_key "A" 12.
Proof.
  intros H. apply (registry_key_names_one_pair "A_1" "A" 2 12) in H.
  destruct H as [H _]. discriminate H.
Defined.
